(** * VocabMaster: exercise generation, answer evaluation, matching and
      the Word Rush arcade mode

    A shallow embedding of the decision logic of the vocabulary trainer:
    [createExercises], [handleAnswer] and [nextExercise] of the App
    component, [handleMatch] of the exercise renderer, and [prepareRound]
    and [handleAnswer] of the Word Rush game.

    Conventions.
    - A JavaScript string is a [string]; one [ascii] stands for one UTF-16
      code unit below 256 (the Latin-1 range), on which [toLowerCase] and
      [trim] below are the built-ins exactly.  [===] on strings is
      [String.eqb].
    - Integer-valued numbers (indices, experience points, score, lives,
      streak) are [Z]; the arcade countdown, which is decremented by 0.1,
      is a binary64 [float].
    - [Array.prototype.sort] with the random comparator is an oracle that
      threads a generator state; generated content (hints) is an oracle too.
    - A literal with characters outside Latin-1 is kept as written (its
      bytes); such literals are only displayed, never compared.
    - A component's [useState] cells are the fields of a record, an event
      handler is a function from the record to the next record. *)

From Stdlib Require Import ZArith List String Ascii Bool Lia Permutation.
From Stdlib Require Import Uint63 PrimFloat FloatOps SpecFloat.
From Stdlib Require Decimal DecimalString DecimalN QArith Qround.
From Stdlib Require Import Sorted.
Import ListNotations.

Set Warnings "-inexact-float".


Local Open Scope string_scope.
Local Open Scope Z_scope.

(* ================================================================== *)
(** ** JavaScript built-ins used by the program *)

Module JS.

(** [a.indexOf(x)]: position of the first element strictly equal to
    [x], or -1. *)
Fixpoint indexOf (l : list string) (x : string) : Z :=
  match l with
  | [] => -1
  | y :: l' =>
      if String.eqb y x then 0
      else let r := indexOf l' x in if r <? 0 then -1 else r + 1
  end.

(** [a.includes(x)]. *)
Definition includes (l : list string) (x : string) : bool :=
  existsb (fun y => String.eqb y x) l.

(** [a[i]] for an integer-valued [i]: [None] is [undefined]. *)
Definition index {A} (l : list A) (i : Z) : option A :=
  if i <? 0 then None else nth_error l (Z.to_nat i).

(** Code units that [trim] strips: TAB, LF, VT, FF, CR, SPACE, NBSP. *)
Definition isWhiteSpace (c : ascii) : bool :=
  let n := nat_of_ascii c in
  ((9 <=? n) && (n <=? 13) || (n =? 32) || (n =? 160))%nat.

Fixpoint trimStart (s : string) : string :=
  match s with
  | String c s' => if isWhiteSpace c then trimStart s' else s
  | EmptyString => EmptyString
  end.

Fixpoint trimEnd (s : string) : string :=
  match s with
  | String c s' =>
      match trimEnd s' with
      | EmptyString => if isWhiteSpace c then EmptyString else String c EmptyString
      | t => String c t
      end
  | EmptyString => EmptyString
  end.

Definition trim (s : string) : string := trimEnd (trimStart s).

(** Lower-case mapping of one code unit below 256: A-Z and the
    capitals U+00C0..U+00DE (the multiplication sign U+00D7 apart). *)
Definition lowerUnit (c : ascii) : ascii :=
  let n := nat_of_ascii c in
  if ((65 <=? n) && (n <=? 90)
      || (192 <=? n) && (n <=? 222) && negb (n =? 215))%nat
  then ascii_of_nat (n + 32) else c.

Fixpoint toLowerCase (s : string) : string :=
  match s with
  | String c s' => String (lowerUnit c) (toLowerCase s')
  | EmptyString => EmptyString
  end.

(** [a.push(x)], as the new contents of the array. *)
Definition push {A} (l : list A) (x : A) : list A := (l ++ [x])%list.

(** The character U+0022 and the line feed, for template literals. *)
Definition quote : string := String (ascii_of_nat 34) EmptyString.
Definition newline : string := String (ascii_of_nat 10) EmptyString.

(** [Math.ceil] on a binary64 number whose value is [m * 2^e], negated
    when [s] holds. *)
Definition ceilFinite (s : bool) (m : positive) (e : Z) : Z :=
  if 0 <=? e then (if s then - (Z.pos m * 2 ^ e) else Z.pos m * 2 ^ e)
  else
    let d := 2 ^ (- e) in
    if s then - (Z.pos m / d)
    else Z.pos m / d + (if Z.pos m mod d =? 0 then 0 else 1).

(** [Math.ceil(x)] as an integer.  NaN and the infinities, which are
    their own ceiling in JavaScript and are no integers, are sent to 0:
    the countdown stays between 0 and 10. *)
Definition Math_ceil (x : float) : Z :=
  match Prim2SF x with
  | S754_finite s m e => ceilFinite s m e
  | _ => 0
  end.

(** An integer-valued number as a binary64 number (exact below 2^53). *)
Definition ofInt (z : Z) : float := PrimFloat.of_uint63 (Uint63.of_Z z).

(** A string is truthy when it is not empty; [null] is [None]. *)
Definition truthy (o : option string) : bool :=
  match o with
  | Some s => negb (String.eqb s "")
  | None => false
  end.

End JS.

(* ================================================================== *)
(** ** types.ts *)

Inductive ExerciseType :=
| Flashcard | GuessMeaning | GuessWord | FillBlank | Matching | Listening.

Definition ExerciseType_eqb (a b : ExerciseType) : bool :=
  match a, b with
  | Flashcard, Flashcard | GuessMeaning, GuessMeaning
  | GuessWord, GuessWord | FillBlank, FillBlank
  | Matching, Matching | Listening, Listening => true
  | _, _ => false
  end.

Record VocabularyItem := {
  id : string;
  word : string;
  pronunciation : string;
  definition : string;
  vietnameseDefinition : string;
  partOfSpeech : string;
  exampleSentence : string;
  exampleSentenceBlank : string;
  synonyms : list string;
  imageKeyword : string
}.

(** An entry of [matchingPairs]; its field [definition] is
    [pairDefinition] here, and the field [id] of an exercise is [exId],
    the names being taken by the vocabulary item. *)
Record MatchingPair := {
  wordId : string;
  pairDefinition : string
}.

Record Exercise := {
  exId : string;
  type : ExerciseType;
  targetWordId : string;
  question : string;
  options : option (list string);
  correctOptionIndex : option Z;
  matchingPairs : option (list MatchingPair)
}.

Record FeedbackData := {
  isCorrect : bool;
  message : string;
  hint : option string
}.

Inductive Level := Beginner | Intermediate | Advanced.

Inductive Topic := DailyLife | Professional.

Record UserState := {
  xp : Z;
  streak : Z;
  currentLevel : Level;
  currentTopic : Topic
}.

(* ================================================================== *)
(** ** App: the exercise generator and the learning session *)

Module App.

Section Oracles.

(** The generator state behind [Math.random], and the outcome of
    [.sort(() => Math.random() - 0.5)] on a list of strings. *)
Variable Rng : Type.
Variable sortRandom : list string -> Rng -> list string * Rng.

(** [generateHint(targetVocab, answer, type)]: the hint, or [None] when
    the request fails. *)
Variable generateHint : VocabularyItem -> string -> ExerciseType -> option string.

(** [vocab.filter(v => v.id !== item.id)] *)
Definition others (vocab : list VocabularyItem) (item : VocabularyItem)
  : list VocabularyItem :=
  filter (fun v => negb (String.eqb (id v) (id item))) vocab.

(** The body of the [forEach] callback of [createExercises]: the array
    after the five pushes for [item], and the generator state. *)
Definition pushItem (vocab : list VocabularyItem)
           (acc : list Exercise * Rng) (item : VocabularyItem)
  : list Exercise * Rng :=
  let exercises := fst acc in
  let g := snd acc in
  let exercises := JS.push exercises
    {| exId := "fc-" ++ id item; type := Flashcard;
       targetWordId := id item; question := word item;
       options := None; correctOptionIndex := None;
       matchingPairs := None |} in
  let distractors :=
    firstn 3 (map vietnameseDefinition (others vocab item)) in
  let s1 := sortRandom (vietnameseDefinition item :: distractors) g in
  let optionsVN := fst s1 in
  let exercises := JS.push exercises
    {| exId := "gm-" ++ id item; type := GuessMeaning;
       targetWordId := id item; question := word item;
       options := Some optionsVN;
       correctOptionIndex :=
         Some (JS.indexOf optionsVN (vietnameseDefinition item));
       matchingPairs := None |} in
  let wordDistractors := firstn 3 (map word (others vocab item)) in
  let s2 := sortRandom (word item :: wordDistractors) (snd s1) in
  let optionsEN := fst s2 in
  let exercises := JS.push exercises
    {| exId := "gw-" ++ id item; type := GuessWord;
       targetWordId := id item; question := vietnameseDefinition item;
       options := Some optionsEN;
       correctOptionIndex := Some (JS.indexOf optionsEN (word item));
       matchingPairs := None |} in
  let exercises := JS.push exercises
    {| exId := "fb-" ++ id item; type := FillBlank;
       targetWordId := id item; question := exampleSentenceBlank item;
       options := None; correctOptionIndex := None;
       matchingPairs := None |} in
  let exercises := JS.push exercises
    {| exId := "ls-" ++ id item; type := Listening;
       targetWordId := id item; question := word item;
       options := Some optionsVN;
       correctOptionIndex :=
         Some (JS.indexOf optionsVN (vietnameseDefinition item));
       matchingPairs := None |} in
  (exercises, snd s2).

(** The grouped matching exercise pushed after the loop. *)
Definition matchAll (vocab : list VocabularyItem) : Exercise :=
  {| exId := "match-all"; type := Matching;
     targetWordId := "all"; question := "Ghép từ với nghĩa";
     options := None; correctOptionIndex := None;
     matchingPairs :=
       Some (map (fun v => {| wordId := id v;
                              pairDefinition := vietnameseDefinition v |})
                 vocab) |}.

Definition createExercises (vocab : list VocabularyItem) (g : Rng)
  : list Exercise * Rng :=
  let r := fold_left (pushItem vocab) vocab ([], g) in
  (JS.push (fst r) (matchAll vocab), snd r).

(** The state cells of the component that the learning mode reads and
    writes. *)
Record State := {
  userState : UserState;
  vocabList : list VocabularyItem;
  exercises : list Exercise;
  currentExerciseIndex : Z;
  feedback : option FeedbackData;
  isProcessingAI : bool
}.

Definition addXp (u : UserState) (n : Z) : UserState :=
  {| xp := xp u + n; streak := streak u;
     currentLevel := currentLevel u; currentTopic := currentTopic u |}.

(** [startSession], once the vocabulary set has arrived. *)
Definition startSession (st : State) (vocab : list VocabularyItem) (g : Rng)
  : State * Rng :=
  let r := createExercises vocab g in
  ({| userState := userState st; vocabList := vocab;
      exercises := fst r; currentExerciseIndex := 0;
      feedback := feedback st; isProcessingAI := isProcessingAI st |},
   snd r).

Definition nextExercise (st : State) : State :=
  {| userState := userState st; vocabList := vocabList st;
     exercises := exercises st;
     currentExerciseIndex :=
       if currentExerciseIndex st <? Z.of_nat (List.length (exercises st)) - 1
       then currentExerciseIndex st + 1
       else -1;
     feedback := None; isProcessingAI := isProcessingAI st |}.

Definition retryExercise (st : State) : State :=
  {| userState := userState st; vocabList := vocabList st;
     exercises := exercises st;
     currentExerciseIndex := currentExerciseIndex st;
     feedback := None; isProcessingAI := isProcessingAI st |}.

(** [vocabList.find(v => v.id === currentEx.targetWordId)] *)
Definition findTarget (vocabList : list VocabularyItem) (currentEx : Exercise)
  : option VocabularyItem :=
  find (fun v => String.eqb (id v) (targetWordId currentEx)) vocabList.

(** The value of [isCorrect] after the validation chain of
    [handleAnswer] (the flashcard kind returns before it). *)
Definition validate (currentEx : Exercise) (targetVocab : option VocabularyItem)
           (answer : string) : bool :=
  match type currentEx with
  | Matching => String.eqb answer "COMPLETE"
  | FillBlank =>
      match targetVocab with
      | Some t => String.eqb (JS.trim (JS.toLowerCase answer))
                             (JS.trim (JS.toLowerCase (word t)))
      | None => false
      end
  | Listening =>
      match targetVocab with
      | Some t => String.eqb answer (vietnameseDefinition t)
      | None => false
      end
  | GuessMeaning =>
      match targetVocab with
      | Some t => String.eqb answer (vietnameseDefinition t)
      | None => false
      end
  | GuessWord =>
      match targetVocab with
      | Some t => String.eqb answer (word t)
      | None => false
      end
  | Flashcard => false
  end.

(** [handleAnswer(answer)].  [None] is the TypeError raised when
    [exercises[currentExerciseIndex]] is [undefined]; the wait for the
    hint is taken as one step. *)
Definition handleAnswer (st : State) (answer : string) : option State :=
  match JS.index (exercises st) (currentExerciseIndex st) with
  | None => None
  | Some currentEx =>
      let targetVocab := findTarget (vocabList st) currentEx in
      if ExerciseType_eqb (type currentEx) Flashcard then
        Some (nextExercise st)
      else if validate currentEx targetVocab answer then
        Some {| userState := addXp (userState st) 10;
                vocabList := vocabList st; exercises := exercises st;
                currentExerciseIndex := currentExerciseIndex st;
                feedback := Some
                  {| isCorrect := true; message := "Chính xác!";
                     hint := Some
                       match targetVocab with
                       | Some t =>
                           JS.quote ++ word t ++ JS.quote ++ ": "
                           ++ vietnameseDefinition t ++ JS.newline
                           ++ "Example: " ++ exampleSentence t
                       | None => "Giỏi lắm!"
                       end |};
                isProcessingAI := isProcessingAI st |}
      else
        let aiHint :=
          match targetVocab with
          | Some t =>
              match generateHint t answer (type currentEx) with
              | Some h => h
              | None => "Hãy kiểm tra lại định nghĩa."
              end
          | None => ""
          end in
        Some {| userState := userState st;
                vocabList := vocabList st; exercises := exercises st;
                currentExerciseIndex := currentExerciseIndex st;
                feedback := Some
                  {| isCorrect := false; message := "Chưa đúng.";
                     hint := Some aiHint |};
                isProcessingAI := false |}
  end.

(** The figure of the summary screen, shown when the index is -1. *)
Definition summaryXp (st : State) : option Z :=
  if currentExerciseIndex st =? -1
  then Some (Z.of_nat (List.length (exercises st)) * 10)
  else None.

Definition feedbackIsCorrect (st : State) : bool :=
  match feedback st with
  | Some f => isCorrect f
  | None => false
  end.

(** A learner who answers every exercise that is scored correctly at
    the first attempt: flashcards are passed with their button, every
    other exercise takes the next answer of [answers], which must be
    accepted, and is then acknowledged.  [None] when an answer is
    refused, when answers are missing or left over, or when the session
    is longer than [fuel] exercises. *)
Fixpoint playFirstTry (fuel : nat) (answers : list string) (st : State)
  : option State :=
  if currentExerciseIndex st =? -1 then
    match answers with
    | [] => Some st
    | _ :: _ => None
    end
  else
    match fuel with
    | O => None
    | S fuel' =>
        match JS.index (exercises st) (currentExerciseIndex st) with
        | None => None
        | Some currentEx =>
            if ExerciseType_eqb (type currentEx) Flashcard then
              playFirstTry fuel' answers (nextExercise st)
            else
              match answers with
              | [] => None
              | a :: answers' =>
                  match handleAnswer st a with
                  | Some st1 =>
                      if feedbackIsCorrect st1
                      then playFirstTry fuel' answers' (nextExercise st1)
                      else None
                  | None => None
                  end
              end
        end
    end.

End Oracles.

Arguments pushItem {Rng} sortRandom vocab acc item.
Arguments createExercises {Rng} sortRandom vocab g.
Arguments startSession {Rng} sortRandom st vocab g.

End App.

(* ================================================================== *)
(** ** ExerciseRenderer: the matching exercise *)

Module ExerciseRenderer.

Inductive Side := left | right.

(** [matchingSelections] and [matchedPairs]. *)
Record State := {
  selLeft : option string;
  selRight : option string;
  matchedPairs : list string
}.

(** The state the effect on [exercise] sets. *)
Definition initial : State :=
  {| selLeft := None; selRight := None; matchedPairs := [] |}.

(** What a call of [handleMatch] leaves behind: the new state, the
    answer it passes to [onAnswer], if any, and whether it arms the
    500 ms timeout. *)
Record Outcome := {
  next : State;
  answered : option string;
  armed : bool
}.

Definition clearSelections (st : State) : State :=
  {| selLeft := None; selRight := None; matchedPairs := matchedPairs st |}.

(** [exercise.matchingPairs.find(p => p.wordId === l && p.definition === r)] *)
Definition findPair (pairs : list MatchingPair) (l r : string)
  : option MatchingPair :=
  find (fun p => String.eqb (wordId p) l && String.eqb (pairDefinition p) r)
       pairs.

Definition handleMatch (pairs : list MatchingPair) (st : State)
           (i : string) (side : Side) : Outcome :=
  if JS.includes (matchedPairs st) i then
    {| next := st; answered := None; armed := false |}
  else
    let newLeft := match side with left => Some i | right => selLeft st end in
    let newRight := match side with left => selRight st | right => Some i end in
    let selected :=
      {| selLeft := newLeft; selRight := newRight;
         matchedPairs := matchedPairs st |} in
    match newLeft, newRight with
    | Some l, Some r =>
        if JS.truthy newLeft && JS.truthy newRight then
          match findPair pairs l r with
          | Some _ =>
              let newMatched := (matchedPairs st ++ [l; r])%list in
              {| next := {| selLeft := None; selRight := None;
                            matchedPairs := newMatched |};
                 answered :=
                   if (Z.of_nat (List.length newMatched)
                       =? Z.of_nat (List.length pairs) * 2)
                   then Some "COMPLETE" else None;
                 armed := false |}
          | None => {| next := selected; answered := None; armed := true |}
          end
        else {| next := selected; answered := None; armed := false |}
    | _, _ => {| next := selected; answered := None; armed := false |}
    end.

(** What can happen to the component while one matching exercise is
    shown: a button of either column is pressed, or a timeout armed by
    a wrong pair fires. *)
Inductive Event :=
| Press (i : string) (side : Side)
| TimeoutFires.

Definition step (pairs : list MatchingPair) (st : State) (ev : Event)
  : Outcome :=
  match ev with
  | Press i side => handleMatch pairs st i side
  | TimeoutFires =>
      {| next := clearSelections st; answered := None; armed := false |}
  end.

Definition run (pairs : list MatchingPair) (st : State) (evs : list Event)
  : State :=
  fold_left (fun s ev => next (step pairs s ev)) evs st.

(** The confirmed pairs: [matchedPairs] grows by a word identifier and
    a definition at a time. *)
Fixpoint confirmed (m : list string) : list (string * string) :=
  match m with
  | l :: r :: m' => (l, r) :: confirmed m'
  | _ => []
  end.

Definition pairOf (p : MatchingPair) : string * string :=
  (wordId p, pairDefinition p).

Definition pair_eqb (a b : string * string) : bool :=
  String.eqb (fst a) (fst b) && String.eqb (snd a) (snd b).

(** Every declared pair is among the confirmed ones. *)
Definition allConfirmed (pairs : list MatchingPair) (st : State) : bool :=
  forallb (fun p => existsb (pair_eqb (pairOf p)) (confirmed (matchedPairs st)))
          pairs.

(** [matchedPairs] after the pairs [cs] were confirmed in this order. *)
Definition flat (cs : list (string * string)) : list string :=
  flat_map (fun c => [fst c; snd c]) cs.

(** What holds of the component all along a matching exercise: the
    matched entries are confirmed pairs, each a declared pair and no
    word identifier twice, and a pending selection is not matched. *)
Record Inv (pairs : list MatchingPair) (st : State) : Prop := {
  inv_flat : matchedPairs st = flat (confirmed (matchedPairs st));
  inv_nodup : NoDup (map fst (confirmed (matchedPairs st)));
  inv_declared :
    forall c, In c (confirmed (matchedPairs st)) -> In c (map pairOf pairs);
  inv_left :
    forall l, selLeft st = Some l -> JS.includes (matchedPairs st) l = false;
  inv_right :
    forall r, selRight st = Some r -> JS.includes (matchedPairs st) r = false
}.

End ExerciseRenderer.

(* ================================================================== *)
(** ** WordRushGame *)

Module WordRushGame.

Inductive GameState := LOADING | PLAYING | GAME_OVER.

Inductive Feedback := HIT | MISS.

Record State := {
  gameState : GameState;
  words : list VocabularyItem;
  currentIndex : Z;
  score : Z;
  lives : Z;
  timeLeft : float;
  maxTime : Z;
  options : list string;
  streak : Z;
  feedback : option Feedback
}.

(** The state before the word list arrives. *)
Definition initial : State :=
  {| gameState := LOADING; words := []; currentIndex := 0; score := 0;
     lives := 3; timeLeft := 10%float; maxTime := 10; options := [];
     streak := 0; feedback := None |}.

(** What a handler schedules with [setTimeout]. *)
Inductive Scheduled :=
| NextRoundAfter (ms : Z)
| GameOverAfter (ms : Z).

Section Oracles.

Variable Rng : Type.
Variable sortItems : list VocabularyItem -> Rng -> list VocabularyItem * Rng.
Variable sortStrings : list string -> Rng -> list string * Rng.

(** [Math.max(3, 10 - Math.floor(index / 3))] *)
Definition newMaxTime (index : Z) : Z := Z.max 3 (10 - index / 3).

(** [prepareRound(index, wordList)].  [None] is the TypeError raised
    when [wordList[index]] is [undefined] (a negative index). *)
Definition prepareRound (index : Z) (wordList : list VocabularyItem)
           (st : State) (g : Rng) : option (State * Rng) :=
  if Z.of_nat (List.length wordList) <=? index then
    Some ({| gameState := GAME_OVER; words := words st;
        currentIndex := currentIndex st; score := score st;
        lives := lives st; timeLeft := timeLeft st; maxTime := maxTime st;
        options := options st; streak := streak st;
        feedback := feedback st |}, g)
  else
    match JS.index wordList index with
    | None => None
    | Some currentWord =>
        let otherWords :=
          filter (fun w => negb (String.eqb (id w) (id currentWord)))
                 wordList in
        let s1 := sortItems otherWords g in
        let shuffledOthers := firstn 3 (fst s1) in
        let s2 := sortStrings
                    (vietnameseDefinition currentWord
                     :: map vietnameseDefinition shuffledOthers) (snd s1) in
        let roundOptions := fst s2 in
        Some
         ({| gameState := gameState st; words := words st;
            currentIndex := currentIndex st; score := score st;
            lives := lives st;
            timeLeft := JS.ofInt (newMaxTime index);
            maxTime := newMaxTime index;
            options := roundOptions; streak := streak st;
            feedback := feedback st |}, snd s2)
    end.

(** The body of the [setTimeout] callbacks that move to the next word. *)
Definition nextRound (st : State) (g : Rng) : option (State * Rng) :=
  let nextIdx := currentIndex st + 1 in
  prepareRound nextIdx (words st)
    {| gameState := gameState st; words := words st;
       currentIndex := nextIdx; score := score st; lives := lives st;
       timeLeft := timeLeft st; maxTime := maxTime st;
       options := options st; streak := streak st; feedback := None |} g.

End Oracles.

Arguments prepareRound {Rng} sortItems sortStrings index wordList st g.
Arguments nextRound {Rng} sortItems sortStrings st g.

(** [100 + Math.ceil(timeLeft * 10) + (streak * 5)] *)
Definition points (timeLeft : float) (streak : Z) : Z :=
  100 + JS.Math_ceil (timeLeft * 10)%float + streak * 5.

(** What [handleAnswer] does at once: the new state, whether the
    confetti is fired, and what it schedules. *)
Record Outcome := {
  next : State;
  confetti : bool;
  scheduled : Scheduled
}.

(** [handleAnswer(selectedDefinition)]; [null] is [None].  The result
    [None] is the TypeError raised when [words[currentIndex]] is
    [undefined]. *)
Definition handleAnswer (st : State) (selectedDefinition : option string)
  : option Outcome :=
  match JS.index (words st) (currentIndex st) with
  | None => None
  | Some currentWord =>
      let isCorrect :=
        match selectedDefinition with
        | Some s => String.eqb s (vietnameseDefinition currentWord)
        | None => false
        end in
      if isCorrect then
        Some {| next :=
                  {| gameState := gameState st; words := words st;
                     currentIndex := currentIndex st;
                     score := score st + points (timeLeft st) (streak st);
                     lives := lives st; timeLeft := timeLeft st;
                     maxTime := maxTime st; options := options st;
                     streak := streak st + 1; feedback := Some HIT |};
                confetti := 2 <? streak st;
                scheduled := NextRoundAfter 400 |}
      else
        Some {| next :=
                  {| gameState := gameState st; words := words st;
                     currentIndex := currentIndex st; score := score st;
                     lives := lives st - 1; timeLeft := timeLeft st;
                     maxTime := maxTime st; options := options st;
                     streak := 0; feedback := Some MISS |};
                confetti := false;
                scheduled :=
                  if lives st <=? 1 then GameOverAfter 1000
                  else NextRoundAfter 1000 |}
  end.

End WordRushGame.

(* ================================================================== *)
(** ** Vocabulary of the properties *)

Module Gen.

(** The five exercises pushed for one item from generator state [g],
    and the generator state after them. *)
Definition itemExercises {Rng} (sortRandom : list string -> Rng -> list string * Rng)
           (vocab : list VocabularyItem) (item : VocabularyItem) (g : Rng)
  : list Exercise :=
  fst (App.pushItem sortRandom vocab ([], g) item).

Definition afterItem {Rng} (sortRandom : list string -> Rng -> list string * Rng)
           (vocab : list VocabularyItem) (item : VocabularyItem) (g : Rng)
  : Rng :=
  snd (App.pushItem sortRandom vocab ([], g) item).

(** The exercises the loop pushes for [items], block after block. *)
Fixpoint blocks {Rng} (sortRandom : list string -> Rng -> list string * Rng)
         (vocab items : list VocabularyItem) (g : Rng) : list Exercise :=
  match items with
  | [] => []
  | item :: rest =>
      (itemExercises sortRandom vocab item g
       ++ blocks sortRandom vocab rest (afterItem sortRandom vocab item g))%list
  end.

Definition kindAndTarget (e : Exercise) : ExerciseType * string :=
  (type e, targetWordId e).

(** Kind and target of the five exercises of an item, in order. *)
Definition fiveKinds (v : VocabularyItem) : list (ExerciseType * string) :=
  [ (Flashcard, id v); (GuessMeaning, id v); (GuessWord, id v);
    (FillBlank, id v); (Listening, id v) ].

Definition countKind (k : ExerciseType) (exs : list Exercise) : nat :=
  List.length (filter (fun e => ExerciseType_eqb (type e) k) exs).

(** The exercises that are scored: all but the flashcards. *)
Definition scored (exs : list Exercise) : list Exercise :=
  filter (fun e => negb (ExerciseType_eqb (type e) Flashcard)) exs.

(** The pairs of the matching exercise of a vocabulary set. *)
Definition pairsOf (vocab : list VocabularyItem) : list MatchingPair :=
  map (fun v => {| wordId := id v; pairDefinition := vietnameseDefinition v |})
      vocab.

(** The correct answer of an options-bearing exercise of [item]. *)
Definition answerOf (item : VocabularyItem) (k : ExerciseType) : string :=
  match k with
  | GuessWord => word item
  | _ => vietnameseDefinition item
  end.

(** The distractors of an options-bearing exercise of [item]. *)
Definition distractorsOf (vocab : list VocabularyItem) (item : VocabularyItem)
           (k : ExerciseType) : list string :=
  match k with
  | GuessWord => firstn 3 (map word (App.others vocab item))
  | _ => firstn 3 (map vietnameseDefinition (App.others vocab item))
  end.

Definition hasOptions (k : ExerciseType) : bool :=
  match k with
  | GuessMeaning | GuessWord | Listening => true
  | _ => false
  end.

(** The reading of "contains the correct answer exactly once, and
    [correctOptionIndex] is its position" for the exercises generated
    from [vocab]: for every options-bearing exercise and the item it
    targets. *)
Definition answerExactlyOnce (exs : list Exercise)
           (vocab : list VocabularyItem) : Prop :=
  forall e item,
    In e exs -> hasOptions (type e) = true ->
    In item vocab -> id item = targetWordId e ->
    exists opts,
      options e = Some opts
      /\ count_occ string_dec opts (answerOf item (type e)) = 1%nat
      /\ correctOptionIndex e
         = Some (JS.indexOf opts (answerOf item (type e))).

(** The reading of "a missing target item makes every answer a miss,
    and evaluation never throws" at a state of the session. *)
Definition missAlways
           (generateHint : VocabularyItem -> string -> ExerciseType -> option string)
           (st : App.State) : Prop :=
  forall ex answer,
    JS.index (App.exercises st) (App.currentExerciseIndex st) = Some ex ->
    type ex <> Flashcard ->
    App.findTarget (App.vocabList st) ex = None ->
    exists st',
      App.handleAnswer generateHint st answer = Some st'
      /\ App.feedbackIsCorrect st' = false.

(** [sort] returns the elements it was given, in some order. *)
Definition permutes {Rng} (sortRandom : list string -> Rng -> list string * Rng)
  : Prop :=
  forall l g, Permutation l (fst (sortRandom l g)).

(** The exercises still to come, the current one first. *)
Definition remaining (st : App.State) : list Exercise :=
  if App.currentExerciseIndex st <? 0 then []
  else skipn (Z.to_nat (App.currentExerciseIndex st)) (App.exercises st).

(** An answer that [validate] accepts for an exercise whose target is
    found (or that needs none). *)
Definition rightAnswer (vocabList : list VocabularyItem) (e : Exercise)
  : string :=
  match type e, App.findTarget vocabList e with
  | Matching, _ => "COMPLETE"
  | GuessWord, Some t => word t
  | FillBlank, Some t => word t
  | _, Some t => vietnameseDefinition t
  | _, None => ""
  end.

(** White space only; white space first; white space last. *)
Fixpoint allWhite (s : string) : bool :=
  match s with
  | String c s' => JS.isWhiteSpace c && allWhite s'
  | EmptyString => true
  end.



(** The index is that of an exercise, or -1 after the last one. *)
Definition inSession (st : App.State) : Prop :=
  App.currentExerciseIndex st = -1
  \/ 0 <= App.currentExerciseIndex st
             < Z.of_nat (List.length (App.exercises st)).

(** Every scored exercise has its target in the vocabulary list, the
    matching exercise apart, which needs none. *)
Definition targetsFound (vocabList : list VocabularyItem)
           (exs : list Exercise) : Prop :=
  forall ex, In ex exs -> type ex <> Flashcard -> type ex <> Matching ->
             App.findTarget vocabList ex <> None.

End Gen.

(* ================================================================== *)
(** ** Sample inputs *)

Module Sample.

Definition item (i w vn : string) : VocabularyItem :=
  {| id := i; word := w; pronunciation := ""; definition := "";
     vietnameseDefinition := vn; partOfSpeech := "noun";
     exampleSentence := "The " ++ w ++ " is here.";
     exampleSentenceBlank := "The _______ is here.";
     synonyms := []; imageKeyword := w |}.

Definition animals : list VocabularyItem :=
  [ item "1" "cat" "con meo"; item "2" "dog" "con cho";
    item "3" "bird" "con chim"; item "4" "fish" "con ca";
    item "5" "horse" "con ngua" ].

(** Five distinct items with distinct identifiers, two of which have the
    same Vietnamese definition. *)
Definition sizes : list VocabularyItem :=
  [ item "1" "big" "to"; item "2" "large" "to";
    item "3" "small" "nho"; item "4" "tall" "cao";
    item "5" "short" "thap" ].

(** A run of [sort] that leaves the array as it is, and one that
    reverses it. *)
Definition keepOrder {A} (l : list A) (g : unit) : list A * unit := (l, g).
Definition reverseOrder {A} (l : list A) (g : nat) : list A * nat :=
  (rev l, S g).

Definition noHint (t : VocabularyItem) (a : string) (k : ExerciseType)
  : option string := None.

Definition learner : UserState :=
  {| xp := 0; streak := 1; currentLevel := Beginner;
     currentTopic := DailyLife |}.

Definition dashboard : App.State :=
  {| App.userState := learner; App.vocabList := []; App.exercises := [];
     App.currentExerciseIndex := 0; App.feedback := None;
     App.isProcessingAI := false |}.

(** The lesson on [animals], at its first exercise and at its last. *)
Definition lesson : App.State :=
  fst (App.startSession keepOrder dashboard animals tt).

Definition jump (st : App.State) (i : Z) : App.State :=
  {| App.userState := App.userState st;
     App.vocabList := App.vocabList st;
     App.exercises := App.exercises st;
     App.currentExerciseIndex := i;
     App.feedback := None; App.isProcessingAI := false |}.

Definition atMatching : App.State := jump lesson 25.

(** The lesson with a vocabulary list that no longer holds the items. *)
Definition orphaned : App.State :=
  {| App.userState := learner; App.vocabList := [];
     App.exercises := App.exercises lesson;
     App.currentExerciseIndex := 3;
     App.feedback := None; App.isProcessingAI := false |}.

(** The answers of a learner who gets the whole lesson right. *)
Definition rightAnswers : list string :=
  [ "con meo"; "cat"; " Cat "; "con meo";
    "con cho"; "dog"; "DOG"; "con cho";
    "con chim"; "bird"; "bird"; "con chim";
    "con ca"; "fish"; "fish "; "con ca";
    "con ngua"; "horse"; "Horse"; "con ngua";
    "COMPLETE" ].

(** The guess-meaning exercise of the first item of [animals] when
    [sort] reverses. *)
Definition guessCat : Exercise :=
  {| exId := "gm-1"; type := GuessMeaning; targetWordId := "1";
     question := "cat";
     options := Some ["con ca"; "con chim"; "con cho"; "con meo"];
     correctOptionIndex := Some 3; matchingPairs := None |}.

(** Two declared pairs, and the presses that match both. *)
Definition twoPairs : list MatchingPair :=
  [ {| wordId := "1"; pairDefinition := "con meo" |};
    {| wordId := "2"; pairDefinition := "con cho" |} ].

Definition firstMatched : list ExerciseRenderer.Event :=
  [ ExerciseRenderer.Press "1" ExerciseRenderer.left;
    ExerciseRenderer.Press "con cho" ExerciseRenderer.right;
    ExerciseRenderer.TimeoutFires;
    ExerciseRenderer.Press "con meo" ExerciseRenderer.right;
    ExerciseRenderer.Press "1" ExerciseRenderer.left;
    ExerciseRenderer.Press "con cho" ExerciseRenderer.right ].

Definition arcade : WordRushGame.State :=
  {| WordRushGame.gameState := WordRushGame.PLAYING;
     WordRushGame.words := animals; WordRushGame.currentIndex := 1;
     WordRushGame.score := 250; WordRushGame.lives := 3;
     WordRushGame.timeLeft := 7.25%float; WordRushGame.maxTime := 10;
     WordRushGame.options := ["con cho"; "con meo"; "con ca"; "con chim"];
     WordRushGame.streak := 2; WordRushGame.feedback := None |}.

End Sample.

(* ================================================================== *)
(** ** types.ts: the leaderboard entry, and the values of the enums *)

Record LeaderboardEntry := {
  name : string;
  score : Z;
  level : string;
  date : string
}.

Definition levelLabel (l : Level) : string :=
  match l with
  | Beginner => "Beginner (A1-A2)"
  | Intermediate => "Intermediate (B1-B2)"
  | Advanced => "Advanced (C1-C2)"
  end.

Definition topicLabel (t : Topic) : string :=
  match t with
  | DailyLife => "Daily Communication"
  | Professional => "Work & Professional"
  end.

(* ================================================================== *)
(** ** geminiService: the identifiers given to the generated items *)

Module GeminiService.

(** A non-negative integer in a template literal: its decimal digits. *)
Definition decimal (n : N) : string :=
  DecimalString.NilEmpty.string_of_uint (N.to_uint n).

(** [{...item, id: i}] *)
Definition withId (item : VocabularyItem) (i : string) : VocabularyItem :=
  {| id := i; word := word item; pronunciation := pronunciation item;
     definition := definition item;
     vietnameseDefinition := vietnameseDefinition item;
     partOfSpeech := partOfSpeech item;
     exampleSentence := exampleSentence item;
     exampleSentenceBlank := exampleSentenceBlank item;
     synonyms := synonyms item; imageKeyword := imageKeyword item |}.

(** [rawData.map((item, index) => ({...item, id: `<prefix>${Date.now()}-${index}`}))]
    from position [index] on; [now k] is what [Date.now()] returns in
    the call for position [k]. *)
Fixpoint stamp (prefix : string) (now : nat -> N) (index : nat)
         (rawData : list VocabularyItem) : list VocabularyItem :=
  match rawData with
  | [] => []
  | item :: rest =>
      withId item (prefix ++ decimal (now index) ++ "-"
                   ++ decimal (N.of_nat index))
      :: stamp prefix now (S index) rest
  end.

(** What [generateVocabularySet] and [generateGameWords] return for the
    parsed reply [rawData] of the model. *)
Definition generateVocabularySet (now : nat -> N)
           (rawData : list VocabularyItem) : list VocabularyItem :=
  stamp "vocab-" now 0 rawData.

Definition generateGameWords (now : nat -> N)
           (rawData : list VocabularyItem) : list VocabularyItem :=
  stamp "game-vocab-" now 0 rawData.

End GeminiService.

(* ================================================================== *)
(** ** ExerciseRenderer: the options and the fill-blank form *)

Module ExerciseForm.

(** [selectedOption] and [fillBlankInput]. *)
Record State := {
  selectedOption : option string;
  fillBlankInput : string
}.

Definition initial : State :=
  {| selectedOption := None; fillBlankInput := "" |}.

(** The button of the option at position [idx] of [exercise.options],
    when there is one and the form is not submitting. *)
Definition clickOption (exercise : Exercise) (isSubmitting : bool)
           (idx : nat) (st : State) : State :=
  match options exercise with
  | Some opts =>
      match nth_error opts idx with
      | Some option =>
          if isSubmitting then st
          else {| selectedOption := Some option;
                  fillBlankInput := fillBlankInput st |}
      | None => st
      end
  | None => st
  end.

(** [onChange] of the input. *)
Definition typeInput (value : string) (st : State) : State :=
  {| selectedOption := selectedOption st; fillBlankInput := value |}.

(** [handleSubmit]: the answer passed to [onAnswer], if any. *)
Definition handleSubmit (exercise : Exercise) (st : State) : option string :=
  if ExerciseType_eqb (type exercise) FillBlank then Some (fillBlankInput st)
  else if JS.truthy (selectedOption st) then selectedOption st
  else None.

(** The "Check Answer" button, which is disabled while submitting and
    while nothing is selected or typed. *)
Definition checkAnswer (exercise : Exercise) (isSubmitting : bool)
           (st : State) : option string :=
  let disabled :=
    if ExerciseType_eqb (type exercise) FillBlank
    then negb (JS.truthy (Some (JS.trim (fillBlankInput st)))) || isSubmitting
    else negb (JS.truthy (selectedOption st)) || isSubmitting in
  if disabled then None else handleSubmit exercise st.

End ExerciseForm.

(* ================================================================== *)
(** ** Leaderboard *)

Module Leaderboard.

(** One insertion of the stable sort by [(a, b) => b.score - a.score]:
    [e], which comes before the entries of [l] in the array, goes
    before the first entry whose score is not above its own. *)
Fixpoint insert (e : LeaderboardEntry) (l : list LeaderboardEntry)
  : list LeaderboardEntry :=
  match l with
  | [] => [e]
  | x :: l' => if score e <? score x then x :: insert e l' else e :: l
  end.

(** [[...entries].sort((a, b) => b.score - a.score)]; the comparator is
    consistent on integer scores, so the result is the one stable
    arrangement by descending score. *)
Definition sort (entries : list LeaderboardEntry) : list LeaderboardEntry :=
  fold_right insert [] entries.

(** [sortedEntries] *)
Definition sortedEntries (entries : list LeaderboardEntry)
  : list LeaderboardEntry :=
  firstn 10 (sort entries).

(** [a] may stand before [b]: its score is not the lower one. *)
Definition byScore (a b : LeaderboardEntry) : Prop := score b <= score a.

(** The entries with score [s], in the order of the list. *)
Definition withScore (s : Z) (l : list LeaderboardEntry)
  : list LeaderboardEntry :=
  filter (fun e => score e =? s) l.

End Leaderboard.

(* ================================================================== *)
(** ** App: stored preferences, the leaderboard and the end of a game *)

Module Shell.

Set Warnings "-register-all".

(** A value as [JSON.parse] returns it; numbers are the integer ones. *)
Inductive Value :=
| Undefined
| Null
| Bool (b : bool)
| Number (z : Z)
| Str (s : string)
| Arr (items : list Value)
| Obj (props : list (string * Value)).

(** [v.key] for a key that no prototype defines: [None] is the
    TypeError on [null] and [undefined]. *)
Definition get (v : Value) (key : string) : option Value :=
  match v with
  | Undefined | Null => None
  | Obj props =>
      match find (fun p => String.eqb (fst p) key) props with
      | Some p => Some (snd p)
      | None => Some Undefined
      end
  | _ => Some Undefined
  end.

(** [v ?? d] *)
Definition nullish (v d : Value) : Value :=
  match v with
  | Undefined | Null => d
  | _ => v
  end.

(** The member of the enum that [v] is, when
    [Object.values(Level).includes(v)] holds. *)
Definition levelOf (v : Value) : option Level :=
  match v with
  | Str s =>
      if String.eqb s (levelLabel Beginner) then Some Beginner
      else if String.eqb s (levelLabel Intermediate) then Some Intermediate
      else if String.eqb s (levelLabel Advanced) then Some Advanced
      else None
  | _ => None
  end.

Definition topicOf (v : Value) : option Topic :=
  match v with
  | Str s =>
      if String.eqb s (topicLabel DailyLife) then Some DailyLife
      else if String.eqb s (topicLabel Professional) then Some Professional
      else None
  | _ => None
  end.

(** The user state as the initializer builds it: the points and the
    streak are whatever was stored. *)
Record Loaded := {
  loadedXp : Value;
  loadedStreak : Value;
  loadedLevel : Level;
  loadedTopic : Topic
}.

Definition defaults : Loaded :=
  {| loadedXp := Number 0; loadedStreak := Number 1;
     loadedLevel := Beginner; loadedTopic := DailyLife |}.

(** The initializer of [userState]: [saved] is
    [localStorage.getItem('vocab_user_prefs')], [parse] is [JSON.parse],
    which throws ([None]) on a malformed text. *)
Definition initialUserState (parse : string -> option Value)
           (saved : option string) : Loaded :=
  if JS.truthy saved then
    match saved with
    | Some text =>
        match parse text with
        | Some parsed =>
            match get parsed "currentLevel", get parsed "currentTopic",
                  get parsed "xp", get parsed "streak" with
            | Some l, Some t, Some x, Some s =>
                {| loadedXp := nullish x (Number 0);
                   loadedStreak := nullish s (Number 1);
                   loadedLevel :=
                     match levelOf l with
                     | Some l' => l'
                     | None => Beginner
                     end;
                   loadedTopic :=
                     match topicOf t with
                     | Some t' => t'
                     | None => DailyLife
                     end |}
            | _, _, _, _ => defaults
            end
        | None => defaults
        end
    | None => defaults
    end
  else defaults.

(** The object that the persisting effect stores for a user state. *)
Definition stored (u : UserState) : Value :=
  Obj [ ("xp", Number (xp u)); ("streak", Number (streak u));
        ("currentLevel", Str (levelLabel (currentLevel u)));
        ("currentTopic", Str (topicLabel (currentTopic u))) ].

Definition loadedOf (u : UserState) : Loaded :=
  {| loadedXp := Number (xp u); loadedStreak := Number (streak u);
     loadedLevel := currentLevel u; loadedTopic := currentTopic u |}.

Inductive AppMode := LEARN | GAME | DASHBOARD.

(** The state cells of the component that the end of a game writes,
    and the leaderboard record of the local storage. *)
Record State := {
  userState : UserState;
  appMode : AppMode;
  showLeaderboard : bool;
  leaderboardData : list LeaderboardEntry;
  storedLeaderboard : option (list LeaderboardEntry)
}.

(** [saveScore(score, name)]; [now] is [new Date().toISOString()]. *)
Definition saveScore (now : string) (st : State) (score : Z) (name : string)
  : State :=
  let newEntry :=
    {| name := name; score := score;
       level := levelLabel (currentLevel (userState st)); date := now |} in
  let updated := (leaderboardData st ++ [newEntry])%list in
  {| userState := userState st; appMode := appMode st;
     showLeaderboard := showLeaderboard st;
     leaderboardData := updated; storedLeaderboard := Some updated |}.

(** [handleGameExit(finalScore, playerName)] *)
Definition handleGameExit (now : string) (st : State) (finalScore : Z)
           (playerName : string) : State :=
  let st1 :=
    if 0 <? finalScore then
      let s := saveScore now st finalScore playerName in
      {| userState := App.addXp (userState s) (finalScore / 10);
         appMode := appMode s; showLeaderboard := showLeaderboard s;
         leaderboardData := leaderboardData s;
         storedLeaderboard := storedLeaderboard s |}
    else st in
  {| userState := userState st1; appMode := DASHBOARD;
     showLeaderboard := true;
     leaderboardData := leaderboardData st1;
     storedLeaderboard := storedLeaderboard st1 |}.

End Shell.

(* ================================================================== *)
(** ** WordRushGame: the countdown and the course of a game *)

Module WordRushRun.

(** The updater of the interval callback, every 100 ms: the new
    [timeLeft], and whether [handleTimeRunOut] is called. *)
Definition tick (prev : float) : float * bool :=
  if (prev <=? 0.1)%float then (0%float, true)
  else ((prev - 0.1)%float, false).

(** The number of ticks from [t] up to the one that runs out, when at
    most [fuel]. *)
Fixpoint ticksToRunOut (fuel : nat) (t : float) : option nat :=
  match fuel with
  | O => None
  | S fuel' =>
      if snd (tick t) then Some 1%nat
      else option_map S (ticksToRunOut fuel' (fst (tick t)))
  end.

(** The rest of the module follows a game event by event.  The state
    updates that one handler or callback makes take effect together,
    in one render, and the function given to a setter runs once. *)

(** [setTimeLeft] and [setGameState], called with a value. *)
Definition setTimeLeft (t : float) (st : WordRushGame.State)
  : WordRushGame.State :=
  {| WordRushGame.gameState := WordRushGame.gameState st;
     WordRushGame.words := WordRushGame.words st;
     WordRushGame.currentIndex := WordRushGame.currentIndex st;
     WordRushGame.score := WordRushGame.score st;
     WordRushGame.lives := WordRushGame.lives st;
     WordRushGame.timeLeft := t;
     WordRushGame.maxTime := WordRushGame.maxTime st;
     WordRushGame.options := WordRushGame.options st;
     WordRushGame.streak := WordRushGame.streak st;
     WordRushGame.feedback := WordRushGame.feedback st |}.

Definition setGameState (s : WordRushGame.GameState)
           (st : WordRushGame.State) : WordRushGame.State :=
  {| WordRushGame.gameState := s;
     WordRushGame.words := WordRushGame.words st;
     WordRushGame.currentIndex := WordRushGame.currentIndex st;
     WordRushGame.score := WordRushGame.score st;
     WordRushGame.lives := WordRushGame.lives st;
     WordRushGame.timeLeft := WordRushGame.timeLeft st;
     WordRushGame.maxTime := WordRushGame.maxTime st;
     WordRushGame.options := WordRushGame.options st;
     WordRushGame.streak := WordRushGame.streak st;
     WordRushGame.feedback := WordRushGame.feedback st |}.

(** [handleAnswer] as the render [cl] defined it, called when the
    state is [st].  What the handler reads as a variable ([words],
    [currentIndex], [timeLeft], [streak], [lives]) is what it was in
    [cl]; the updates given as functions ([prev => ...]) act on [st].
    An option button calls the handler of the render on screen, where
    [cl] is [st]; the interval calls, through [handleTimeRunOut], the
    handler of the render in which the timer effect last ran. *)
Definition handleAnswerOf (cl st : WordRushGame.State)
           (selectedDefinition : option string)
  : option WordRushGame.Outcome :=
  match JS.index (WordRushGame.words cl) (WordRushGame.currentIndex cl) with
  | None => None
  | Some currentWord =>
      let isCorrect :=
        match selectedDefinition with
        | Some s => String.eqb s (vietnameseDefinition currentWord)
        | None => false
        end in
      if isCorrect then
        Some {| WordRushGame.next :=
                  {| WordRushGame.gameState := WordRushGame.gameState st;
                     WordRushGame.words := WordRushGame.words st;
                     WordRushGame.currentIndex := WordRushGame.currentIndex st;
                     WordRushGame.score
                     := WordRushGame.score st
                        + WordRushGame.points (WordRushGame.timeLeft cl)
                                              (WordRushGame.streak cl);
                     WordRushGame.lives := WordRushGame.lives st;
                     WordRushGame.timeLeft := WordRushGame.timeLeft st;
                     WordRushGame.maxTime := WordRushGame.maxTime st;
                     WordRushGame.options := WordRushGame.options st;
                     WordRushGame.streak := WordRushGame.streak st + 1;
                     WordRushGame.feedback := Some WordRushGame.HIT |};
                WordRushGame.confetti := 2 <? WordRushGame.streak cl;
                WordRushGame.scheduled := WordRushGame.NextRoundAfter 400 |}
      else
        Some {| WordRushGame.next :=
                  {| WordRushGame.gameState := WordRushGame.gameState st;
                     WordRushGame.words := WordRushGame.words st;
                     WordRushGame.currentIndex := WordRushGame.currentIndex st;
                     WordRushGame.score := WordRushGame.score st;
                     WordRushGame.lives := WordRushGame.lives st - 1;
                     WordRushGame.timeLeft := WordRushGame.timeLeft st;
                     WordRushGame.maxTime := WordRushGame.maxTime st;
                     WordRushGame.options := WordRushGame.options st;
                     WordRushGame.streak := 0;
                     WordRushGame.feedback := Some WordRushGame.MISS |};
                WordRushGame.confetti := false;
                WordRushGame.scheduled :=
                  if WordRushGame.lives cl <=? 1
                  then WordRushGame.GameOverAfter 1000
                  else WordRushGame.NextRoundAfter 1000 |}
  end.

(** A callback registered with [setTimeout], with what it closes
    over: [nextIdx], that is [currentIndex + 1], and [words]. *)
Inductive Callback :=
| NextRound (nextIdx : Z) (words : list VocabularyItem)
| GameOver.

(** The callback that the handler of the render [cl] registers. *)
Definition callbackOf (cl : WordRushGame.State) (o : WordRushGame.Outcome)
  : Callback :=
  match WordRushGame.scheduled o with
  | WordRushGame.NextRoundAfter _ =>
      NextRound (WordRushGame.currentIndex cl + 1) (WordRushGame.words cl)
  | WordRushGame.GameOverAfter _ => GameOver
  end.

(** [stopTimer()] is called where the end of the game is scheduled,
    and nowhere else in the handler. *)
Definition stopsTimer (o : WordRushGame.Outcome) : bool :=
  match WordRushGame.scheduled o with
  | WordRushGame.GameOverAfter _ => true
  | WordRushGame.NextRoundAfter _ => false
  end.

(** A game in progress: the state on screen; the render that the
    running interval closes over, if an interval runs; the callbacks
    registered with [setTimeout] that have not fired.  The last two
    fields are history variables, no variables of the program: the
    number of pressed options that were wrong, and the number of ticks
    at which the countdown was run out. *)
Record Run := {
  now : WordRushGame.State;
  timer : option WordRushGame.State;
  pending : list Callback;
  wrongPresses : nat;
  timeOuts : nat
}.

Definition gameState_eqb (a b : WordRushGame.GameState) : bool :=
  match a, b with
  | WordRushGame.LOADING, WordRushGame.LOADING
  | WordRushGame.PLAYING, WordRushGame.PLAYING
  | WordRushGame.GAME_OVER, WordRushGame.GAME_OVER => true
  | _, _ => false
  end.

(** The timer effect, with the dependencies [gameState] and
    [currentIndex]: when one of them has changed, the interval is
    cleared and, while the game is played, a new one is set, which
    closes over the new render. *)
Definition effect (old new : WordRushGame.State)
           (t : option WordRushGame.State) : option WordRushGame.State :=
  if gameState_eqb (WordRushGame.gameState old) (WordRushGame.gameState new)
     && (WordRushGame.currentIndex old =? WordRushGame.currentIndex new)
  then t
  else
    match WordRushGame.gameState new with
    | WordRushGame.PLAYING => Some new
    | _ => None
    end.

(** The option buttons are on screen while the game is played, and
    disabled while a feedback is shown. *)
Definition enabled (st : WordRushGame.State) : bool :=
  match WordRushGame.gameState st, WordRushGame.feedback st with
  | WordRushGame.PLAYING, None => true
  | _, _ => false
  end.

(** What happens to a game: a tick of the interval, every 100 ms while
    one runs; the press of an option button that shows [selected] (the
    model takes any string, so every press that the screen allows is
    covered); the firing of the [k]-th registered callback (in any
    order, so every order of firing that the delays allow is
    covered). *)
Inductive Event :=
| Tick
| Press (selected : string)
| Fire (k : nat).

(** Whether the answer was a miss. *)
Definition missed (o : WordRushGame.Outcome) : bool :=
  match WordRushGame.feedback (WordRushGame.next o) with
  | Some WordRushGame.MISS => true
  | _ => false
  end.

(** The game after the handler of the render [cl] has run with the
    outcome [o]. *)
Definition answered (cl : WordRushGame.State) (o : WordRushGame.Outcome)
           (r : Run) (wrongPress timeOut : bool) : Run :=
  {| now := WordRushGame.next o;
     timer := if stopsTimer o then None else timer r;
     pending := (pending r ++ [callbackOf cl o])%list;
     wrongPresses := (wrongPresses r + if wrongPress then 1 else 0)%nat;
     timeOuts := (timeOuts r + if timeOut then 1 else 0)%nat |}.

Section Oracles.

Variable Rng : Type.
Variable sortItems : list VocabularyItem -> Rng -> list VocabularyItem * Rng.
Variable sortStrings : list string -> Rng -> list string * Rng.

(** [loadWords], once the word list has arrived. *)
Definition loadWords (st : WordRushGame.State) (data : list VocabularyItem)
           (g : Rng) : option (WordRushGame.State * Rng) :=
  WordRushGame.prepareRound sortItems sortStrings 0 data
    {| WordRushGame.gameState := WordRushGame.PLAYING;
       WordRushGame.words := data;
       WordRushGame.currentIndex := WordRushGame.currentIndex st;
       WordRushGame.score := WordRushGame.score st;
       WordRushGame.lives := WordRushGame.lives st;
       WordRushGame.timeLeft := WordRushGame.timeLeft st;
       WordRushGame.maxTime := WordRushGame.maxTime st;
       WordRushGame.options := WordRushGame.options st;
       WordRushGame.streak := WordRushGame.streak st;
       WordRushGame.feedback := WordRushGame.feedback st |} g.

(** A callback, when it fires in the state [st]. *)
Definition fire (c : Callback) (st : WordRushGame.State) (g : Rng)
  : option (WordRushGame.State * Rng) :=
  match c with
  | NextRound nextIdx wordList =>
      WordRushGame.prepareRound sortItems sortStrings nextIdx wordList
        {| WordRushGame.gameState := WordRushGame.gameState st;
           WordRushGame.words := WordRushGame.words st;
           WordRushGame.currentIndex := nextIdx;
           WordRushGame.score := WordRushGame.score st;
           WordRushGame.lives := WordRushGame.lives st;
           WordRushGame.timeLeft := WordRushGame.timeLeft st;
           WordRushGame.maxTime := WordRushGame.maxTime st;
           WordRushGame.options := WordRushGame.options st;
           WordRushGame.streak := WordRushGame.streak st;
           WordRushGame.feedback := None |} g
  | GameOver => Some (setGameState WordRushGame.GAME_OVER st, g)
  end.

(** The game once the word list has arrived: the first round is
    prepared and the timer effect has run. *)
Definition start (data : list VocabularyItem) (g : Rng)
  : option (Run * Rng) :=
  match loadWords WordRushGame.initial data g with
  | Some (st, g') =>
      Some ({| now := st;
               timer := effect WordRushGame.initial st None;
               pending := [];
               wrongPresses := 0;
               timeOuts := 0 |}, g')
  | None => None
  end.

(** One event.  [None] is a TypeError. *)
Definition step (r : Run) (e : Event) (g : Rng) : option (Run * Rng) :=
  match e with
  | Tick =>
      match timer r with
      | None => Some (r, g)
      | Some cl =>
          let t := tick (WordRushGame.timeLeft (now r)) in
          let st := setTimeLeft (fst t) (now r) in
          if snd t then
            match handleAnswerOf cl st None with
            | Some o => Some (answered cl o r false true, g)
            | None => None
            end
          else
            Some ({| now := st; timer := timer r; pending := pending r;
                     wrongPresses := wrongPresses r;
                     timeOuts := timeOuts r |}, g)
      end
  | Press selected =>
      if enabled (now r) then
        match WordRushGame.handleAnswer (now r) (Some selected) with
        | Some o => Some (answered (now r) o r (missed o) false, g)
        | None => None
        end
      else Some (r, g)
  | Fire k =>
      match nth_error (pending r) k with
      | None => Some (r, g)
      | Some c =>
          match fire c (now r) g with
          | Some (st, g') =>
              Some ({| now := st;
                       timer := effect (now r) st (timer r);
                       pending := firstn k (pending r)
                                  ++ skipn (S k) (pending r);
                       wrongPresses := wrongPresses r;
                       timeOuts := timeOuts r |}, g')
          | None => None
          end
      end
  end.

(** The events of a game, one after the other. *)
Fixpoint run (events : list Event) (r : Run) (g : Rng)
  : option (Run * Rng) :=
  match events with
  | [] => Some (r, g)
  | e :: rest =>
      match step r e g with
      | Some (r', g') => run rest r' g'
      | None => None
      end
  end.

End Oracles.

Arguments loadWords {Rng} sortItems sortStrings st data g.
Arguments fire {Rng} sortItems sortStrings c st g.
Arguments start {Rng} sortItems sortStrings data g.
Arguments step {Rng} sortItems sortStrings r e g.
Arguments run {Rng} sortItems sortStrings events r g.

(** What every game keeps, whatever happens: [data] is the word list
    that arrived. *)
Record Sound (data : list VocabularyItem) (r : Run) : Prop := {
  sound_words : WordRushGame.words (now r) = data;
  sound_loaded : WordRushGame.gameState (now r) <> WordRushGame.LOADING;
  sound_index :
    0 <= WordRushGame.currentIndex (now r) <= Z.of_nat (List.length data);
  sound_playing :
    WordRushGame.gameState (now r) = WordRushGame.PLAYING ->
    WordRushGame.currentIndex (now r) < Z.of_nat (List.length data);
  sound_streak : 0 <= WordRushGame.streak (now r);
  sound_lives :
    WordRushGame.lives (now r)
    = 3 - Z.of_nat (wrongPresses r) - Z.of_nat (timeOuts r);
  sound_timer :
    forall cl, timer r = Some cl ->
      WordRushGame.words cl = data
      /\ 0 <= WordRushGame.currentIndex cl < Z.of_nat (List.length data);
  sound_pending :
    forall c, In c (pending r) ->
      c = GameOver
      \/ exists i, c = NextRound i data
                   /\ 1 <= i <= Z.of_nat (List.length data)
}.

(** Where a game is as long as no countdown has run out. *)
Inductive Phase (data : list VocabularyItem) (r : Run) : Prop :=
| RoundOpen :
    WordRushGame.gameState (now r) = WordRushGame.PLAYING ->
    WordRushGame.feedback (now r) = None ->
    pending r = [] ->
    1 <= WordRushGame.lives (now r) ->
    WordRushGame.streak (now r) <= WordRushGame.currentIndex (now r) ->
    Phase data r
| RoundAnswered :
    WordRushGame.gameState (now r) = WordRushGame.PLAYING ->
    WordRushGame.feedback (now r) <> None ->
    pending r = [NextRound (WordRushGame.currentIndex (now r) + 1) data] ->
    1 <= WordRushGame.lives (now r) ->
    WordRushGame.streak (now r) <= WordRushGame.currentIndex (now r) + 1 ->
    Phase data r
| LastLifeLost :
    WordRushGame.gameState (now r) = WordRushGame.PLAYING ->
    WordRushGame.feedback (now r) = Some WordRushGame.MISS ->
    pending r = [GameOver] ->
    timer r = None ->
    WordRushGame.lives (now r) = 0 ->
    WordRushGame.streak (now r) = 0 ->
    Phase data r
| Over :
    WordRushGame.gameState (now r) = WordRushGame.GAME_OVER ->
    pending r = [] ->
    timer r = None ->
    WordRushGame.lives (now r) = 0
    \/ WordRushGame.currentIndex (now r) = Z.of_nat (List.length data) ->
    0 <= WordRushGame.lives (now r) ->
    WordRushGame.streak (now r) <= WordRushGame.currentIndex (now r) ->
    Phase data r.

(** The events of one answered round: [before] ticks, the press of the
    option [selected], [after] ticks, and the callback that the answer
    scheduled. *)
Definition pressRound (before : nat) (selected : string) (after : nat)
  : list Event :=
  (repeat Tick before ++ Press selected :: repeat Tick after
   ++ [Fire 0%nat])%list.

(** The time left after [k] ticks that do not run out. *)
Fixpoint afterTicks (k : nat) (t : float) : float :=
  match k with
  | O => t
  | S k' => afterTicks k' (fst (tick t))
  end.

(** None of the first [k] ticks from [t] runs out. *)
Fixpoint noRunOut (k : nat) (t : float) : bool :=
  match k with
  | O => true
  | S k' => negb (snd (tick t)) && noRunOut k' (fst (tick t))
  end.

(** ['Anonymous'] for a blank name: [playerName || 'Anonymous']. *)
Definition exitName (playerName : string) : string :=
  if JS.truthy (Some playerName) then playerName else "Anonymous".

(** The "save and leave" button of the game-over screen. *)
Definition exitGame (now : string) (st : WordRushGame.State)
           (playerName : string) (shell : Shell.State) : Shell.State :=
  Shell.handleGameExit now shell (WordRushGame.score st) (exitName playerName).

(** The game after [k] ticks of which none runs out. *)
Definition quiet (k : nat) (r : Run) : Run :=
  {| now := setTimeLeft (afterTicks k (WordRushGame.timeLeft (now r)))
                        (now r);
     timer := timer r;
     pending := pending r;
     wrongPresses := wrongPresses r;
     timeOuts := timeOuts r |}.

(** The game at the start of the round of index [i], with [l] lives
    and the score [sc], after [wp] wrong presses and no time-out. *)
Record AtRound (data : list VocabularyItem) (i l sc : Z) (wp : nat)
       (r : Run) : Prop := {
  at_state : WordRushGame.gameState (now r) = WordRushGame.PLAYING;
  at_feedback : WordRushGame.feedback (now r) = None;
  at_pending : pending r = [];
  at_timer : timer r = Some (now r);
  at_words : WordRushGame.words (now r) = data;
  at_index : WordRushGame.currentIndex (now r) = i;
  at_lives : WordRushGame.lives (now r) = l;
  at_score : WordRushGame.score (now r) = sc;
  at_time :
    WordRushGame.timeLeft (now r) = JS.ofInt (WordRushGame.newMaxTime i);
  at_wrong : wrongPresses r = wp;
  at_outs : timeOuts r = 0%nat
}.

End WordRushRun.

(* ================================================================== *)
(** ** Vocabulary of the further properties *)

Module More.

(** No hyphen in the string. *)
Fixpoint noHyphen (s : string) : bool :=
  match s with
  | String c s' => negb (Ascii.eqb c "-") && noHyphen s'
  | EmptyString => true
  end.

(** The reply of the model for three words, with identifiers of its
    own, and a clock that stands still. *)
Definition reply : list VocabularyItem :=
  [ Sample.item "x" "cat" "con meo"; Sample.item "x" "dog" "con cho";
    Sample.item "" "bird" "con chim" ].

Definition frozenClock (k : nat) : N := 1700000000000%N.

(** [isSubmitting], as the component passes it to the renderer. *)
Definition isSubmitting (st : App.State) : bool :=
  match App.feedback st with
  | Some _ => true
  | None => false
  end || App.isProcessingAI st.

(** Answer after answer to the current exercise, each followed by the
    "try again" button. *)
Fixpoint attempts
         (generateHint : VocabularyItem -> string -> ExerciseType -> option string)
         (answers : list string) (st : App.State) : option App.State :=
  match answers with
  | [] => Some st
  | a :: rest =>
      match App.handleAnswer generateHint st a with
      | Some st1 => attempts generateHint rest (App.retryExercise st1)
      | None => None
      end
  end.

(** The verdict on an answer: [None] when [handleAnswer] raises. *)
Definition verdict
           (generateHint : VocabularyItem -> string -> ExerciseType -> option string)
           (st : App.State) (answer : string) : option bool :=
  option_map App.feedbackIsCorrect (App.handleAnswer generateHint st answer).

Definition entry (n : string) (s : Z) : LeaderboardEntry :=
  {| name := n; score := s; level := levelLabel Beginner;
     date := "2024-01-01T00:00:00.000Z" |}.

(** Twelve stored runs, with equal scores among them. *)
Definition twelve : list LeaderboardEntry :=
  [ entry "a" 300; entry "b" 120; entry "c" 300; entry "d" 50;
    entry "e" 700; entry "f" 120; entry "g" 10; entry "h" 300;
    entry "i" 450; entry "j" 120; entry "k" 900; entry "l" 120 ].

(** A parser that knows one text, and the shell after a first start. *)
Definition parseOne (text : string) (v : Shell.Value) (s : string)
  : option Shell.Value :=
  if String.eqb s text then Some v else None.

Definition shell : Shell.State :=
  {| Shell.userState := Sample.learner; Shell.appMode := Shell.GAME;
     Shell.showLeaderboard := false; Shell.leaderboardData := twelve;
     Shell.storedLeaderboard := Some twelve |}.

(** The answers that a run of the matching exercise passes to
    [onAnswer], in order. *)
Fixpoint emitted (pairs : list MatchingPair) (st : ExerciseRenderer.State)
         (evs : list ExerciseRenderer.Event) : list string :=
  match evs with
  | [] => []
  | ev :: rest =>
      let o := ExerciseRenderer.step pairs st ev in
      (match ExerciseRenderer.answered o with
       | Some a => [a]
       | None => []
       end ++ emitted pairs (ExerciseRenderer.next o) rest)%list
  end.

(** No definition is confirmed twice. *)
Definition definitionsOnce (st : ExerciseRenderer.State) : Prop :=
  NoDup (map snd (ExerciseRenderer.confirmed
                    (ExerciseRenderer.matchedPairs st))).

(** Pressing, pair after pair, the word and then its definition. *)
Definition pressAll (pairs : list MatchingPair)
  : list ExerciseRenderer.Event :=
  flat_map (fun p => [ ExerciseRenderer.Press (wordId p) ExerciseRenderer.left;
                       ExerciseRenderer.Press (pairDefinition p)
                                              ExerciseRenderer.right ])
           pairs.

(** The state after the pairs [done] were matched in order. *)
Definition after (done : list MatchingPair) : ExerciseRenderer.State :=
  {| ExerciseRenderer.selLeft := None; ExerciseRenderer.selRight := None;
     ExerciseRenderer.matchedPairs
     := ExerciseRenderer.flat (map ExerciseRenderer.pairOf done) |}.

(** Pairs that can be told apart on screen: no identifier twice, no
    definition twice, no empty string, and no identifier that is also a
    definition. *)
Record distinctPairs (pairs : list MatchingPair) : Prop := {
  ids_once : NoDup (map wordId pairs);
  definitions_once : NoDup (map pairDefinition pairs);
  ids_filled : forall p, In p pairs -> wordId p <> "";
  definitions_filled : forall p, In p pairs -> pairDefinition p <> "";
  ids_apart :
    forall p q, In p pairs -> In q pairs -> wordId p <> pairDefinition q
}.

(** [sort] returns the items it was given, in some order. *)
Definition permutesItems {Rng}
           (sortItems : list VocabularyItem -> Rng -> list VocabularyItem * Rng)
  : Prop :=
  forall l g, Permutation l (fst (sortItems l g)).

(** The first round of a game on [Sample.animals] after one tick of the
    countdown: the time left is [10 - 0.1] in binary64. *)
Definition afterOneTick : WordRushGame.State :=
  {| WordRushGame.gameState := WordRushGame.PLAYING;
     WordRushGame.words := Sample.animals; WordRushGame.currentIndex := 0;
     WordRushGame.score := 0; WordRushGame.lives := 3;
     WordRushGame.timeLeft
     := fst (WordRushRun.tick (JS.ofInt (WordRushGame.newMaxTime 0)));
     WordRushGame.maxTime := 10;
     WordRushGame.options := ["con meo"; "con cho"; "con chim"; "con ca"];
     WordRushGame.streak := 0; WordRushGame.feedback := None |}.

(** A game on [Sample.animals] that has just started, under shuffles
    that leave the order as it is. *)
Definition freshGame : WordRushRun.Run :=
  match WordRushRun.start Sample.keepOrder Sample.keepOrder
          Sample.animals tt with
  | Some (r, _) => r
  | None =>
      {| WordRushRun.now := WordRushGame.initial;
         WordRushRun.timer := None; WordRushRun.pending := [];
         WordRushRun.wrongPresses := 0; WordRushRun.timeOuts := 0 |}
  end.

(** That game after a hundred ticks and no press: the countdown of the
    first round is about to run out. *)
Definition aboutToRunOut : WordRushRun.Run :=
  match WordRushRun.run Sample.keepOrder Sample.keepOrder
          (repeat WordRushRun.Tick 100) freshGame tt with
  | Some (r, _) => r
  | None => freshGame
  end.

(** The values that the countdown takes from [t] until it runs out, at
    most [fuel] of them. *)
Fixpoint countdownFrom (fuel : nat) (t : float) : list float :=
  match fuel with
  | O => []
  | S fuel' =>
      t :: (if snd (WordRushRun.tick t) then []
            else countdownFrom fuel' (fst (WordRushRun.tick t)))
  end.

End More.

(* ================================================================== *)
(** ** What the words of the properties mean *)

Module Spec.









(** The number that a binary64 value is, as a fraction; none for NaN
    and the infinities. *)
Definition exactValue (x : float) : option QArith_base.Q :=
  match Prim2SF x with
  | S754_zero _ => Some (QArith_base.inject_Z 0)
  | S754_finite s m e =>
      let n := if s then Z.neg m else Z.pos m in
      Some (if 0 <=? e then QArith_base.inject_Z (n * 2 ^ e)
            else QArith_base.Qmake n (Z.to_pos (2 ^ (- e))))
  | _ => None
  end.

(** [100 + ceil(t * 10) + 5 * s] for the remaining time [t] and the
    streak [s], in exact arithmetic. *)
Definition exactPoints (t : float) (s : Z) : option Z :=
  match exactValue t with
  | Some v =>
      Some (100
            + Qround.Qceiling
                (QArith_base.Qmult v (QArith_base.inject_Z 10))
            + 5 * s)
  | None => None
  end.

(** The reading of "the points added for a hit are exactly
    [100 + ceil(t * 10) + 5 * s]" at a state of the game. *)
Definition hitIsExact (st : WordRushGame.State) : Prop :=
  forall sel o,
    WordRushGame.handleAnswer st (Some sel) = Some o ->
    WordRushGame.feedback (WordRushGame.next o) = Some WordRushGame.HIT ->
    exactPoints (WordRushGame.timeLeft st) (WordRushGame.streak st)
    = Some (WordRushGame.score (WordRushGame.next o) - WordRushGame.score st).

(** The points of the code are the exact ones or one less. *)
Definition gapAtMostOne (t : float) : bool :=
  match exactPoints t 0 with
  | Some p =>
      (WordRushGame.points t 0 <=? p) && (p <=? WordRushGame.points t 0 + 1)
  | None => false
  end.

End Spec.

(* ================================================================== *)
(** * Properties *)

(** ** Word Rush: time budget and scoring *)

Lemma newMaxTime_antitone (i j : Z) :
  i <= j -> WordRushGame.newMaxTime j <= WordRushGame.newMaxTime i.
Proof.
  intros Hij. unfold WordRushGame.newMaxTime.
  assert (i / 3 <= j / 3) by (apply Z.div_le_mono; lia).
  lia.
Qed.

(** C8. At every round index [i >= 0] the budget is [max(3, 10 - q)]
    for the integer [q] with [3q <= i < 3q + 3], that is
    [q = floor(i/3)]; it does not grow from one round to the next, it is
    never below 3, and an existing round gets it as [maxTime] and as the
    start of its countdown. *)
Theorem round_budget_formula
  (Rng : Type)
  (sortItems : list VocabularyItem -> Rng -> list VocabularyItem * Rng)
  (sortStrings : list string -> Rng -> list string * Rng)
  (i : Z) (Hi : 0 <= i) :
  (exists q, 3 * q <= i < 3 * q + 3
             /\ WordRushGame.newMaxTime i = Z.max 3 (10 - q))
  /\ WordRushGame.newMaxTime (i + 1) <= WordRushGame.newMaxTime i
  /\ 3 <= WordRushGame.newMaxTime i
  /\ forall wordList st g,
       i < Z.of_nat (List.length wordList) ->
       exists st' g',
         WordRushGame.prepareRound sortItems sortStrings i wordList st g
           = Some (st', g')
         /\ WordRushGame.maxTime st' = WordRushGame.newMaxTime i
         /\ WordRushGame.timeLeft st'
            = JS.ofInt (WordRushGame.newMaxTime i).
Proof.
  repeat split.
  - exists (i / 3). split; [|reflexivity].
    pose proof (Z.div_mod i 3 ltac:(lia)) as Hd.
    pose proof (Z.mod_pos_bound i 3 ltac:(lia)). lia.
  - apply newMaxTime_antitone. lia.
  - unfold WordRushGame.newMaxTime. lia.
  - intros wordList st g Hlt. unfold WordRushGame.prepareRound.
    destruct (Z.leb_spec (Z.of_nat (List.length wordList)) i) as [Hge|_];
      [lia|].
    unfold JS.index. destruct (Z.ltb_spec i 0) as [Hneg|_]; [lia|].
    destruct (nth_error wordList (Z.to_nat i)) as [w|] eqn:Hnth.
    + eexists _, _. split; [reflexivity|]. split; reflexivity.
    + apply nth_error_None in Hnth. lia.
Qed.

Lemma round_budget_formula_witness :
  WordRushGame.newMaxTime 7 = 8
  /\ WordRushGame.newMaxTime 8 <= WordRushGame.newMaxTime 7.
Proof.
  pose proof (round_budget_formula unit Sample.keepOrder Sample.keepOrder 7
                ltac:(lia)) as [_ [Hmono _]].
  split; [reflexivity | exact Hmono].
Defined.

(** [ceilFinite] is the least integer not below [m * 2^e]: for a
    negative exponent, the least [c] with [m <= c * 2^(-e)]. *)
Lemma ceilFinite_least (m : positive) (e : Z) :
  e < 0 ->
  let c := JS.ceilFinite false m e in
  Z.pos m <= c * 2 ^ (- e) /\ (c - 1) * 2 ^ (- e) < Z.pos m.
Proof.
  intros He c. subst c. unfold JS.ceilFinite.
  destruct (Z.leb_spec 0 e) as [?|_]; [lia|].
  assert (Hd : 0 < 2 ^ (- e)) by (apply Z.pow_pos_nonneg; lia).
  pose proof (Z.div_mod (Z.pos m) (2 ^ (- e)) ltac:(lia)) as Hdm.
  pose proof (Z.mod_pos_bound (Z.pos m) (2 ^ (- e)) Hd) as Hb.
  destruct (Z.eqb_spec (Z.pos m mod 2 ^ (- e)) 0) as [Hz|Hnz]; nia.
Qed.

Example Math_ceil_half : JS.Math_ceil (2.5 * 10)%float = 25.
Proof. vm_compute. reflexivity. Qed.

Example Math_ceil_quarter : JS.Math_ceil (7.25 * 10)%float = 73.
Proof. vm_compute. reflexivity. Qed.

(** The product is the binary64 one: a tenth times ten is one. *)
Example Math_ceil_tenth : JS.Math_ceil (0.1 * 10)%float = 1.
Proof. vm_compute. reflexivity. Qed.

(** Three ticks of a tenth from 10 leave a value just above 9.7. *)
Example Math_ceil_after_ticks :
  JS.Math_ceil ((10 - 0.1 - 0.1 - 0.1) * 10)%float = 98.
Proof. vm_compute. reflexivity. Qed.



(** ** The exercise generator *)

Section GeneratorFacts.

Context {Rng : Type}.
Variable sortRandom : list string -> Rng -> list string * Rng.
Variable vocab : list VocabularyItem.

Lemma pushItem_fst (a : list Exercise * Rng) (item : VocabularyItem) :
  fst (App.pushItem sortRandom vocab a item)
  = (fst a ++ Gen.itemExercises sortRandom vocab item (snd a))%list.
Proof.
  unfold Gen.itemExercises, App.pushItem, JS.push. cbn [fst snd].
  rewrite <- !app_assoc. reflexivity.
Qed.

Lemma pushItem_snd (a : list Exercise * Rng) (item : VocabularyItem) :
  snd (App.pushItem sortRandom vocab a item)
  = Gen.afterItem sortRandom vocab item (snd a).
Proof. reflexivity. Qed.

Lemma fold_pushItem (items : list VocabularyItem) :
  forall a,
    fst (fold_left (App.pushItem sortRandom vocab) items a)
    = (fst a ++ Gen.blocks sortRandom vocab items (snd a))%list.
Proof.
  induction items as [|item rest IH]; intros a; cbn [fold_left Gen.blocks].
  - now rewrite app_nil_r.
  - rewrite IH, pushItem_fst, pushItem_snd, app_assoc. reflexivity.
Qed.

Lemma createExercises_blocks (g : Rng) :
  fst (App.createExercises sortRandom vocab g)
  = (Gen.blocks sortRandom vocab vocab g ++ [App.matchAll vocab])%list.
Proof.
  unfold App.createExercises, JS.push. cbn [fst].
  rewrite fold_pushItem. reflexivity.
Qed.

Lemma itemExercises_length (item : VocabularyItem) (g : Rng) :
  List.length (Gen.itemExercises sortRandom vocab item g) = 5%nat.
Proof. reflexivity. Qed.

Lemma blocks_length (items : list VocabularyItem) :
  forall g,
    List.length (Gen.blocks sortRandom vocab items g)
    = (5 * List.length items)%nat.
Proof.
  induction items as [|item rest IH]; intros g; cbn [Gen.blocks].
  - reflexivity.
  - rewrite length_app, IH, itemExercises_length. cbn [List.length]. lia.
Qed.

Lemma blocks_kinds (items : list VocabularyItem) :
  forall g,
    map Gen.kindAndTarget (Gen.blocks sortRandom vocab items g)
    = flat_map Gen.fiveKinds items.
Proof.
  induction items as [|item rest IH]; intros g; cbn [Gen.blocks flat_map].
  - reflexivity.
  - rewrite map_app, IH. reflexivity.
Qed.

(** The block of the [i]-th item starts at position [5 * i]. *)
Lemma blocks_nth (items : list VocabularyItem) :
  forall g i item,
    nth_error items i = Some item ->
    exists g',
      forall k, (k < 5)%nat ->
        nth_error (Gen.blocks sortRandom vocab items g) (5 * i + k)
        = nth_error (Gen.itemExercises sortRandom vocab item g') k.
Proof.
  induction items as [|it rest IH]; intros g i item Hi.
  - destruct i; discriminate.
  - destruct i as [|i]; cbn [nth_error] in Hi.
    + injection Hi as ->. exists g. intros k Hk. cbn [Gen.blocks].
      rewrite nth_error_app1 by (rewrite itemExercises_length; lia).
      f_equal.
    + destruct (IH (Gen.afterItem sortRandom vocab it g) i item Hi)
        as [g' Hg']. exists g'. intros k Hk. cbn [Gen.blocks].
      rewrite nth_error_app2 by (rewrite itemExercises_length; lia).
      rewrite itemExercises_length, <- (Hg' k Hk). f_equal. lia.
Qed.

Lemma createExercises_nth (g : Rng) (i : nat) (item : VocabularyItem) :
  nth_error vocab i = Some item ->
  exists g',
    forall k, (k < 5)%nat ->
      nth_error (fst (App.createExercises sortRandom vocab g)) (5 * i + k)
      = nth_error (Gen.itemExercises sortRandom vocab item g') k.
Proof.
  intros Hi. destruct (blocks_nth vocab g i item Hi) as [g' Hg'].
  exists g'. intros k Hk. rewrite createExercises_blocks.
  assert (i < List.length vocab)%nat
    by (apply nth_error_Some; congruence).
  rewrite nth_error_app1 by (rewrite blocks_length; lia).
  now apply Hg'.
Qed.

Lemma createExercises_kinds (g : Rng) :
  map Gen.kindAndTarget (fst (App.createExercises sortRandom vocab g))
  = (flat_map Gen.fiveKinds vocab ++ [(Matching, "all")])%list.
Proof.
  rewrite createExercises_blocks, map_app, blocks_kinds. reflexivity.
Qed.

Lemma createExercises_length (g : Rng) :
  List.length (fst (App.createExercises sortRandom vocab g))
  = (5 * List.length vocab + 1)%nat.
Proof.
  rewrite createExercises_blocks, length_app, blocks_length. reflexivity.
Qed.

Lemma createExercises_last (g : Rng) :
  nth_error (fst (App.createExercises sortRandom vocab g))
            (5 * List.length vocab)
  = Some (App.matchAll vocab).
Proof.
  rewrite createExercises_blocks.
  rewrite nth_error_app2 by (rewrite blocks_length; lia).
  rewrite blocks_length, Nat.sub_diag. reflexivity.
Qed.

End GeneratorFacts.

Lemma countKind_map (k : ExerciseType) (exs : list Exercise) :
  Gen.countKind k exs
  = List.length (filter (fun p => ExerciseType_eqb (fst p) k)
                        (map Gen.kindAndTarget exs)).
Proof.
  unfold Gen.countKind. induction exs as [|e exs IH]; cbn; [reflexivity|].
  destruct (ExerciseType_eqb (type e) k); cbn; now rewrite IH.
Qed.

(** C1. A vocabulary set of five items yields 26 exercises: for each
    item, in input order, a flashcard, a guess-meaning, a guess-word, a
    fill-blank and a listening exercise that target it (five of each
    kind), then one matching exercise with target ['all'] whose pairs
    are the (identifier, Vietnamese definition) tuples of the five
    items. *)
Theorem createExercises_five_items
  (Rng : Type) (sortRandom : list string -> Rng -> list string * Rng)
  (vocab : list VocabularyItem) (g : Rng)
  (Hfive : List.length vocab = 5%nat) :
  let exs := fst (App.createExercises sortRandom vocab g) in
  List.length exs = 26%nat
  /\ map Gen.kindAndTarget exs
     = (flat_map Gen.fiveKinds vocab ++ [(Matching, "all")])%list
  /\ Gen.countKind Flashcard exs = 5%nat
  /\ Gen.countKind GuessMeaning exs = 5%nat
  /\ Gen.countKind GuessWord exs = 5%nat
  /\ Gen.countKind FillBlank exs = 5%nat
  /\ Gen.countKind Listening exs = 5%nat
  /\ Gen.countKind Matching exs = 1%nat
  /\ exists m,
       nth_error exs 25 = Some m
       /\ type m = Matching
       /\ targetWordId m = "all"
       /\ matchingPairs m
          = Some (map (fun v => {| wordId := id v;
                                   pairDefinition := vietnameseDefinition v |})
                      vocab).
Proof.
  intros exs. subst exs.
  split; [rewrite createExercises_length, Hfive; reflexivity|].
  split; [apply createExercises_kinds|].
  rewrite !countKind_map, createExercises_kinds.
  pose proof (createExercises_last sortRandom vocab g) as Hlast.
  rewrite Hfive in Hlast.
  destruct vocab as [|v1 [|v2 [|v3 [|v4 [|v5 [|v6 rest]]]]]];
    try discriminate Hfive.
  repeat (split; [reflexivity|]).
  exists (App.matchAll [v1; v2; v3; v4; v5]).
  split; [exact Hlast|]. repeat split.
Qed.

Lemma createExercises_five_items_witness :
  List.length (fst (App.createExercises Sample.keepOrder Sample.animals tt))
  = 26%nat.
Proof.
  exact (proj1 (createExercises_five_items unit Sample.keepOrder
                  Sample.animals tt eq_refl)).
Defined.

(** C10. For the item at any position of the vocabulary set, the
    listening exercise generated for it carries the very options list
    of its guess-meaning exercise, entry for entry in the shuffled
    order, and the same [correctOptionIndex]. *)
Theorem listening_shares_options
  (Rng : Type) (sortRandom : list string -> Rng -> list string * Rng)
  (vocab : list VocabularyItem) (g : Rng)
  (i : nat) (item : VocabularyItem)
  (Hi : nth_error vocab i = Some item) :
  let exs := fst (App.createExercises sortRandom vocab g) in
  exists gm ls opts c,
    nth_error exs (5 * i + 1) = Some gm
    /\ nth_error exs (5 * i + 4) = Some ls
    /\ Gen.kindAndTarget gm = (GuessMeaning, id item)
    /\ Gen.kindAndTarget ls = (Listening, id item)
    /\ options gm = Some opts /\ options ls = Some opts
    /\ correctOptionIndex gm = Some c /\ correctOptionIndex ls = Some c.
Proof.
  intros exs. subst exs.
  destruct (createExercises_nth sortRandom vocab g i item Hi) as [g' Hg'].
  rewrite (Hg' 1%nat) by lia. rewrite (Hg' 4%nat) by lia.
  cbn [Gen.itemExercises App.pushItem JS.push fst snd app nth_error].
  do 4 eexists. repeat split.
Qed.

Lemma listening_shares_options_witness :
  exists gm ls opts c,
    nth_error (fst (App.createExercises Sample.reverseOrder Sample.animals 0%nat))
              (5 * 2 + 1) = Some gm
    /\ nth_error (fst (App.createExercises Sample.reverseOrder Sample.animals 0%nat))
                 (5 * 2 + 4) = Some ls
    /\ Gen.kindAndTarget gm = (GuessMeaning, "3")
    /\ Gen.kindAndTarget ls = (Listening, "3")
    /\ options gm = Some opts /\ options ls = Some opts
    /\ correctOptionIndex gm = Some c /\ correctOptionIndex ls = Some c.
Proof.
  exact (listening_shares_options nat Sample.reverseOrder Sample.animals
           0%nat 2%nat (Sample.item "3" "bird" "con chim") eq_refl).
Defined.

(** *** Options and the correct answer *)

Lemma indexOf_In (l : list string) (x : string) :
  In x l ->
  0 <= JS.indexOf l x < Z.of_nat (List.length l)
  /\ nth_error l (Z.to_nat (JS.indexOf l x)) = Some x
  /\ forall j, (j < Z.to_nat (JS.indexOf l x))%nat -> nth_error l j <> Some x.
Proof.
  induction l as [|y l IH]; intros Hin; [destruct Hin|].
  cbn [JS.indexOf List.length].
  destruct (String.eqb_spec y x) as [->|Hneq].
  - split; [lia|]. split; [reflexivity|]. intros j Hj. cbn in Hj. lia.
  - destruct Hin as [Heq|Hin]; [congruence|].
    destruct (IH Hin) as [Hrange [Hnth Hfirst]].
    cbv zeta. destruct (Z.ltb_spec (JS.indexOf l x) 0) as [?|_]; [lia|].
    replace (Z.to_nat (JS.indexOf l x + 1))
      with (S (Z.to_nat (JS.indexOf l x))) by lia.
    split; [lia|]. split; [exact Hnth|].
    intros [|j] Hj; cbn [nth_error].
    + congruence.
    + apply Hfirst. lia.
Qed.

Lemma blocks_In {Rng : Type}
  (sortRandom : list string -> Rng -> list string * Rng)
  (vocab items : list VocabularyItem) (e : Exercise) :
  forall g,
    In e (Gen.blocks sortRandom vocab items g) ->
    exists item g',
      In item items /\ In e (Gen.itemExercises sortRandom vocab item g').
Proof.
  induction items as [|it rest IH]; intros g Hin; cbn [Gen.blocks] in Hin.
  - destruct Hin.
  - apply in_app_or in Hin. destruct Hin as [Hin|Hin].
    + exists it, g. split; [now left | exact Hin].
    + destruct (IH _ Hin) as (item & g' & Hitem & He).
      exists item, g'. split; [now right | exact He].
Qed.

Lemma shuffled_answer (l opts : list string) (ans : string) :
  Permutation (ans :: l) opts ->
  count_occ string_dec opts ans = S (count_occ string_dec l ans)
  /\ (~ In ans l -> count_occ string_dec opts ans = 1%nat)
  /\ 0 <= JS.indexOf opts ans < Z.of_nat (List.length opts)
  /\ nth_error opts (Z.to_nat (JS.indexOf opts ans)) = Some ans
  /\ forall j, (j < Z.to_nat (JS.indexOf opts ans))%nat ->
               nth_error opts j <> Some ans.
Proof.
  intros Hperm.
  assert (Hcount : count_occ string_dec opts ans
                   = S (count_occ string_dec l ans)).
  { rewrite <- (proj1 (Permutation_count_occ string_dec _ _) Hperm ans).
    apply count_occ_cons_eq. reflexivity. }
  split; [exact Hcount|]. split.
  - intros Hnot. rewrite Hcount.
    now rewrite (proj1 (count_occ_not_In string_dec l ans) Hnot).
  - apply indexOf_In. apply (Permutation_in _ Hperm). now left.
Qed.

(** C2, as the code has it. Every exercise with options that the
    generator produces is a guess-meaning, guess-word or listening
    exercise of an item of the set; its options are a rearrangement of
    the correct answer and the distractors, so they hold the correct
    answer once more than the distractors do: at least once, and
    exactly once when no distractor equals it; [correctOptionIndex] is
    the position of the first occurrence of the correct answer in the
    shuffled list. *)
Theorem options_hold_answer
  (Rng : Type) (sortRandom : list string -> Rng -> list string * Rng)
  (Hsort : Gen.permutes sortRandom)
  (vocab : list VocabularyItem) (g : Rng)
  (e : Exercise) (opts : list string)
  (He : In e (fst (App.createExercises sortRandom vocab g)))
  (Hopts : options e = Some opts) :
  exists item c,
    In item vocab /\ targetWordId e = id item
    /\ Gen.hasOptions (type e) = true
    /\ correctOptionIndex e = Some c
    /\ let ans := Gen.answerOf item (type e) in
       let distractors := Gen.distractorsOf vocab item (type e) in
       Permutation (ans :: distractors) opts
       /\ count_occ string_dec opts ans
          = S (count_occ string_dec distractors ans)
       /\ (~ In ans distractors -> count_occ string_dec opts ans = 1%nat)
       /\ 0 <= c < Z.of_nat (List.length opts)
       /\ nth_error opts (Z.to_nat c) = Some ans
       /\ forall j, (j < Z.to_nat c)%nat -> nth_error opts j <> Some ans.
Proof.
  rewrite createExercises_blocks in He. apply in_app_or in He.
  destruct He as [He|[<-|[]]]; [|discriminate Hopts].
  destruct (blocks_In sortRandom vocab vocab e g He) as (item & g' & Hitem & Hin).
  exists item.
  cbn [Gen.itemExercises App.pushItem JS.push fst snd app In] in Hin.
  destruct Hin as [<-|[<-|[<-|[<-|[<-|[]]]]]];
    cbn [options] in Hopts; try discriminate Hopts;
    injection Hopts as <-;
    eexists; (split; [exact Hitem|]); repeat (split; [reflexivity|]);
    cbn [type Gen.answerOf Gen.distractorsOf]; cbv zeta;
    (split; [apply Hsort|]); apply shuffled_answer; apply Hsort.
Qed.

Lemma reverseOrder_permutes : Gen.permutes (@Sample.reverseOrder string).
Proof. intros l g. apply Permutation_rev. Qed.

Lemma keepOrder_permutes : Gen.permutes (@Sample.keepOrder string).
Proof. intros l g. apply Permutation_refl. Qed.

Lemma options_hold_answer_witness :
  exists item c,
    In item Sample.animals
    /\ correctOptionIndex Sample.guessCat = Some c
    /\ nth_error ["con ca"; "con chim"; "con cho"; "con meo"] (Z.to_nat c)
       = Some (Gen.answerOf item GuessMeaning).
Proof.
  destruct (options_hold_answer nat Sample.reverseOrder reverseOrder_permutes
              Sample.animals 0%nat Sample.guessCat
              ["con ca"; "con chim"; "con cho"; "con meo"]
              ltac:(vm_compute; right; left; reflexivity) eq_refl)
    as (item & c & Hin & _ & _ & Hc & _ & _ & _ & _ & Hnth & _).
  exists item, c. repeat split; assumption.
Defined.

(** C2, as stated, fails: with two items that share a Vietnamese
    definition, the guess-meaning options of the first hold the correct
    answer twice. *)
Lemma options_answer_twice :
  Gen.permutes (@Sample.keepOrder string)
  /\ ~ Gen.answerExactlyOnce
         (fst (App.createExercises Sample.keepOrder Sample.sizes tt))
         Sample.sizes.
Proof.
  split; [exact keepOrder_permutes|].
  intros H.
  destruct (H {| exId := "gm-1"; type := GuessMeaning; targetWordId := "1";
                 question := "big";
                 options := Some ["to"; "to"; "nho"; "cao"];
                 correctOptionIndex := Some 0; matchingPairs := None |}
              (Sample.item "1" "big" "to"))
    as (opts & Hopts & Hcount & _).
  - vm_compute. right. left. reflexivity.
  - reflexivity.
  - left. reflexivity.
  - reflexivity.
  - injection Hopts as <-. vm_compute in Hcount. discriminate Hcount.
Qed.

(** ** The answer evaluator *)

Section Evaluator.

Variable generateHint : VocabularyItem -> string -> ExerciseType -> option string.

Lemma index_Some {A} (l : list A) (i : Z) (x : A) :
  JS.index l i = Some x ->
  0 <= i < Z.of_nat (List.length l) /\ nth_error l (Z.to_nat i) = Some x.
Proof.
  unfold JS.index. destruct (Z.ltb_spec i 0) as [?|Hi]; [discriminate|].
  intros Hnth. split; [|exact Hnth].
  assert (Z.to_nat i < List.length l)%nat
    by (apply nth_error_Some; congruence).
  lia.
Qed.

Lemma type_not_Flashcard (ex : Exercise) :
  type ex <> Flashcard -> ExerciseType_eqb (type ex) Flashcard = false.
Proof. destruct (type ex); intros H; try reflexivity; now elim H. Qed.

(** A scored exercise is always judged: [handleAnswer] returns, the
    verdict is the one of [validate], ten points are added for a hit
    and none for a miss, and the position in the session stays. *)
Lemma handleAnswer_scored (st : App.State) (ex : Exercise) (answer : string) :
  JS.index (App.exercises st) (App.currentExerciseIndex st) = Some ex ->
  type ex <> Flashcard ->
  exists st',
    App.handleAnswer generateHint st answer = Some st'
    /\ App.feedbackIsCorrect st'
       = App.validate ex (App.findTarget (App.vocabList st) ex) answer
    /\ App.exercises st' = App.exercises st
    /\ App.currentExerciseIndex st' = App.currentExerciseIndex st
    /\ App.vocabList st' = App.vocabList st
    /\ xp (App.userState st')
       = xp (App.userState st)
         + (if App.validate ex (App.findTarget (App.vocabList st) ex) answer
            then 10 else 0).
Proof.
  intros Hex Hkind. unfold App.handleAnswer. rewrite Hex.
  rewrite (type_not_Flashcard ex Hkind).
  destruct (App.validate ex (App.findTarget (App.vocabList st) ex) answer);
    eexists; (split; [reflexivity|]); cbn; repeat split; lia.
Qed.

(** A flashcard is passed, never judged: no points, no feedback. *)
Lemma handleAnswer_flashcard (st : App.State) (ex : Exercise) (answer : string) :
  JS.index (App.exercises st) (App.currentExerciseIndex st) = Some ex ->
  type ex = Flashcard ->
  App.handleAnswer generateHint st answer = Some (App.nextExercise st)
  /\ App.userState (App.nextExercise st) = App.userState st
  /\ App.feedback (App.nextExercise st) = None.
Proof.
  intros Hex Hkind. unfold App.handleAnswer. rewrite Hex, Hkind.
  repeat split.
Qed.

End Evaluator.

(** *** The string built-ins *)




Example trim_Cat : JS.trim (JS.toLowerCase " Cat ") = "cat".
Proof. reflexivity. Qed.

Example toLowerCase_keeps_digits : JS.toLowerCase "A1-b Z" = "a1-b z".
Proof. reflexivity. Qed.






(** C6, as stated, fails: the matching exercise targets ['all'], which
    is no item of the set, and ["COMPLETE"] is accepted for it. *)
Lemma matching_without_target_accepted :
  ~ Gen.missAlways Sample.noHint Sample.atMatching.
Proof.
  intros H.
  destruct (H (App.matchAll Sample.animals) "COMPLETE" eq_refl
              ltac:(discriminate) eq_refl)
    as (st' & Hst' & Hmiss).
  vm_compute in Hst'. injection Hst' as <-. discriminate Hmiss.
Qed.

(** C6, as the code has it. A scored exercise whose target is no item
    of the set is always judged, without an exception; a fill-blank,
    guess-meaning, guess-word or listening answer is then a miss,
    whatever it is, and no points are added; a matching answer is
    accepted exactly when it is ["COMPLETE"]. *)
Theorem missing_target_is_a_miss
  (generateHint : VocabularyItem -> string -> ExerciseType -> option string)
  (st : App.State) (ex : Exercise) (answer : string)
  (Hex : JS.index (App.exercises st) (App.currentExerciseIndex st) = Some ex)
  (Hkind : type ex <> Flashcard)
  (Hmiss : App.findTarget (App.vocabList st) ex = None) :
  exists st',
    App.handleAnswer generateHint st answer = Some st'
    /\ (type ex <> Matching ->
        App.feedbackIsCorrect st' = false
        /\ App.userState st' = App.userState st)
    /\ (type ex = Matching ->
        (App.feedbackIsCorrect st' = true <-> answer = "COMPLETE")).
Proof.
  unfold App.handleAnswer. rewrite Hex, (type_not_Flashcard ex Hkind), Hmiss.
  unfold App.validate.
  destruct (type ex) eqn:Hty; try (now elim Hkind);
    try (eexists; split; [reflexivity|]; split;
         [intros _; split; reflexivity | intros Hm; discriminate Hm]).
  destruct (String.eqb_spec answer "COMPLETE") as [->|Hneq];
    eexists; (split; [reflexivity|]);
    (split; [intros Hm; now elim Hm | intros _]);
    cbn; split; intros H; congruence.
Qed.

Lemma missing_target_is_a_miss_witness :
  exists st',
    App.handleAnswer Sample.noHint Sample.orphaned "cat" = Some st'
    /\ App.feedbackIsCorrect st' = false.
Proof.
  destruct (missing_target_is_a_miss Sample.noHint Sample.orphaned _ "cat"
              eq_refl ltac:(discriminate) eq_refl)
    as (st' & Hst' & Hscored & _).
  exists st'. split; [exact Hst'|]. apply Hscored. discriminate.
Defined.

(** ** The learning session *)

Section Session.

Variable generateHint : VocabularyItem -> string -> ExerciseType -> option string.

Lemma skipn_nth_error {A} (l : list A) :
  forall n x, nth_error l n = Some x -> skipn n l = x :: skipn (S n) l.
Proof.
  induction l as [|y l IH]; intros [|n] x Hn; try discriminate.
  - injection Hn as ->. reflexivity.
  - cbn [nth_error] in Hn. exact (IH n x Hn).
Qed.

(** Moving on drops the current exercise from what remains; this only
    looks at the exercise list and the index. *)
Lemma remaining_nextExercise (st : App.State) (ex : Exercise) :
  JS.index (App.exercises st) (App.currentExerciseIndex st) = Some ex ->
  Gen.remaining st = ex :: Gen.remaining (App.nextExercise st).
Proof.
  intros Hex. destruct (index_Some _ _ _ Hex) as [Hrange Hnth].
  unfold Gen.remaining, App.nextExercise.
  cbn [App.currentExerciseIndex App.exercises].
  destruct (Z.ltb_spec (App.currentExerciseIndex st) 0) as [?|_]; [lia|].
  rewrite (skipn_nth_error _ _ _ Hnth).
  destruct (Z.ltb_spec (App.currentExerciseIndex st)
              (Z.of_nat (List.length (App.exercises st)) - 1)) as [Hlt|Hge].
  - destruct (Z.ltb_spec (App.currentExerciseIndex st + 1) 0) as [?|_];
      [lia|].
    do 2 f_equal. lia.
  - change (-1 <? 0) with true. cbv iota. f_equal.
    apply skipn_all2. lia.
Qed.

Lemma remaining_same (st st' : App.State) :
  App.exercises st' = App.exercises st ->
  App.currentExerciseIndex st' = App.currentExerciseIndex st ->
  Gen.remaining st' = Gen.remaining st.
Proof. intros He Hi. unfold Gen.remaining. now rewrite He, Hi. Qed.

(** A session played right at the first attempt ends on the summary
    screen, with ten points for each scored exercise that remained and
    one answer spent on each. *)
Lemma playFirstTry_xp (fuel : nat) :
  forall answers st stf,
    App.playFirstTry generateHint fuel answers st = Some stf ->
    App.exercises stf = App.exercises st
    /\ App.currentExerciseIndex stf = -1
    /\ xp (App.userState stf)
       = xp (App.userState st)
         + 10 * Z.of_nat (List.length (Gen.scored (Gen.remaining st)))
    /\ List.length answers = List.length (Gen.scored (Gen.remaining st)).
Proof.
  induction fuel as [|fuel IH]; intros answers st stf Hplay;
    cbn [App.playFirstTry] in Hplay;
    destruct (Z.eqb_spec (App.currentExerciseIndex st) (-1)) as [Hend|Hgo].
  1,3: assert (Hrem : Gen.remaining st = [])
         by (unfold Gen.remaining; rewrite Hend; reflexivity);
       rewrite Hrem; destruct answers; [|discriminate Hplay];
       injection Hplay as <-; cbn; repeat split; [exact Hend | lia].
  - discriminate Hplay.
  - destruct (JS.index (App.exercises st) (App.currentExerciseIndex st))
      as [ex|] eqn:Hex; [|discriminate Hplay].
    rewrite (remaining_nextExercise st ex Hex).
    unfold Gen.scored. cbn [filter]. fold (Gen.scored (Gen.remaining (App.nextExercise st))).
    destruct (ExerciseType_eqb (type ex) Flashcard) eqn:Hfc.
    + destruct (IH _ _ _ Hplay) as (He & Hi & Hxp & Hlen).
      cbn [negb]. repeat split; assumption.
    + destruct answers as [|a answers]; [discriminate Hplay|].
      assert (Hnf : type ex <> Flashcard)
        by (intros Heq; rewrite Heq in Hfc; discriminate Hfc).
      destruct (handleAnswer_scored generateHint st ex a Hex Hnf)
        as (st1 & Hst1 & Hverdict & He1 & Hi1 & _ & Hxp1).
      rewrite Hst1 in Hplay.
      destruct (App.feedbackIsCorrect st1) eqn:Hok; [|discriminate Hplay].
      rewrite <- Hverdict in Hxp1.
      destruct (IH _ _ _ Hplay) as (He & Hi & Hxp & Hlen).
      assert (Hnext : Gen.remaining (App.nextExercise st1)
                      = Gen.remaining (App.nextExercise st)).
      { apply remaining_same; cbn [App.nextExercise App.exercises
                                    App.currentExerciseIndex];
          rewrite ?He1, ?Hi1; reflexivity. }
      rewrite Hnext in Hxp, Hlen. cbn [negb List.length].
      cbn [App.nextExercise App.exercises App.userState] in He, Hxp.
      repeat split; [congruence | exact Hi | lia | lia].
Qed.

End Session.

Section SessionExists.

Variable generateHint : VocabularyItem -> string -> ExerciseType -> option string.

Lemma validate_rightAnswer (vocabList : list VocabularyItem) (ex : Exercise) :
  type ex <> Flashcard ->
  (type ex <> Matching -> App.findTarget vocabList ex <> None) ->
  App.validate ex (App.findTarget vocabList ex) (Gen.rightAnswer vocabList ex)
  = true.
Proof.
  intros Hnf Hfound. unfold App.validate, Gen.rightAnswer.
  destruct (type ex) eqn:Hty; try (now elim Hnf);
    try (apply String.eqb_refl);
    destruct (App.findTarget vocabList ex) as [t|];
    try (apply String.eqb_refl);
    exfalso; apply Hfound; (discriminate || reflexivity).
Qed.

Lemma inSession_nextExercise (st : App.State) :
  Gen.inSession st -> Gen.inSession (App.nextExercise st).
Proof.
  unfold Gen.inSession, App.nextExercise.
  cbn [App.currentExerciseIndex App.exercises]. intros Hin.
  destruct (Z.ltb_spec (App.currentExerciseIndex st)
              (Z.of_nat (List.length (App.exercises st)) - 1));
    [right; lia | now left].
Qed.

(** With the right answers at hand, the session can always be played
    to its end at the first attempt, in as many steps as exercises
    remain. *)
Lemma playFirstTry_total (n : nat) :
  forall st,
    Gen.inSession st ->
    List.length (Gen.remaining st) = n ->
    Gen.targetsFound (App.vocabList st) (Gen.remaining st) ->
    exists stf,
      App.playFirstTry generateHint n
        (map (Gen.rightAnswer (App.vocabList st)) (Gen.scored (Gen.remaining st)))
        st = Some stf.
Proof.
  induction n as [|n IH]; intros st Hin Hlen Hfound;
    cbn [App.playFirstTry];
    destruct (Z.eqb_spec (App.currentExerciseIndex st) (-1)) as [Hend|Hgo].
  1,3: assert (Hrem : Gen.remaining st = [])
         by (unfold Gen.remaining; rewrite Hend; reflexivity);
       rewrite Hrem; exists st; reflexivity.
  - exfalso. destruct Hin as [?|Hin]; [contradiction|].
    unfold Gen.remaining in Hlen.
    destruct (Z.ltb_spec (App.currentExerciseIndex st) 0); [lia|].
    rewrite length_skipn in Hlen. lia.
  - destruct Hin as [?|Hin]; [contradiction|].
    assert (Hex : exists ex,
               JS.index (App.exercises st) (App.currentExerciseIndex st)
               = Some ex).
    { unfold JS.index.
      destruct (Z.ltb_spec (App.currentExerciseIndex st) 0); [lia|].
      destruct (nth_error (App.exercises st)
                  (Z.to_nat (App.currentExerciseIndex st))) eqn:Hnth;
        [eauto|]. apply nth_error_None in Hnth. lia. }
    destruct Hex as [ex Hex]. rewrite Hex.
    pose proof (remaining_nextExercise st ex Hex) as Hrem.
    rewrite Hrem in Hlen, Hfound |- *. injection Hlen as Hlen.
    assert (Hnext : Gen.inSession (App.nextExercise st))
      by (apply inSession_nextExercise; now right).
    unfold Gen.scored. cbn [filter].
    fold (Gen.scored (Gen.remaining (App.nextExercise st))).
    destruct (ExerciseType_eqb (type ex) Flashcard) eqn:Hfc; cbn [negb map].
    + apply (IH (App.nextExercise st) Hnext Hlen).
      intros e He. apply Hfound. now right.
    + assert (Hnf : type ex <> Flashcard)
        by (intros Heq; rewrite Heq in Hfc; discriminate Hfc).
      destruct (handleAnswer_scored generateHint st ex
                  (Gen.rightAnswer (App.vocabList st) ex) Hex Hnf)
        as (st1 & Hst1 & Hverdict & He1 & Hi1 & Hv1 & _).
      rewrite Hst1, Hverdict.
      rewrite validate_rightAnswer;
        [| exact Hnf
         | intros Hm; apply Hfound; [now left | exact Hnf | exact Hm]].
      assert (Hsame : Gen.remaining (App.nextExercise st1)
                      = Gen.remaining (App.nextExercise st)).
      { apply remaining_same; cbn [App.nextExercise App.exercises
                                    App.currentExerciseIndex];
          rewrite ?He1, ?Hi1; reflexivity. }
      rewrite <- Hsame, <- Hv1.
      change (App.vocabList st1) with (App.vocabList (App.nextExercise st1)).
      apply IH.
      * apply inSession_nextExercise. unfold Gen.inSession.
        rewrite He1, Hi1. now right.
      * now rewrite Hsame.
      * rewrite Hsame. cbn [App.nextExercise App.vocabList]. rewrite Hv1.
        intros e He. apply Hfound. now right.
Qed.

End SessionExists.

Lemma findTarget_same_id (vocab : list VocabularyItem) (item : VocabularyItem)
      (ex : Exercise) :
  In item vocab -> targetWordId ex = id item ->
  App.findTarget vocab ex <> None.
Proof.
  intros Hin Hid Hnone. unfold App.findTarget in Hnone.
  pose proof (find_none _ _ Hnone item Hin) as Hneq. cbn beta in Hneq.
  rewrite Hid, String.eqb_refl in Hneq. discriminate Hneq.
Qed.

(** The generator only targets items of the set it was given. *)
Lemma createExercises_targetsFound {Rng : Type}
      (sortRandom : list string -> Rng -> list string * Rng)
      (vocab : list VocabularyItem) (g : Rng) :
  Gen.targetsFound vocab (fst (App.createExercises sortRandom vocab g)).
Proof.
  intros ex Hin _ Hnm. rewrite createExercises_blocks in Hin.
  apply in_app_or in Hin. destruct Hin as [Hin|[<-|[]]];
    [|now elim Hnm].
  destruct (blocks_In sortRandom vocab vocab ex g Hin)
    as (item & g' & Hitem & Hex).
  apply (findTarget_same_id vocab item ex Hitem).
  cbn [Gen.itemExercises App.pushItem JS.push fst snd app In] in Hex.
  destruct Hex as [<-|[<-|[<-|[<-|[<-|[]]]]]]; reflexivity.
Qed.

(** Whatever the vocabulary set and the shuffles, the lesson can be
    played right at the first attempt. *)
Lemma perfect_lesson_exists {Rng : Type}
      (sortRandom : list string -> Rng -> list string * Rng)
      (generateHint : VocabularyItem -> string -> ExerciseType -> option string)
      (vocab : list VocabularyItem) (g : Rng) (st : App.State) :
  exists answers stf,
    App.playFirstTry generateHint (5 * List.length vocab + 1) answers
      (fst (App.startSession sortRandom st vocab g)) = Some stf.
Proof.
  eexists.
  apply (playFirstTry_total generateHint (5 * List.length vocab + 1)
           (fst (App.startSession sortRandom st vocab g))).
  - right. cbn [App.startSession fst App.currentExerciseIndex App.exercises].
    rewrite createExercises_length. lia.
  - change (Gen.remaining (fst (App.startSession sortRandom st vocab g)))
      with (fst (App.createExercises sortRandom vocab g)).
    apply createExercises_length.
  - apply createExercises_targetsFound.
Qed.

Lemma scored_map (exs : list Exercise) :
  List.length (Gen.scored exs)
  = List.length
      (filter (fun p => negb (ExerciseType_eqb (fst p) Flashcard))
              (map Gen.kindAndTarget exs)).
Proof.
  unfold Gen.scored. induction exs as [|e exs IH]; cbn; [reflexivity|].
  destruct (ExerciseType_eqb (type e) Flashcard); cbn; now rewrite IH.
Qed.

(** C3. In the lesson on five items, a learner who answers every scored
    exercise correctly at the first attempt gives 21 answers and gains
    210 points, ten for each; the flashcards give none.  The summary
    screen then shows 26 * 10 = 260, which is not what was gained. *)
Theorem perfect_lesson_xp
  (Rng : Type) (sortRandom : list string -> Rng -> list string * Rng)
  (generateHint : VocabularyItem -> string -> ExerciseType -> option string)
  (vocab : list VocabularyItem) (g : Rng) (st stf : App.State)
  (fuel : nat) (answers : list string)
  (Hfive : List.length vocab = 5%nat)
  (Hplay : App.playFirstTry generateHint fuel answers
             (fst (App.startSession sortRandom st vocab g)) = Some stf) :
  List.length (App.exercises stf) = 26%nat
  /\ List.length answers = 21%nat
  /\ xp (App.userState stf) = xp (App.userState st) + 210
  /\ App.summaryXp stf = Some 260
  /\ 260 <> xp (App.userState stf) - xp (App.userState st).
Proof.
  destruct (playFirstTry_xp generateHint fuel _ _ _ Hplay)
    as (He & Hi & Hxp & Hlen).
  assert (Hrem : Gen.remaining (fst (App.startSession sortRandom st vocab g))
                 = fst (App.createExercises sortRandom vocab g))
    by reflexivity.
  rewrite Hrem in Hxp, Hlen.
  cbn [App.startSession fst App.exercises App.userState] in He, Hxp.
  assert (Hscored : List.length
                      (Gen.scored (fst (App.createExercises sortRandom vocab g)))
                    = 21%nat).
  { rewrite scored_map, createExercises_kinds.
    destruct vocab as [|v1 [|v2 [|v3 [|v4 [|v5 [|v6 rest]]]]]];
      try discriminate Hfive.
    reflexivity. }
  rewrite Hscored in Hxp, Hlen.
  assert (H26 : List.length (App.exercises stf) = 26%nat)
    by (rewrite He, createExercises_length, Hfive; reflexivity).
  split; [exact H26|]. split; [exact Hlen|]. split; [lia|].
  split; [|lia].
  unfold App.summaryXp. rewrite Hi, H26. reflexivity.
Qed.

Lemma perfect_lesson_xp_witness :
  exists stf,
    App.playFirstTry Sample.noHint 26 Sample.rightAnswers Sample.lesson
    = Some stf
    /\ xp (App.userState stf) = 210
    /\ App.summaryXp stf = Some 260.
Proof.
  assert (Hplay : exists stf,
             App.playFirstTry Sample.noHint 26 Sample.rightAnswers
               Sample.lesson = Some stf)
    by (eexists; vm_compute; reflexivity).
  destruct Hplay as [stf Hplay]. exists stf. split; [exact Hplay|].
  pose proof (perfect_lesson_xp unit Sample.keepOrder Sample.noHint
                Sample.animals tt Sample.dashboard stf 26%nat
                Sample.rightAnswers eq_refl Hplay)
    as (_ & _ & Hxp & Hsum & _).
  split; [exact Hxp | exact Hsum].
Defined.

(** ** The matching exercise *)

Section Matching.

Import ExerciseRenderer.

Variable pairs : list MatchingPair.

Lemma includes_true (m : list string) (i : string) :
  JS.includes m i = true <-> In i m.
Proof.
  unfold JS.includes. rewrite existsb_exists. split.
  - intros (y & Hy & Heq). apply String.eqb_eq in Heq. now subst.
  - intros Hi. exists i. split; [exact Hi | apply String.eqb_refl].
Qed.

Lemma includes_false (m : list string) (i : string) :
  JS.includes m i = false <-> ~ In i m.
Proof.
  rewrite <- includes_true.
  destruct (JS.includes m i); split; intros H; congruence.
Qed.

Lemma confirmed_flat (cs : list (string * string)) :
  confirmed (flat cs) = cs.
Proof.
  induction cs as [|[l r] cs IH]; [reflexivity|].
  cbn. f_equal. exact IH.
Qed.

Lemma flat_snoc (cs : list (string * string)) (l r : string) :
  flat (cs ++ [(l, r)]) = (flat cs ++ [l; r])%list.
Proof. unfold flat. rewrite flat_map_app. reflexivity. Qed.

Lemma flat_length (cs : list (string * string)) :
  List.length (flat cs) = (2 * List.length cs)%nat.
Proof.
  induction cs as [|c cs IH]; [reflexivity|].
  change (S (S (List.length (flat cs))) = (2 * S (List.length cs))%nat).
  rewrite IH. lia.
Qed.

Lemma flat_fst (cs : list (string * string)) (l : string) :
  In l (map fst cs) -> In l (flat cs).
Proof.
  induction cs as [|c cs IH]; cbn; [tauto|].
  intros [H|H]; [now left | right; right; auto].
Qed.

Lemma flat_In (cs : list (string * string)) (l r : string) :
  In (l, r) cs -> In l (flat cs) /\ In r (flat cs).
Proof.
  induction cs as [|c cs IH]; cbn; [tauto|].
  intros [->|H]; cbn; [tauto|].
  destruct (IH H). tauto.
Qed.

Lemma findPair_declared (l r : string) (p : MatchingPair) :
  findPair pairs l r = Some p -> In (l, r) (map pairOf pairs).
Proof.
  intros Hfind. apply find_some in Hfind. destruct Hfind as [Hin Heq].
  apply andb_true_iff in Heq. destruct Heq as [Hl Hr].
  apply String.eqb_eq in Hl, Hr. subst l r.
  exact (in_map pairOf pairs p Hin).
Qed.

Lemma Inv_initial : Inv pairs initial.
Proof.
  constructor; cbn.
  - reflexivity.
  - constructor.
  - intros c [].
  - discriminate.
  - discriminate.
Qed.

(** A found pair extends the confirmed pairs by itself. *)
Lemma Inv_matched (st : State) (l r : string) (p : MatchingPair) :
  Inv pairs st ->
  JS.includes (matchedPairs st) l = false ->
  findPair pairs l r = Some p ->
  Inv pairs {| selLeft := None; selRight := None;
               matchedPairs := (matchedPairs st ++ [l; r])%list |}
  /\ confirmed (matchedPairs st ++ [l; r])
     = (confirmed (matchedPairs st) ++ [(l, r)])%list.
Proof.
  intros HI Hl Hfind.
  assert (Hconf : confirmed (matchedPairs st ++ [l; r])
                  = (confirmed (matchedPairs st) ++ [(l, r)])%list).
  { rewrite (inv_flat _ _ HI) at 1. rewrite <- flat_snoc.
    apply confirmed_flat. }
  split; [|exact Hconf].
  constructor; cbn [matchedPairs selLeft selRight]; try discriminate.
  - rewrite Hconf, flat_snoc, <- (inv_flat _ _ HI). reflexivity.
  - rewrite Hconf, map_app. cbn [map fst].
    apply NoDup_app;
      [exact (inv_nodup _ _ HI) | constructor; [intros []|constructor] |].
    intros x Hx [<-|[]]. apply includes_false in Hl. apply Hl.
    rewrite (inv_flat _ _ HI). now apply flat_fst.
  - intros c Hc. rewrite Hconf in Hc. apply in_app_or in Hc.
    destruct Hc as [Hc|[<-|[]]]; [exact (inv_declared _ _ HI c Hc)|].
    exact (findPair_declared l r p Hfind).
Qed.

Lemma Inv_selected (st : State) (newLeft newRight : option string) :
  Inv pairs st ->
  (forall l, newLeft = Some l -> JS.includes (matchedPairs st) l = false) ->
  (forall r, newRight = Some r -> JS.includes (matchedPairs st) r = false) ->
  Inv pairs {| selLeft := newLeft; selRight := newRight;
               matchedPairs := matchedPairs st |}.
Proof.
  intros HI Hl Hr. constructor; cbn [matchedPairs selLeft selRight];
    [exact (inv_flat _ _ HI) | exact (inv_nodup _ _ HI)
     | exact (inv_declared _ _ HI) | exact Hl | exact Hr].
Qed.

(** The selections [handleMatch] works with are not matched. *)
Lemma newSelection_fresh (st : State) (i : string) (side : Side) :
  Inv pairs st ->
  JS.includes (matchedPairs st) i = false ->
  (forall l, match side with left => Some i | right => selLeft st end = Some l ->
             JS.includes (matchedPairs st) l = false)
  /\ (forall r, match side with left => selRight st | right => Some i end = Some r ->
                JS.includes (matchedPairs st) r = false).
Proof.
  intros HI Hi. destruct side; split; intros x Hx;
    try (injection Hx as <-; exact Hi);
    [exact (inv_right _ _ HI x Hx) | exact (inv_left _ _ HI x Hx)].
Qed.

Lemma Inv_step (st : State) (ev : Event) :
  Inv pairs st -> Inv pairs (next (step pairs st ev)).
Proof.
  intros HI. destruct ev as [i side|]; cbn [step next].
  - unfold handleMatch.
    destruct (JS.includes (matchedPairs st) i) eqn:Hi; [exact HI|].
    destruct (newSelection_fresh st i side HI Hi) as [Hl Hr].
    destruct (match side with left => Some i | right => selLeft st end)
      as [l|] eqn:HL;
      destruct (match side with left => selRight st | right => Some i end)
        as [r|] eqn:HR;
      try (cbn [next]; now apply Inv_selected).
    destruct (JS.truthy (Some l) && JS.truthy (Some r));
      [|cbn [next]; now apply Inv_selected].
    destruct (findPair pairs l r) as [p|] eqn:Hfind;
      [|cbn [next]; now apply Inv_selected].
    cbn [next]. exact (proj1 (Inv_matched st l r p HI (Hl l eq_refl) Hfind)).
  - unfold clearSelections. apply Inv_selected; try exact HI; discriminate.
Qed.

Lemma Inv_run (evs : list Event) :
  forall st, Inv pairs st -> Inv pairs (run pairs st evs).
Proof.
  induction evs as [|ev evs IH]; intros st HI; [exact HI|].
  cbn [run fold_left]. apply IH. now apply Inv_step.
Qed.

(** When every entry of a list without repetition is declared and
    there are as many entries as declarations, every declaration is an
    entry. *)
Lemma all_declared_confirmed (cs : list (string * string)) :
  NoDup (map fst cs) ->
  (forall c, In c cs -> In c (map pairOf pairs)) ->
  List.length cs = List.length pairs ->
  forall p, In p pairs -> In (pairOf p) cs.
Proof.
  intros Hnd Hdecl Hlen p Hp.
  apply (NoDup_length_incl (NoDup_map_inv fst cs Hnd)
           (l' := map pairOf pairs)).
  - rewrite length_map. lia.
  - exact Hdecl.
  - now apply in_map.
Qed.

Lemma allConfirmed_true (st : State) :
  (forall p, In p pairs -> In (pairOf p) (confirmed (matchedPairs st))) ->
  allConfirmed pairs st = true.
Proof.
  intros H. unfold allConfirmed. apply forallb_forall. intros p Hp.
  apply existsb_exists. exists (pairOf p). split; [now apply H|].
  unfold pair_eqb. now rewrite !String.eqb_refl.
Qed.

(** The answer of a step from a state that satisfies the invariant. *)
Lemma step_answer (st : State) (ev : Event) (out : string) :
  Inv pairs st ->
  answered (step pairs st ev) = Some out ->
  out = "COMPLETE" /\ allConfirmed pairs (next (step pairs st ev)) = true.
Proof.
  intros HI. destruct ev as [i side|]; cbn [step answered next];
    [|discriminate].
  unfold handleMatch.
  destruct (JS.includes (matchedPairs st) i) eqn:Hi; [discriminate|].
  destruct (newSelection_fresh st i side HI Hi) as [Hl Hr].
  destruct (match side with left => Some i | right => selLeft st end)
    as [l|] eqn:HL;
    destruct (match side with left => selRight st | right => Some i end)
      as [r|] eqn:HR;
    try discriminate.
  destruct (JS.truthy (Some l) && JS.truthy (Some r)); [|discriminate].
  destruct (findPair pairs l r) as [p|] eqn:Hfind; [|discriminate].
  cbn [answered next].
  destruct (Z.eqb_spec
              (Z.of_nat (List.length (matchedPairs st ++ [l; r])%list))
              (Z.of_nat (List.length pairs) * 2)) as [Hall|_];
    [|discriminate].
  intros Hout. injection Hout as <-. split; [reflexivity|].
  destruct (Inv_matched st l r p HI (Hl l eq_refl) Hfind) as [HI' Hconf].
  apply allConfirmed_true. cbn [matchedPairs].
  apply all_declared_confirmed.
  - exact (inv_nodup _ _ HI').
  - exact (inv_declared _ _ HI').
  - pose proof (inv_flat _ _ HI') as Hflat. cbn [matchedPairs] in Hflat.
    apply (f_equal (@List.length string)) in Hflat.
    rewrite flat_length in Hflat. lia.
Qed.

End Matching.

Lemma confirmed_In (m : list string) (l r : string) :
  In (l, r) (ExerciseRenderer.confirmed m) -> In l m /\ In r m.
Proof.
  assert (H : forall n m, (List.length m <= n)%nat ->
                In (l, r) (ExerciseRenderer.confirmed m) -> In l m /\ In r m).
  { induction n as [|n IH]; intros [|x [|y m']] Hlen Hin;
      cbn in Hlen, Hin; try tauto; try lia.
    destruct Hin as [Heq|Hin].
    - injection Heq as -> ->. cbn. tauto.
    - destruct n as [|n]; [lia|].
      assert (Hle : (List.length m' <= S n)%nat) by lia.
      destruct (IH m' Hle Hin). cbn. tauto. }
  exact (H (List.length m) m (Nat.le_refl _)).
Qed.

(** C7. Along any run of presses and timeouts from the empty set of
    matched entries, a step that submits an answer submits ["COMPLETE"]
    and leaves every declared pair confirmed.  Pressing a matched word
    or definition changes nothing, in any state: neither the matched
    entries nor the pending selections, and no answer is submitted; so
    pressing the two sides of a confirmed pair again leaves the state as
    it was. *)
Theorem matching_complete_needs_all_pairs
  (pairs : list MatchingPair) (evs : list ExerciseRenderer.Event) :
  let st := ExerciseRenderer.run pairs ExerciseRenderer.initial evs in
  (forall ev out,
     ExerciseRenderer.answered (ExerciseRenderer.step pairs st ev) = Some out ->
     out = "COMPLETE"
     /\ ExerciseRenderer.allConfirmed pairs
          (ExerciseRenderer.next (ExerciseRenderer.step pairs st ev)) = true)
  /\ (forall s i side,
        JS.includes (ExerciseRenderer.matchedPairs s) i = true ->
        ExerciseRenderer.handleMatch pairs s i side
        = {| ExerciseRenderer.next := s;
             ExerciseRenderer.answered := None;
             ExerciseRenderer.armed := false |})
  /\ (forall s l r,
        In (l, r) (ExerciseRenderer.confirmed (ExerciseRenderer.matchedPairs s)) ->
        ExerciseRenderer.run pairs s
          [ ExerciseRenderer.Press l ExerciseRenderer.left;
            ExerciseRenderer.Press r ExerciseRenderer.right ] = s).
Proof.
  intros st. split; [|split].
  - intros ev out Hout. apply step_answer; [|exact Hout].
    apply Inv_run. apply Inv_initial.
  - intros s i side Hi. unfold ExerciseRenderer.handleMatch.
    now rewrite Hi.
  - intros s l r Hin. destruct (confirmed_In _ l r Hin) as [Hl Hr].
    apply includes_true in Hl, Hr.
    cbn [ExerciseRenderer.run fold_left ExerciseRenderer.step].
    unfold ExerciseRenderer.handleMatch. rewrite Hl.
    cbn [ExerciseRenderer.next]. now rewrite Hr.
Qed.

Lemma matching_complete_needs_all_pairs_witness :
  ExerciseRenderer.answered
    (ExerciseRenderer.step Sample.twoPairs
       (ExerciseRenderer.run Sample.twoPairs ExerciseRenderer.initial
          Sample.firstMatched)
       (ExerciseRenderer.Press "2" ExerciseRenderer.left))
  = Some "COMPLETE"
  /\ ExerciseRenderer.allConfirmed Sample.twoPairs
       (ExerciseRenderer.next
          (ExerciseRenderer.step Sample.twoPairs
             (ExerciseRenderer.run Sample.twoPairs ExerciseRenderer.initial
                Sample.firstMatched)
             (ExerciseRenderer.Press "2" ExerciseRenderer.left)))
     = true.
Proof.
  split; [reflexivity|].
  exact (proj2 (proj1 (matching_complete_needs_all_pairs Sample.twoPairs
                         Sample.firstMatched)
                  (ExerciseRenderer.Press "2" ExerciseRenderer.left)
                  "COMPLETE" eq_refl)).
Defined.

(* ================================================================== *)
(** * Further properties *)

(** ** Identifiers of the generated items *)

Lemma string_of_uint_noHyphen (d : Decimal.uint) :
  More.noHyphen (DecimalString.NilEmpty.string_of_uint d) = true.
Proof. induction d; cbn; auto. Qed.

Lemma decimal_noHyphen (n : N) :
  More.noHyphen (GeminiService.decimal n) = true.
Proof. apply string_of_uint_noHyphen. Qed.

Lemma decimal_inj (a b : N) :
  GeminiService.decimal a = GeminiService.decimal b -> a = b.
Proof.
  unfold GeminiService.decimal. intros H.
  apply DecimalN.Unsigned.to_uint_inj.
  pose proof (DecimalString.NilEmpty.usu (N.to_uint a)) as Ha.
  pose proof (DecimalString.NilEmpty.usu (N.to_uint b)) as Hb.
  rewrite H in Ha. congruence.
Qed.

Lemma append_cancel_l (p x y : string) : p ++ x = p ++ y -> x = y.
Proof.
  induction p as [|c p IH]; cbn; intros H; [exact H|].
  injection H as H. exact (IH H).
Qed.

(** Two strings that agree up to and after their first hyphen. *)
Lemma split_hyphen (a : string) :
  forall b x y,
    More.noHyphen a = true -> More.noHyphen b = true ->
    a ++ "-" ++ x = b ++ "-" ++ y -> a = b /\ x = y.
Proof.
  induction a as [|c a IH]; intros [|d b] x y Ha Hb H; cbn in *.
  - injection H as H. now split.
  - injection H as Hc _. subst d. discriminate Hb.
  - injection H as Hc _. subst c. discriminate Ha.
  - injection H as Hc H. subst d.
    apply andb_true_iff in Ha, Hb.
    destruct (IH b x y (proj2 Ha) (proj2 Hb) H) as [-> ->]. now split.
Qed.

Lemma stamp_id_inj (prefix : string) (t t' : N) (i j : nat) :
  prefix ++ GeminiService.decimal t ++ "-"
         ++ GeminiService.decimal (N.of_nat i)
  = prefix ++ GeminiService.decimal t' ++ "-"
           ++ GeminiService.decimal (N.of_nat j) ->
  i = j.
Proof.
  intros H. apply append_cancel_l in H.
  apply split_hyphen in H; try apply decimal_noHyphen.
  destruct H as [_ H]. apply decimal_inj in H. lia.
Qed.

Lemma stamp_ids_from (prefix : string) (now : nat -> N)
      (rawData : list VocabularyItem) :
  forall index i,
    In i (map id (GeminiService.stamp prefix now index rawData)) ->
    exists j, (index <= j)%nat
              /\ i = prefix ++ GeminiService.decimal (now j) ++ "-"
                            ++ GeminiService.decimal (N.of_nat j).
Proof.
  induction rawData as [|item rest IH]; intros index i Hin;
    cbn [GeminiService.stamp map In] in Hin; [destruct Hin|].
  destruct Hin as [<-|Hin].
  - exists index. split; [lia | reflexivity].
  - destruct (IH (S index) i Hin) as (j & Hj & Hi).
    exists j. split; [lia | exact Hi].
Qed.

Lemma stamp_ids_distinct (prefix : string) (now : nat -> N)
      (rawData : list VocabularyItem) :
  forall index,
    NoDup (map id (GeminiService.stamp prefix now index rawData)).
Proof.
  induction rawData as [|item rest IH]; intros index;
    cbn [GeminiService.stamp map]; constructor; [|apply IH].
  intros Hin. destruct (stamp_ids_from _ _ _ _ _ Hin) as (j & Hj & Heq).
  cbn [id GeminiService.withId] in Heq.
  apply stamp_id_inj in Heq. lia.
Qed.

Lemma stamp_keeps (prefix : string) (now : nat -> N)
      (rawData : list VocabularyItem) :
  forall index,
    map (fun v => GeminiService.withId v "")
        (GeminiService.stamp prefix now index rawData)
    = map (fun v => GeminiService.withId v "") rawData.
Proof.
  induction rawData as [|item rest IH]; intros index;
    cbn [GeminiService.stamp map]; [reflexivity|].
  now rewrite IH.
Qed.

(** X1. The items that [generateVocabularySet] and [generateGameWords]
    return have pairwise distinct identifiers, whatever [Date.now()]
    returns from call to call and whatever identifiers the reply
    carried; everything else of the items is kept, in the order of the
    reply. *)
Theorem generated_ids_distinct
  (now : nat -> N) (rawData : list VocabularyItem) :
  NoDup (map id (GeminiService.generateVocabularySet now rawData))
  /\ NoDup (map id (GeminiService.generateGameWords now rawData))
  /\ map (fun v => GeminiService.withId v "")
         (GeminiService.generateVocabularySet now rawData)
     = map (fun v => GeminiService.withId v "") rawData
  /\ map (fun v => GeminiService.withId v "")
         (GeminiService.generateGameWords now rawData)
     = map (fun v => GeminiService.withId v "") rawData.
Proof.
  repeat split; first [apply stamp_ids_distinct | apply stamp_keeps].
Qed.

Example generated_ids_sample :
  map id (GeminiService.generateVocabularySet More.frozenClock More.reply)
  = [ "vocab-1700000000000-0"; "vocab-1700000000000-1";
      "vocab-1700000000000-2" ].
Proof. vm_compute. reflexivity. Qed.

(** ** The generator on sets of any size *)

Lemma find_unique_id (vocab : list VocabularyItem) (item : VocabularyItem) :
  NoDup (map id vocab) -> In item vocab ->
  find (fun v => String.eqb (id v) (id item)) vocab = Some item.
Proof.
  induction vocab as [|v vocab IH]; intros Hnd Hin; [destruct Hin|].
  cbn [map] in Hnd. apply NoDup_cons_iff in Hnd. destruct Hnd as [Hv Hnd].
  cbn [find]. destruct Hin as [->|Hin].
  - now rewrite String.eqb_refl.
  - destruct (String.eqb_spec (id v) (id item)) as [Heq|_]; [|now apply IH].
    elim Hv. rewrite Heq. now apply in_map.
Qed.

Lemma In_firstn {A} (n : nat) (l : list A) (x : A) :
  In x (firstn n l) -> In x l.
Proof.
  intros H. rewrite <- (firstn_skipn n l). apply in_or_app. now left.
Qed.

Lemma filter_shorter {A} (f : A -> bool) (l : list A) :
  (List.length (filter f l) <= List.length l)%nat.
Proof.
  induction l as [|x l IH]; cbn; [lia|]. destruct (f x); cbn; lia.
Qed.

(** What the generator puts into an exercise with options. *)
Lemma generated_options {Rng : Type}
      (sortRandom : list string -> Rng -> list string * Rng)
      (vocab : list VocabularyItem) (g : Rng)
      (e : Exercise) (opts : list string) :
  In e (fst (App.createExercises sortRandom vocab g)) ->
  options e = Some opts ->
  exists item g',
    In item vocab /\ targetWordId e = id item
    /\ Gen.hasOptions (type e) = true
    /\ opts = fst (sortRandom (Gen.answerOf item (type e)
                               :: Gen.distractorsOf vocab item (type e)) g')
    /\ correctOptionIndex e
       = Some (JS.indexOf opts (Gen.answerOf item (type e))).
Proof.
  intros He Hopts. rewrite createExercises_blocks in He.
  apply in_app_or in He.
  destruct He as [He|[<-|[]]]; [|discriminate Hopts].
  destruct (blocks_In sortRandom vocab vocab e g He)
    as (item & g' & Hitem & Hin).
  exists item.
  cbn [Gen.itemExercises App.pushItem JS.push fst snd app In] in Hin.
  destruct Hin as [<-|[<-|[<-|[<-|[<-|[]]]]]];
    cbn [options] in Hopts; try discriminate Hopts;
    injection Hopts as <-; eexists; repeat split; exact Hitem.
Qed.

Lemma others_spec (vocab : list VocabularyItem) (item v : VocabularyItem) :
  In v (App.others vocab item) <-> In v vocab /\ id v <> id item.
Proof.
  unfold App.others. rewrite filter_In, negb_true_iff, String.eqb_neq.
  reflexivity.
Qed.

(** X2. For a vocabulary set of any size [n] the generator returns
    [5 * n + 1] exercises, the kinds in the fixed order item by item and
    the matching exercise last, with [n] pairs; for the empty set that
    is the matching exercise alone, with no pair, and no shuffle is
    made. *)
Theorem createExercises_any_size
  (Rng : Type) (sortRandom : list string -> Rng -> list string * Rng)
  (vocab : list VocabularyItem) (g : Rng) :
  let exs := fst (App.createExercises sortRandom vocab g) in
  List.length exs = (5 * List.length vocab + 1)%nat
  /\ map Gen.kindAndTarget exs
     = (flat_map Gen.fiveKinds vocab ++ [(Matching, "all")])%list
  /\ nth_error exs (5 * List.length vocab) = Some (App.matchAll vocab)
  /\ option_map (@List.length MatchingPair)
                (matchingPairs (App.matchAll vocab))
     = Some (List.length vocab)
  /\ App.createExercises sortRandom [] g = ([App.matchAll []], g).
Proof.
  cbv zeta. split; [apply createExercises_length|].
  split; [apply createExercises_kinds|].
  split; [apply createExercises_last|].
  split; [cbn; now rewrite length_map | reflexivity].
Qed.

(** X3. Under a [sort] that rearranges, the options of a generated
    exercise are one more than the items with another identifier, and
    four at most: a set of fewer than four items gives fewer than four
    options.  Every option is the correct answer or the corresponding
    field of an item of the set with another identifier. *)
Theorem options_size
  (Rng : Type) (sortRandom : list string -> Rng -> list string * Rng)
  (Hsort : Gen.permutes sortRandom)
  (vocab : list VocabularyItem) (g : Rng)
  (e : Exercise) (opts : list string)
  (He : In e (fst (App.createExercises sortRandom vocab g)))
  (Hopts : options e = Some opts) :
  exists item,
    In item vocab /\ targetWordId e = id item
    /\ List.length opts
       = (1 + Nat.min 3 (List.length (App.others vocab item)))%nat
    /\ (List.length opts <= 4)%nat
    /\ (List.length opts <= List.length vocab)%nat
    /\ forall o, In o opts ->
         o = Gen.answerOf item (type e)
         \/ exists v, In v vocab /\ id v <> id item
                      /\ o = Gen.answerOf v (type e).
Proof.
  destruct (generated_options sortRandom vocab g e opts He Hopts)
    as (item & g' & Hitem & Htarget & Hkind & Heq & _).
  exists item. split; [exact Hitem|]. split; [exact Htarget|].
  pose proof (Hsort (Gen.answerOf item (type e)
                     :: Gen.distractorsOf vocab item (type e)) g') as Hperm.
  rewrite <- Heq in Hperm.
  assert (Hlen : List.length opts
                 = (1 + Nat.min 3 (List.length (App.others vocab item)))%nat).
  { rewrite <- (Permutation_length Hperm). cbn [List.length].
    unfold Gen.distractorsOf.
    destruct (type e); rewrite length_firstn, length_map; reflexivity. }
  assert (Hothers : (List.length (App.others vocab item)
                     < List.length vocab)%nat).
  { unfold App.others. clear - Hitem.
    induction vocab as [|v vocab IH]; [destruct Hitem|].
    cbn [filter List.length]. destruct Hitem as [->|Hin].
    - rewrite String.eqb_refl. cbn [negb].
      pose proof (filter_shorter
                    (fun v => negb (String.eqb (id v) (id item))) vocab).
      lia.
    - specialize (IH Hin).
      destruct (negb (String.eqb (id v) (id item))); cbn [List.length]; lia. }
  split; [exact Hlen|]. split; [lia|]. split; [lia|].
  intros o Ho. apply (Permutation_in _ (Permutation_sym Hperm)) in Ho.
  destruct Ho as [<-|Ho]; [now left|]. right.
  unfold Gen.distractorsOf in Ho.
  assert (Hv : exists v, In v (App.others vocab item)
                         /\ o = Gen.answerOf v (type e)).
  { destruct (type e); apply In_firstn in Ho; apply in_map_iff in Ho;
      destruct Ho as (v & <- & Hv); exists v; now split. }
  destruct Hv as (v & Hv & ->). apply others_spec in Hv.
  exists v. tauto.
Qed.

Lemma options_size_witness :
  exists item,
    In item Sample.animals /\ targetWordId Sample.guessCat = id item
    /\ (List.length ["con ca"; "con chim"; "con cho"; "con meo"] <= 4)%nat.
Proof.
  destruct (options_size nat Sample.reverseOrder reverseOrder_permutes
              Sample.animals 0%nat Sample.guessCat
              ["con ca"; "con chim"; "con cho"; "con meo"]
              ltac:(vm_compute; right; left; reflexivity) eq_refl)
    as (item & Hin & Htarget & _ & Hle & _).
  exists item. repeat split; assumption.
Defined.

(** ** From the form to the verdict *)

(** X4. In a lesson on items with distinct identifiers, under a [sort]
    that rearranges, the option at [correctOptionIndex] is the correct
    answer of the item the exercise targets; pressing any non-empty
    option and then "Check Answer" submits its text, and the text is
    accepted, for ten points, exactly when it is the correct answer. *)
Theorem marked_option_is_accepted
  (Rng : Type) (sortRandom : list string -> Rng -> list string * Rng)
  (generateHint : VocabularyItem -> string -> ExerciseType -> option string)
  (Hsort : Gen.permutes sortRandom)
  (vocab : list VocabularyItem) (g : Rng) (st : App.State)
  (e : Exercise) (opts : list string) (c : Z)
  (Hids : NoDup (map id vocab))
  (Hvocab : App.vocabList st = vocab)
  (Hexs : App.exercises st = fst (App.createExercises sortRandom vocab g))
  (Hcur : JS.index (App.exercises st) (App.currentExerciseIndex st) = Some e)
  (Hfree : More.isSubmitting st = false)
  (Hopts : options e = Some opts)
  (Hc : correctOptionIndex e = Some c) :
  exists item,
    In item vocab /\ targetWordId e = id item
    /\ nth_error opts (Z.to_nat c) = Some (Gen.answerOf item (type e))
    /\ forall idx o,
         nth_error opts idx = Some o -> o <> "" ->
         ExerciseForm.checkAnswer e (More.isSubmitting st)
           (ExerciseForm.clickOption e (More.isSubmitting st) idx
              ExerciseForm.initial) = Some o
         /\ exists st',
              App.handleAnswer generateHint st o = Some st'
              /\ (App.feedbackIsCorrect st' = true
                  <-> o = Gen.answerOf item (type e))
              /\ xp (App.userState st')
                 = xp (App.userState st)
                   + (if String.eqb o (Gen.answerOf item (type e))
                      then 10 else 0).
Proof.
  assert (He : In e (fst (App.createExercises sortRandom vocab g))).
  { rewrite <- Hexs. destruct (index_Some _ _ _ Hcur) as [_ Hnth].
    exact (nth_error_In _ _ Hnth). }
  destruct (generated_options sortRandom vocab g e opts He Hopts)
    as (item & g' & Hitem & Htarget & Hkind & Heq & Hidx).
  exists item. split; [exact Hitem|]. split; [exact Htarget|].
  assert (Hin : In (Gen.answerOf item (type e)) opts).
  { rewrite Heq. apply (Permutation_in _ (Hsort _ g')). now left. }
  rewrite Hc in Hidx. injection Hidx as ->.
  split; [exact (proj1 (proj2 (indexOf_In _ _ Hin)))|].
  intros idx o Hnth Hne.
  assert (Hnf : type e <> Flashcard)
    by (intros H; rewrite H in Hkind; discriminate Hkind).
  assert (Hnb : ExerciseType_eqb (type e) FillBlank = false)
    by (destruct (type e); try reflexivity; discriminate Hkind).
  assert (Htruthy : JS.truthy (Some o) = true).
  { cbn. apply negb_true_iff. now apply String.eqb_neq. }
  split.
  - rewrite Hfree. unfold ExerciseForm.clickOption. rewrite Hopts, Hnth.
    unfold ExerciseForm.checkAnswer, ExerciseForm.handleSubmit.
    cbn [ExerciseForm.selectedOption]. now rewrite Hnb, Htruthy.
  - destruct (handleAnswer_scored generateHint st e o Hcur Hnf)
      as (st' & Hst' & Hverdict & _ & _ & _ & Hxp).
    assert (Hval : App.validate e (App.findTarget (App.vocabList st) e) o
                   = String.eqb o (Gen.answerOf item (type e))).
    { unfold App.findTarget. rewrite Hvocab, Htarget.
      rewrite (find_unique_id vocab item Hids Hitem). unfold App.validate.
      destruct (type e); try discriminate Hkind; reflexivity. }
    rewrite Hval in Hverdict, Hxp.
    exists st'. split; [exact Hst'|]. split; [|exact Hxp].
    rewrite Hverdict. apply String.eqb_eq.
Qed.

Lemma marked_option_is_accepted_witness :
  exists item,
    In item Sample.animals
    /\ nth_error ["con meo"; "con cho"; "con chim"; "con ca"] (Z.to_nat 0)
       = Some (Gen.answerOf item GuessMeaning).
Proof.
  destruct (marked_option_is_accepted unit Sample.keepOrder Sample.noHint
              keepOrder_permutes Sample.animals tt
              (Sample.jump Sample.lesson 1)
              {| exId := "gm-1"; type := GuessMeaning; targetWordId := "1";
                 question := "cat";
                 options := Some ["con meo"; "con cho"; "con chim"; "con ca"];
                 correctOptionIndex := Some 0; matchingPairs := None |}
              ["con meo"; "con cho"; "con chim"; "con ca"] 0
              ltac:(vm_compute; repeat constructor; cbn; intuition discriminate)
              eq_refl eq_refl eq_refl eq_refl eq_refl eq_refl)
    as (item & Hin & _ & Hnth & _).
  exists item. split; assumption.
Defined.

(** *** Letter case and padding in the fill-blank input *)

Lemma lowerUnit_white (c : ascii) :
  JS.isWhiteSpace c = true -> JS.lowerUnit c = c.
Proof.
  destruct c as [[] [] [] [] [] [] [] []]; vm_compute; intros H;
    try discriminate H; reflexivity.
Qed.

Lemma lowerUnit_idem (c : ascii) :
  JS.lowerUnit (JS.lowerUnit c) = JS.lowerUnit c.
Proof. destruct c as [[] [] [] [] [] [] [] []]; vm_compute; reflexivity. Qed.

Lemma toLowerCase_idem (s : string) :
  JS.toLowerCase (JS.toLowerCase s) = JS.toLowerCase s.
Proof.
  induction s as [|c s IH]; cbn; [reflexivity|].
  now rewrite lowerUnit_idem, IH.
Qed.

Lemma toLowerCase_app (a b : string) :
  JS.toLowerCase (a ++ b) = JS.toLowerCase a ++ JS.toLowerCase b.
Proof. induction a as [|c a IH]; cbn; [reflexivity | now rewrite IH]. Qed.

Lemma toLowerCase_white (a : string) :
  Gen.allWhite a = true -> JS.toLowerCase a = a.
Proof.
  induction a as [|c a IH]; cbn; [reflexivity|]. intros H.
  apply andb_true_iff in H. destruct H as [Hc Ha].
  now rewrite (lowerUnit_white c Hc), (IH Ha).
Qed.

Lemma trimStart_white (a : string) :
  Gen.allWhite a = true -> JS.trimStart a = "".
Proof.
  induction a as [|c a IH]; cbn; [reflexivity|]. intros H.
  apply andb_true_iff in H. destruct H as [Hc Ha]. rewrite Hc. now apply IH.
Qed.

Lemma trimStart_white_app (a s : string) :
  Gen.allWhite a = true -> JS.trimStart (a ++ s) = JS.trimStart s.
Proof.
  induction a as [|c a IH]; cbn; [reflexivity|]. intros H.
  apply andb_true_iff in H. destruct H as [Hc Ha]. rewrite Hc. now apply IH.
Qed.

Lemma trimEnd_white (b : string) :
  Gen.allWhite b = true -> JS.trimEnd b = "".
Proof.
  induction b as [|c b IH]; cbn; [reflexivity|]. intros H.
  apply andb_true_iff in H. destruct H as [Hc Hb].
  now rewrite (IH Hb), Hc.
Qed.

Lemma trimEnd_app_white (s b : string) :
  Gen.allWhite b = true -> JS.trimEnd (s ++ b) = JS.trimEnd s.
Proof.
  intros Hb. induction s as [|c s IH]; cbn [append JS.trimEnd].
  - now apply trimEnd_white.
  - now rewrite IH.
Qed.

Lemma trim_app_white (s b : string) :
  Gen.allWhite b = true -> JS.trim (s ++ b) = JS.trim s.
Proof.
  intros Hb. unfold JS.trim. induction s as [|c s IH].
  - cbn [append]. now rewrite (trimStart_white b Hb).
  - cbn [append JS.trimStart]. destruct (JS.isWhiteSpace c); [exact IH|].
    change (String c (s ++ b)) with (String c s ++ b).
    now apply trimEnd_app_white.
Qed.

Lemma trim_padding (a s b : string) :
  Gen.allWhite a = true -> Gen.allWhite b = true ->
  JS.trim (a ++ s ++ b) = JS.trim s.
Proof.
  intros Ha Hb. unfold JS.trim at 1. rewrite trimStart_white_app by exact Ha.
  now apply trim_app_white.
Qed.

Lemma trim_white (w : string) : Gen.allWhite w = true -> JS.trim w = "".
Proof. intros H. unfold JS.trim. now rewrite trimStart_white. Qed.

(** X5. For a fill-blank exercise whose target is found, white space
    around the input and lower-casing the input never change the
    verdict; so the headword is accepted with any white space around
    it. *)
Theorem fill_blank_ignores_padding
  (generateHint : VocabularyItem -> string -> ExerciseType -> option string)
  (st : App.State) (ex : Exercise) (t : VocabularyItem)
  (a b : string)
  (Hex : JS.index (App.exercises st) (App.currentExerciseIndex st) = Some ex)
  (Hkind : type ex = FillBlank)
  (Ht : App.findTarget (App.vocabList st) ex = Some t)
  (Ha : Gen.allWhite a = true) (Hb : Gen.allWhite b = true) :
  (forall x, More.verdict generateHint st (a ++ x ++ b)
             = More.verdict generateHint st x)
  /\ (forall x, More.verdict generateHint st (JS.toLowerCase x)
                = More.verdict generateHint st x)
  /\ More.verdict generateHint st (a ++ word t ++ b) = Some true.
Proof.
  assert (Hnf : type ex <> Flashcard) by (rewrite Hkind; discriminate).
  assert (Hv : forall x,
             More.verdict generateHint st x
             = Some (String.eqb (JS.trim (JS.toLowerCase x))
                                (JS.trim (JS.toLowerCase (word t))))).
  { intros x. unfold More.verdict.
    destruct (handleAnswer_scored generateHint st ex x Hex Hnf)
      as (st' & Hst' & Hverdict & _).
    rewrite Hst'. cbn [option_map]. rewrite Hverdict.
    unfold App.validate. now rewrite Hkind, Ht. }
  assert (Hpad : forall x, JS.trim (JS.toLowerCase (a ++ x ++ b))
                           = JS.trim (JS.toLowerCase x)).
  { intros x. rewrite !toLowerCase_app.
    rewrite (toLowerCase_white a Ha), (toLowerCase_white b Hb).
    now apply trim_padding. }
  split; [|split].
  - intros x. now rewrite !Hv, Hpad.
  - intros x. now rewrite !Hv, toLowerCase_idem.
  - now rewrite Hv, Hpad, String.eqb_refl.
Qed.

Lemma fill_blank_ignores_padding_witness :
  More.verdict Sample.noHint (Sample.jump Sample.lesson 3)
    (JS.newline ++ "cat" ++ "  ") = Some true.
Proof.
  exact (proj2 (proj2 (fill_blank_ignores_padding Sample.noHint
                         (Sample.jump Sample.lesson 3) _
                         (Sample.item "1" "cat" "con meo")
                         JS.newline "  " eq_refl eq_refl eq_refl
                         eq_refl eq_refl))).
Defined.

(** X6. The form submits nothing in three cases: for a fill-blank
    input of white space only, for an exercise with options while no
    option, or the empty one, is selected, and for any exercise while
    an answer is being judged; in that last case pressing an option
    does not change the selection either. *)
Theorem nothing_submitted
  (exercise : Exercise) (form : ExerciseForm.State) :
  (type exercise = FillBlank ->
   Gen.allWhite (ExerciseForm.fillBlankInput form) = true ->
   forall isSubmitting,
     ExerciseForm.checkAnswer exercise isSubmitting form = None)
  /\ (type exercise <> FillBlank ->
      JS.truthy (ExerciseForm.selectedOption form) = false ->
      forall isSubmitting,
        ExerciseForm.checkAnswer exercise isSubmitting form = None
        /\ ExerciseForm.handleSubmit exercise form = None)
  /\ ExerciseForm.checkAnswer exercise true form = None
  /\ forall idx, ExerciseForm.clickOption exercise true idx form = form.
Proof.
  unfold ExerciseForm.checkAnswer, ExerciseForm.handleSubmit.
  split; [|split; [|split]].
  - intros Hkind Hwhite isSubmitting. rewrite Hkind. cbn [ExerciseType_eqb].
    rewrite (trim_white _ Hwhite). reflexivity.
  - intros Hkind Hnone isSubmitting.
    assert (Hnb : ExerciseType_eqb (type exercise) FillBlank = false)
      by (destruct (type exercise); try reflexivity; now elim Hkind).
    rewrite Hnb, Hnone. split; reflexivity.
  - destruct (ExerciseType_eqb (type exercise) FillBlank);
      now rewrite orb_true_r.
  - intros idx. unfold ExerciseForm.clickOption.
    destruct (options exercise) as [opts|]; [|reflexivity].
    destruct (nth_error opts idx); reflexivity.
Qed.

(** ** Attempts at one exercise *)

Section Attempts.

Variable generateHint : VocabularyItem -> string -> ExerciseType -> option string.

Lemma index_None {A} (l : list A) (i : Z) :
  JS.index l i = None <-> ~ (0 <= i < Z.of_nat (List.length l)).
Proof.
  unfold JS.index. destruct (Z.ltb_spec i 0) as [Hneg|Hpos].
  - split; [lia | reflexivity].
  - rewrite nth_error_None. lia.
Qed.

End Attempts.

(** X7. [handleAnswer] raises exactly when the index is not that of an
    exercise: on the summary screen, where it is -1, and before any
    exercise is loaded; otherwise it returns, whatever the answer and
    whether or not the hint request fails. *)
Theorem handleAnswer_raises_off_session
  (generateHint : VocabularyItem -> string -> ExerciseType -> option string)
  (st : App.State) (answer : string) :
  (App.handleAnswer generateHint st answer = None
   <-> ~ (0 <= App.currentExerciseIndex st
               < Z.of_nat (List.length (App.exercises st))))
  /\ (App.currentExerciseIndex st = -1 ->
      App.handleAnswer generateHint st answer = None)
  /\ (App.exercises st = [] ->
      App.handleAnswer generateHint st answer = None).
Proof.
  assert (Hiff : App.handleAnswer generateHint st answer = None
                 <-> JS.index (App.exercises st) (App.currentExerciseIndex st)
                     = None).
  { unfold App.handleAnswer.
    destruct (JS.index (App.exercises st) (App.currentExerciseIndex st))
      as [ex|]; [|tauto].
    destruct (ExerciseType_eqb (type ex) Flashcard);
      [split; discriminate|].
    destruct (App.validate ex (App.findTarget (App.vocabList st) ex) answer);
      split; discriminate. }
  rewrite Hiff, index_None. split; [reflexivity|]. split.
  - intros H. lia.
  - intros H. rewrite H. cbn. lia.
Qed.

(** X8. However many refused answers are given to a scored exercise,
    each followed by "try again", the session stays at that exercise
    with the same points, and no feedback is left on screen; the right
    answer given afterwards is accepted and adds ten points. *)
Theorem misses_cost_nothing
  (generateHint : VocabularyItem -> string -> ExerciseType -> option string)
  (st : App.State) (ex : Exercise) (answers : list string) (right : string)
  (Hex : JS.index (App.exercises st) (App.currentExerciseIndex st) = Some ex)
  (Hkind : type ex <> Flashcard)
  (Hwrong : Forall (fun a =>
                      App.validate ex (App.findTarget (App.vocabList st) ex) a
                      = false) answers)
  (Hright : App.validate ex (App.findTarget (App.vocabList st) ex) right
            = true) :
  exists st',
    More.attempts generateHint answers st = Some st'
    /\ App.userState st' = App.userState st
    /\ App.currentExerciseIndex st' = App.currentExerciseIndex st
    /\ App.exercises st' = App.exercises st
    /\ App.vocabList st' = App.vocabList st
    /\ (answers <> [] -> App.feedback st' = None)
    /\ exists st'',
         App.handleAnswer generateHint st' right = Some st''
         /\ App.feedbackIsCorrect st'' = true
         /\ xp (App.userState st'') = xp (App.userState st) + 10
         /\ App.currentExerciseIndex st'' = App.currentExerciseIndex st.
Proof.
  revert st Hex Hwrong Hright.
  induction answers as [|a answers IH]; intros st Hex Hwrong Hright.
  - exists st. cbn [More.attempts]. repeat (split; [reflexivity|]).
    split; [intros H; now elim H|].
    destruct (handleAnswer_scored generateHint st ex right Hex Hkind)
      as (st2 & Hst2 & Hverdict & _ & Hi & _ & Hxp).
    rewrite Hright in Hverdict, Hxp. exists st2. repeat split; assumption.
  - apply Forall_cons_iff in Hwrong. destruct Hwrong as [Ha Hwrong].
    cbn [More.attempts]. unfold App.handleAnswer at 1. rewrite Hex.
    rewrite (type_not_Flashcard ex Hkind), Ha.
    match goal with
    | |- exists st', More.attempts _ _ ?s = _ /\ _ =>
        destruct (IH s) as (st' & Hrun & Hu & Hi & He & Hv & Hf & Hlast)
    end; try assumption.
    exists st'. split; [exact Hrun|].
    cbn [App.retryExercise App.userState App.currentExerciseIndex
         App.exercises App.vocabList] in Hu, Hi, He, Hv, Hlast.
    repeat (split; [assumption|]).
    split; [|exact Hlast].
    intros _. destruct answers as [|a' answers'].
    + cbn [More.attempts] in Hrun. injection Hrun as <-. reflexivity.
    + apply Hf. discriminate.
Qed.

Lemma misses_cost_nothing_witness :
  exists st',
    More.attempts Sample.noHint ["con cho"; "Con meo"; ""]
      (Sample.jump Sample.lesson 1) = Some st'
    /\ App.userState st' = Sample.learner
    /\ App.currentExerciseIndex st' = 1.
Proof.
  destruct (misses_cost_nothing Sample.noHint (Sample.jump Sample.lesson 1) _
              ["con cho"; "Con meo"; ""] "con meo" eq_refl
              ltac:(discriminate)
              ltac:(repeat constructor) eq_refl)
    as (st' & Hrun & Hu & Hi & _).
  exists st'. repeat split; assumption.
Defined.

(** ** The leaderboard *)

Section LeaderboardFacts.

Import Leaderboard.

Lemma In_skipn {A} (n : nat) (l : list A) (x : A) :
  In x (skipn n l) -> In x l.
Proof.
  intros H. rewrite <- (firstn_skipn n l). apply in_or_app. now right.
Qed.

Lemma insert_perm (e : LeaderboardEntry) (l : list LeaderboardEntry) :
  Permutation (e :: l) (insert e l).
Proof.
  induction l as [|x l IH]; cbn [insert]; [apply Permutation_refl|].
  destruct (score e <? score x); [|apply Permutation_refl].
  eapply Permutation_trans; [apply perm_swap|]. now apply perm_skip.
Qed.

Lemma sort_perm (l : list LeaderboardEntry) : Permutation l (sort l).
Proof.
  induction l as [|e l IH]; cbn [sort fold_right]; [constructor|].
  eapply Permutation_trans; [apply perm_skip, IH | apply insert_perm].
Qed.

Lemma insert_sorted (e : LeaderboardEntry) (l : list LeaderboardEntry) :
  StronglySorted byScore l -> StronglySorted byScore (insert e l).
Proof.
  induction l as [|x l IH]; intros Hs; cbn [insert].
  - repeat constructor.
  - apply StronglySorted_inv in Hs. destruct Hs as [Hl Hx].
    destruct (Z.ltb_spec (score e) (score x)) as [Hlt|Hge].
    + constructor; [now apply IH|].
      apply Forall_forall. intros y Hy.
      apply (Permutation_in _ (Permutation_sym (insert_perm e l))) in Hy.
      destruct Hy as [<-|Hy]; [unfold byScore; lia|].
      exact (proj1 (Forall_forall _ _) Hx y Hy).
    + constructor; [now constructor|].
      constructor; [unfold byScore; lia|].
      apply Forall_forall. intros y Hy.
      pose proof (proj1 (Forall_forall _ _) Hx y Hy) as Hxy.
      unfold byScore in *. lia.
Qed.

Lemma sort_sorted (l : list LeaderboardEntry) :
  StronglySorted byScore (sort l).
Proof.
  induction l as [|e l IH]; cbn [sort fold_right]; [constructor|].
  now apply insert_sorted.
Qed.

(** Entries of one score keep their order: the sort is stable. *)
Lemma insert_withScore (s : Z) (e : LeaderboardEntry)
      (l : list LeaderboardEntry) :
  StronglySorted byScore l ->
  withScore s (insert e l) = withScore s (e :: l).
Proof.
  induction l as [|x l IH]; intros Hs; cbn [insert]; [reflexivity|].
  apply StronglySorted_inv in Hs. destruct Hs as [Hl Hx].
  destruct (Z.ltb_spec (score e) (score x)) as [Hlt|Hge]; [|reflexivity].
  unfold withScore in *. cbn [filter] in *. rewrite (IH Hl).
  destruct (Z.eqb_spec (score x) s) as [Hxs|_];
    destruct (Z.eqb_spec (score e) s) as [Hes|_]; try reflexivity.
  lia.
Qed.

Lemma sort_stable (s : Z) (l : list LeaderboardEntry) :
  withScore s (sort l) = withScore s l.
Proof.
  induction l as [|e l IH]; [reflexivity|].
  cbn [sort fold_right]. rewrite insert_withScore by apply sort_sorted.
  unfold withScore in *. cbn [filter]. fold (sort l). now rewrite IH.
Qed.

Lemma filter_firstn {A} (f : A -> bool) (n : nat) (l : list A) :
  filter f (firstn n l)
  = firstn (List.length (filter f (firstn n l))) (filter f l).
Proof.
  revert n. induction l as [|x l IH]; intros [|n]; cbn; try reflexivity.
  destruct (f x); cbn; [f_equal|]; apply IH.
Qed.

Lemma sorted_split (n : nat) (l : list LeaderboardEntry) :
  StronglySorted byScore l ->
  forall a b, In a (firstn n l) -> In b (skipn n l) -> score b <= score a.
Proof.
  revert n. induction l as [|x l IH]; intros [|n] Hs a b Ha Hb;
    cbn in Ha, Hb; try tauto.
  apply StronglySorted_inv in Hs. destruct Hs as [Hl Hx].
  destruct Ha as [<-|Ha].
  - apply (proj1 (Forall_forall _ _) Hx). exact (In_skipn n l b Hb).
  - exact (IH n Hl a b Ha Hb).
Qed.

End LeaderboardFacts.

Lemma StronglySorted_firstn {A} (R : A -> A -> Prop) (n : nat) (l : list A) :
  StronglySorted R l -> StronglySorted R (firstn n l).
Proof.
  revert n. induction l as [|x l IH]; intros [|n] Hs; cbn; try constructor.
  - apply IH. now apply StronglySorted_inv in Hs.
  - apply StronglySorted_inv in Hs. destruct Hs as [_ Hx].
    apply Forall_forall. intros y Hy.
    exact (proj1 (Forall_forall _ _) Hx y (In_firstn n l y Hy)).
Qed.

(** X9. The board shows the ten highest scores, or all when there are
    fewer: the shown entries are stored entries, in descending order of
    score, and every entry left out has a score not above any shown
    one; shown and left-out entries together are the stored ones. *)
Theorem leaderboard_top_ten (entries : list LeaderboardEntry) :
  let shown := Leaderboard.sortedEntries entries in
  List.length shown = Nat.min 10 (List.length entries)
  /\ StronglySorted Leaderboard.byScore shown
  /\ (forall e, In e shown -> In e entries)
  /\ exists rest,
       Permutation entries (shown ++ rest)
       /\ forall a b, In a shown -> In b rest -> score b <= score a.
Proof.
  cbv zeta. unfold Leaderboard.sortedEntries.
  pose proof (sort_perm entries) as Hperm.
  split; [|split; [|split]].
  - rewrite length_firstn. now rewrite <- (Permutation_length Hperm).
  - apply StronglySorted_firstn, sort_sorted.
  - intros e He. apply (Permutation_in _ (Permutation_sym Hperm)).
    exact (In_firstn _ _ _ He).
  - exists (skipn 10 (Leaderboard.sort entries)). split.
    + now rewrite firstn_skipn.
    + apply sorted_split, sort_sorted.
Qed.

(** X10. Entries of equal score are shown in the order in which they
    were stored: for every score, the shown entries with that score are
    the first stored entries with it, and all of them when the board is
    not full. *)
Theorem leaderboard_ties_in_order (entries : list LeaderboardEntry) (s : Z) :
  (exists k,
     Leaderboard.withScore s (Leaderboard.sortedEntries entries)
     = firstn k (Leaderboard.withScore s entries))
  /\ ((List.length entries <= 10)%nat ->
      Leaderboard.withScore s (Leaderboard.sortedEntries entries)
      = Leaderboard.withScore s entries).
Proof.
  unfold Leaderboard.sortedEntries. split.
  - eexists. unfold Leaderboard.withScore at 1. rewrite filter_firstn.
    fold (Leaderboard.withScore s (Leaderboard.sort entries)).
    rewrite sort_stable. reflexivity.
  - intros Hlen. rewrite firstn_all2.
    + apply sort_stable.
    + now rewrite <- (Permutation_length (sort_perm entries)).
Qed.

Example leaderboard_sample :
  map (fun e => (name e, score e)) (Leaderboard.sortedEntries More.twelve)
  = [ ("k", 900); ("e", 700); ("i", 450); ("a", 300); ("c", 300);
      ("h", 300); ("b", 120); ("f", 120); ("j", 120); ("l", 120) ].
Proof. vm_compute. reflexivity. Qed.

(** ** Stored preferences and the end of a game *)

(** X11. Preferences come back as they were stored: when the stored
    text parses to the object that was written for a user state, the
    initializer yields that state's points, streak, level and topic. *)
Theorem stored_prefs_round_trip
  (parse : string -> option Shell.Value) (u : UserState) (text : string)
  (Htext : text <> "")
  (Hparse : parse text = Some (Shell.stored u)) :
  Shell.initialUserState parse (Some text) = Shell.loadedOf u.
Proof.
  unfold Shell.initialUserState.
  assert (Htruthy : JS.truthy (Some text) = true).
  { cbn. apply negb_true_iff. now apply String.eqb_neq. }
  rewrite Htruthy, Hparse.
  destruct u as [x s l t]. destruct l, t; reflexivity.
Qed.

Lemma stored_prefs_round_trip_witness :
  Shell.initialUserState
    (More.parseOne "prefs" (Shell.stored Sample.learner)) (Some "prefs")
  = Shell.loadedOf Sample.learner.
Proof.
  apply (stored_prefs_round_trip
           (More.parseOne "prefs" (Shell.stored Sample.learner))
           Sample.learner "prefs").
  - discriminate.
  - reflexivity.
Defined.

(** X12. Stored preferences never make the start fail.  Without a
    stored text, with an empty or malformed one, and with one that
    parses to [null], a number, a string or an array, the initializer
    yields the defaults: no points, streak 1, Beginner, Daily
    Communication.  For an object, a level that is none of the three
    labels becomes Beginner and a topic that is none of the two becomes
    Daily Communication, while the other stored fields are kept;
    missing points and streak become 0 and 1. *)
Theorem stored_prefs_degrade
  (parse : string -> option Shell.Value) (text : string) :
  Shell.initialUserState parse None = Shell.defaults
  /\ Shell.initialUserState parse (Some "") = Shell.defaults
  /\ (parse text = None ->
      Shell.initialUserState parse (Some text) = Shell.defaults)
  /\ (forall v,
        parse text = Some v ->
        match v with Shell.Obj _ => False | _ => True end ->
        Shell.initialUserState parse (Some text) = Shell.defaults)
  /\ (forall props l t x s,
        text <> "" ->
        parse text = Some (Shell.Obj props) ->
        Shell.get (Shell.Obj props) "currentLevel" = Some l ->
        Shell.get (Shell.Obj props) "currentTopic" = Some t ->
        Shell.get (Shell.Obj props) "xp" = Some x ->
        Shell.get (Shell.Obj props) "streak" = Some s ->
        let loaded := Shell.initialUserState parse (Some text) in
        (Shell.levelOf l = None -> Shell.loadedLevel loaded = Beginner)
        /\ (Shell.topicOf t = None -> Shell.loadedTopic loaded = DailyLife)
        /\ (forall l', Shell.levelOf l = Some l' ->
                       Shell.loadedLevel loaded = l')
        /\ (forall t', Shell.topicOf t = Some t' ->
                       Shell.loadedTopic loaded = t')
        /\ Shell.loadedXp loaded = Shell.nullish x (Shell.Number 0)
        /\ Shell.loadedStreak loaded = Shell.nullish s (Shell.Number 1)).
Proof.
  split; [reflexivity|]. split; [reflexivity|].
  unfold Shell.initialUserState.
  split; [|split].
  - intros Hparse. rewrite Hparse.
    destruct (JS.truthy (Some text)); reflexivity.
  - intros v Hparse Hv. rewrite Hparse.
    destruct (JS.truthy (Some text)); [|reflexivity].
    destruct v; try reflexivity. destruct Hv.
  - intros props l t x s Htext Hparse Hl Ht Hx Hs.
    assert (Htruthy : JS.truthy (Some text) = true).
    { cbn. apply negb_true_iff. now apply String.eqb_neq. }
    cbv zeta. rewrite Htruthy, Hparse, Hl, Ht, Hx, Hs.
    cbn [Shell.loadedLevel Shell.loadedTopic Shell.loadedXp
         Shell.loadedStreak].
    repeat split.
    + intros H. now rewrite H.
    + intros H. now rewrite H.
    + intros l' H. now rewrite H.
    + intros t' H. now rewrite H.
Qed.

Example stale_level_sample :
  Shell.initialUserState
    (More.parseOne "prefs"
       (Shell.Obj [ ("xp", Shell.Number 120); ("streak", Shell.Number 4);
                    ("currentLevel", Shell.Str "Expert");
                    ("currentTopic", Shell.Str "Work & Professional") ]))
    (Some "prefs")
  = {| Shell.loadedXp := Shell.Number 120;
       Shell.loadedStreak := Shell.Number 4;
       Shell.loadedLevel := Beginner;
       Shell.loadedTopic := Professional |}.
Proof. reflexivity. Qed.

Lemma filter_length_perm {A} (f : A -> bool) (l1 l2 : list A) :
  Permutation l1 l2 ->
  List.length (filter f l1) = List.length (filter f l2).
Proof.
  induction 1 as [|x l1 l2 _ IH|x y l|l1 l2 l3 _ IH1 _ IH2]; cbn.
  - reflexivity.
  - destruct (f x); cbn; now rewrite IH.
  - destruct (f x), (f y); reflexivity.
  - now rewrite IH1.
Qed.

Lemma filter_all {A} (f : A -> bool) (l : list A) :
  (forall x, In x l -> f x = true) -> filter f l = l.
Proof.
  induction l as [|x l IH]; intros H; cbn; [reflexivity|].
  rewrite (H x (or_introl eq_refl)). f_equal. apply IH.
  intros y Hy. apply H. now right.
Qed.

Lemma filter_has {A} (f : A -> bool) (l : list A) (x : A) :
  In x l -> f x = true -> (1 <= List.length (filter f l))%nat.
Proof.
  intros Hin Hf.
  assert (Hx : In x (filter f l)) by (apply filter_In; now split).
  destruct (filter f l); [destruct Hx | cbn; lia].
Qed.

(** An entry that fewer than ten entries equal or beat is shown. *)
Lemma shown_when_beaten_by_few (old : list LeaderboardEntry)
      (e : LeaderboardEntry) :
  (List.length (filter (fun x => (score e <=? score x)%Z) old) < 10)%nat ->
  In e (Leaderboard.sortedEntries (old ++ [e])).
Proof.
  intros Hfew. unfold Leaderboard.sortedEntries.
  set (S := Leaderboard.sort (old ++ [e])).
  pose proof (sort_perm (old ++ [e])) as Hperm. fold S in Hperm.
  assert (HeS : In e S).
  { apply (Permutation_in _ Hperm). apply in_or_app. right. now left. }
  rewrite <- (firstn_skipn 10 S) in HeS. apply in_app_or in HeS.
  destruct HeS as [HF|HR]; [exact HF|]. exfalso.
  set (p := fun x : LeaderboardEntry => score e <=? score x) in *.
  assert (Hall : filter p (firstn 10 S) = firstn 10 S).
  { apply filter_all. intros a Ha. unfold p. apply Z.leb_le.
    exact (sorted_split 10 S (sort_sorted _) a e Ha HR). }
  assert (HlenF : List.length (firstn 10 S) = 10%nat).
  { rewrite length_firstn.
    assert (Hlong : (10 < List.length S)%nat).
    { destruct (Nat.le_gt_cases (List.length S) 10) as [Hle|Hgt];
        [|exact Hgt].
      rewrite (skipn_all2 _ Hle) in HR. destruct HR. }
    lia. }
  assert (HpR : (1 <= List.length (filter p (skipn 10 S)))%nat).
  { apply (filter_has p _ e HR). unfold p. apply Z.leb_refl. }
  pose proof (filter_length_perm p _ _ Hperm) as Hcount.
  rewrite <- (firstn_skipn 10 S) in Hcount at 1.
  rewrite !filter_app, !length_app, Hall, HlenF in Hcount.
  cbn [filter List.length] in Hcount. unfold p at 2 in Hcount.
  rewrite Z.leb_refl in Hcount. cbn [List.length] in Hcount. lia.
Qed.

(** X13. A game left with a positive score appends one entry to the
    leaderboard, in memory and in the local storage alike, with the
    given name, the score, the label of the current level and the date,
    and keeps all earlier entries in their order; the player gains a
    tenth of the score, rounded down.  When fewer than ten stored
    entries have that score or more, the new entry is on the board. *)
Theorem new_score_on_board
  (now : string) (st : Shell.State) (finalScore : Z) (playerName : string)
  (Hpos : 0 < finalScore) :
  let st' := Shell.handleGameExit now st finalScore playerName in
  let e := {| name := playerName; score := finalScore;
              level := levelLabel (currentLevel (Shell.userState st));
              date := now |} in
  Shell.leaderboardData st' = (Shell.leaderboardData st ++ [e])%list
  /\ Shell.storedLeaderboard st' = Some (Shell.leaderboardData st')
  /\ xp (Shell.userState st') = xp (Shell.userState st) + finalScore / 10
  /\ 10 * (xp (Shell.userState st') - xp (Shell.userState st)) <= finalScore
  /\ Shell.appMode st' = Shell.DASHBOARD
  /\ Shell.showLeaderboard st' = true
  /\ ((List.length (filter (fun x => (finalScore <=? score x)%Z)
                           (Shell.leaderboardData st)) < 10)%nat ->
      In e (Leaderboard.sortedEntries (Shell.leaderboardData st'))).
Proof.
  cbv zeta. unfold Shell.handleGameExit, Shell.saveScore.
  destruct (Z.ltb_spec 0 finalScore) as [_|?]; [|lia].
  cbn [Shell.leaderboardData Shell.storedLeaderboard Shell.userState
       Shell.appMode Shell.showLeaderboard App.addXp xp].
  repeat (split; [reflexivity|]).
  split.
  - pose proof (Z.mul_div_le finalScore 10 ltac:(lia)). lia.
  - repeat (split; [reflexivity|]).
    intros Hfew. now apply shown_when_beaten_by_few.
Qed.

Lemma new_score_on_board_witness :
  In {| name := "me"; score := 310; level := levelLabel Beginner;
        date := "today" |}
     (Leaderboard.sortedEntries
        (Shell.leaderboardData
           (Shell.handleGameExit "today" More.shell 310 "me"))).
Proof.
  refine (proj2 (proj2 (proj2 (proj2 (proj2 (proj2
            (new_score_on_board "today" More.shell 310 "me" _)))))) _).
  - reflexivity.
  - vm_compute. lia.
Defined.

(** X14. A game left with score 0 or less leaves no trace: the
    leaderboard, in memory and stored, and the user state are as
    before; only the dashboard and the board are brought up.  This is
    what the failure to load the words ends in. *)
Theorem no_score_no_trace
  (now : string) (st : Shell.State) (finalScore : Z) (playerName : string)
  (Hnone : finalScore <= 0) :
  let st' := Shell.handleGameExit now st finalScore playerName in
  Shell.leaderboardData st' = Shell.leaderboardData st
  /\ Shell.storedLeaderboard st' = Shell.storedLeaderboard st
  /\ Shell.userState st' = Shell.userState st
  /\ Shell.appMode st' = Shell.DASHBOARD
  /\ Shell.showLeaderboard st' = true
  /\ Leaderboard.sortedEntries (Shell.leaderboardData st')
     = Leaderboard.sortedEntries (Shell.leaderboardData st).
Proof.
  cbv zeta. unfold Shell.handleGameExit.
  destruct (Z.ltb_spec 0 finalScore) as [?|_]; [lia|].
  repeat split.
Qed.

Lemma no_score_no_trace_witness :
  Shell.leaderboardData (Shell.handleGameExit "today" More.shell 0 "Anonymous")
  = More.twelve.
Proof.
  exact (proj1 (no_score_no_trace "today" More.shell 0 "Anonymous"
                  ltac:(lia))).
Defined.

(** ** More on the matching exercise *)

Section MatchingMore.

Import ExerciseRenderer.

Variable pairs : list MatchingPair.

Lemma step_grows (st : State) (ev : Event) :
  (List.length (matchedPairs st)
   <= List.length (matchedPairs (next (step pairs st ev))))%nat.
Proof.
  destruct ev as [i side|]; cbn [step next clearSelections matchedPairs];
    [|lia].
  unfold handleMatch.
  destruct (JS.includes (matchedPairs st) i); [cbn; lia|].
  destruct (match side with left => Some i | right => selLeft st end) as [l|];
    destruct (match side with left => selRight st | right => Some i end)
      as [r|]; try (cbn; lia).
  destruct (JS.truthy (Some l) && JS.truthy (Some r)); [|cbn; lia].
  destruct (findPair pairs l r); cbn [next matchedPairs]; [|lia].
  rewrite length_app. lia.
Qed.

Lemma step_answer_length (st : State) (ev : Event) (a : string) :
  answered (step pairs st ev) = Some a ->
  a = "COMPLETE"
  /\ (List.length (matchedPairs st) < 2 * List.length pairs)%nat
  /\ List.length (matchedPairs (next (step pairs st ev)))
     = (2 * List.length pairs)%nat.
Proof.
  destruct ev as [i side|]; cbn [step answered]; [|discriminate].
  unfold handleMatch.
  destruct (JS.includes (matchedPairs st) i); [discriminate|].
  destruct (match side with left => Some i | right => selLeft st end) as [l|];
    destruct (match side with left => selRight st | right => Some i end)
      as [r|]; try discriminate.
  destruct (JS.truthy (Some l) && JS.truthy (Some r)); [|discriminate].
  destruct (findPair pairs l r); [|discriminate].
  cbn [answered next matchedPairs].
  destruct (Z.eqb_spec
              (Z.of_nat (List.length (matchedPairs st ++ [l; r])%list))
              (Z.of_nat (List.length pairs) * 2)) as [Hall|_];
    [|discriminate].
  intros H. injection H as <-. rewrite length_app in Hall |- *.
  cbn [List.length] in Hall |- *. repeat split; lia.
Qed.

Lemma emitted_none_when_full (evs : list Event) :
  forall st,
    (2 * List.length pairs <= List.length (matchedPairs st))%nat ->
    More.emitted pairs st evs = [].
Proof.
  induction evs as [|ev evs IH]; intros st Hfull; [reflexivity|].
  cbn [More.emitted].
  destruct (answered (step pairs st ev)) as [a|] eqn:Ha.
  - destruct (step_answer_length st ev a Ha) as (_ & Hlt & _). lia.
  - cbn [app]. apply IH. pose proof (step_grows st ev). lia.
Qed.

Lemma flat_In_iff (cs : list (string * string)) (x : string) :
  In x (flat cs) <-> In x (map fst cs) \/ In x (map snd cs).
Proof.
  induction cs as [|c cs IH]; cbn; [tauto|].
  unfold flat in IH. rewrite IH. tauto.
Qed.

(** The second invariant goes along with the first. *)
Lemma definitionsOnce_step (st : State) (ev : Event) :
  Inv pairs st -> More.definitionsOnce st ->
  More.definitionsOnce (next (step pairs st ev)).
Proof.
  intros HI H2. destruct ev as [i side|]; cbn [step next];
    [|exact H2].
  unfold handleMatch.
  destruct (JS.includes (matchedPairs st) i) eqn:Hi; [exact H2|].
  destruct (newSelection_fresh pairs st i side HI Hi) as [Hl Hr].
  destruct (match side with left => Some i | right => selLeft st end)
    as [l|] eqn:HL;
    destruct (match side with left => selRight st | right => Some i end)
      as [r|] eqn:HR;
    try exact H2.
  destruct (JS.truthy (Some l) && JS.truthy (Some r)); [|exact H2].
  destruct (findPair pairs l r) as [p|] eqn:Hfind; [|exact H2].
  cbn [next]. unfold More.definitionsOnce. cbn [matchedPairs].
  destruct (Inv_matched pairs st l r p HI (Hl l eq_refl) Hfind)
    as [_ Hconf].
  rewrite Hconf, map_app. cbn [map snd].
  apply NoDup_app; [exact H2 | constructor; [intros []|constructor] |].
  intros x Hx [<-|[]].
  pose proof (Hr r eq_refl) as Hfresh. apply includes_false in Hfresh.
  apply Hfresh. rewrite (inv_flat _ _ HI). apply flat_In_iff. now right.
Qed.

Lemma invariants_run (evs : list Event) :
  forall st,
    Inv pairs st -> More.definitionsOnce st ->
    Inv pairs (run pairs st evs) /\ More.definitionsOnce (run pairs st evs).
Proof.
  induction evs as [|ev evs IH]; intros st HI H2; [now split|].
  cbn [run fold_left]. apply IH.
  - now apply Inv_step.
  - now apply definitionsOnce_step.
Qed.

Lemma allConfirmed_In (st : State) (p : MatchingPair) :
  allConfirmed pairs st = true -> In p pairs ->
  In (pairOf p) (confirmed (matchedPairs st)).
Proof.
  unfold allConfirmed. intros Hall Hp.
  pose proof (proj1 (forallb_forall _ _) Hall p Hp) as Hex.
  apply existsb_exists in Hex. destruct Hex as ([l r] & Hin & Heq).
  unfold pair_eqb in Heq. apply andb_true_iff in Heq.
  destruct Heq as [H1 H2]. apply String.eqb_eq in H1, H2.
  unfold pairOf in *. cbn [fst snd] in H1, H2. subst l r. exact Hin.
Qed.

Lemma NoDup_map_eq {A B} (f : A -> B) (l : list A) (x y : A) :
  NoDup (map f l) -> In x l -> In y l -> f x = f y -> x = y.
Proof.
  induction l as [|z l IH]; intros Hnd Hx Hy Heq; [destruct Hx|].
  cbn [map] in Hnd. apply NoDup_cons_iff in Hnd. destruct Hnd as [Hz Hnd].
  destruct Hx as [->|Hx], Hy as [->|Hy]; try reflexivity.
  - elim Hz. rewrite Heq. now apply in_map.
  - elim Hz. rewrite <- Heq. now apply in_map.
  - now apply IH.
Qed.

End MatchingMore.

(** X15. Along any run of presses and timeouts, from any state, the
    matching exercise passes at most one answer to the evaluator, and
    that answer is ["COMPLETE"]: the exercise cannot be scored twice. *)
Theorem matching_answers_once
  (pairs : list MatchingPair) (st : ExerciseRenderer.State)
  (evs : list ExerciseRenderer.Event) :
  More.emitted pairs st evs = []
  \/ More.emitted pairs st evs = ["COMPLETE"].
Proof.
  revert st. induction evs as [|ev evs IH]; intros st; [now left|].
  cbn [More.emitted].
  destruct (ExerciseRenderer.answered (ExerciseRenderer.step pairs st ev))
    as [a|] eqn:Ha.
  - destruct (step_answer_length pairs st ev a Ha) as (-> & _ & Hfull).
    rewrite emitted_none_when_full by lia. now right.
  - cbn [app]. apply IH.
Qed.

(** X16. When two declared pairs with different word identifiers have
    the same definition, no run from the empty state ever submits
    ["COMPLETE"]: the definition is matched with the first of the two
    and can then not be pressed for the other. *)
Theorem shared_definition_blocks_matching
  (pairs : list MatchingPair) (p q : MatchingPair)
  (evs : list ExerciseRenderer.Event)
  (Hp : In p pairs) (Hq : In q pairs)
  (Hids : wordId p <> wordId q)
  (Hsame : pairDefinition p = pairDefinition q) :
  More.emitted pairs ExerciseRenderer.initial evs = [].
Proof.
  assert (Hgen : forall st,
             ExerciseRenderer.Inv pairs st -> More.definitionsOnce st ->
             More.emitted pairs st evs = []).
  { induction evs as [|ev evs IH]; intros st HI H2; [reflexivity|].
    cbn [More.emitted].
    destruct (ExerciseRenderer.answered (ExerciseRenderer.step pairs st ev))
      as [a|] eqn:Ha.
    - exfalso. destruct (step_answer pairs st ev a HI Ha) as [_ Hall].
      pose proof (definitionsOnce_step pairs st ev HI H2) as H2'.
      pose proof (allConfirmed_In pairs _ p Hall Hp) as Hcp.
      pose proof (allConfirmed_In pairs _ q Hall Hq) as Hcq.
      pose proof (NoDup_map_eq snd _ _ _ H2' Hcp Hcq Hsame) as Heq.
      apply Hids. now injection Heq.
    - cbn [app]. apply IH.
      + now apply Inv_step.
      + now apply definitionsOnce_step. }
  apply Hgen; [apply Inv_initial | constructor].
Qed.

Lemma shared_definition_blocks_matching_witness :
  More.emitted (Gen.pairsOf Sample.sizes) ExerciseRenderer.initial
    (More.pressAll (Gen.pairsOf Sample.sizes)) = [].
Proof.
  apply (shared_definition_blocks_matching (Gen.pairsOf Sample.sizes)
           {| wordId := "1"; pairDefinition := "to" |}
           {| wordId := "2"; pairDefinition := "to" |}).
  - left. reflexivity.
  - right. left. reflexivity.
  - discriminate.
  - reflexivity.
Defined.

Section MatchingLive.

Import ExerciseRenderer.

Variable pairs : list MatchingPair.
Hypothesis Hdistinct : More.distinctPairs pairs.

Lemma flat_pairs_In (done : list MatchingPair) (x : string) :
  In x (flat (map pairOf done)) ->
  In x (map wordId done) \/ In x (map pairDefinition done).
Proof.
  intros H. apply flat_In_iff in H. rewrite !map_map in H. exact H.
Qed.

Lemma fresh_id (done rest : list MatchingPair) (p : MatchingPair) :
  pairs = (done ++ p :: rest)%list ->
  JS.includes (flat (map pairOf done)) (wordId p) = false.
Proof.
  intros Hsplit. apply includes_false. intros Hin.
  apply flat_pairs_In in Hin. destruct Hin as [Hin|Hin].
  - pose proof (More.ids_once _ Hdistinct) as Hnd.
    rewrite Hsplit, map_app in Hnd. cbn [map] in Hnd.
    apply NoDup_remove_2 in Hnd. apply Hnd, in_or_app. now left.
  - apply in_map_iff in Hin. destruct Hin as (q & Hq & Hqin).
    apply (More.ids_apart _ Hdistinct p q); [| |now symmetry];
      rewrite Hsplit; apply in_or_app; [right; now left | now left].
Qed.

Lemma fresh_definition (done rest : list MatchingPair) (p : MatchingPair) :
  pairs = (done ++ p :: rest)%list ->
  JS.includes (flat (map pairOf done)) (pairDefinition p) = false.
Proof.
  intros Hsplit. apply includes_false. intros Hin.
  apply flat_pairs_In in Hin. destruct Hin as [Hin|Hin].
  - apply in_map_iff in Hin. destruct Hin as (q & Hq & Hqin).
    apply (More.ids_apart _ Hdistinct q p); [| |exact Hq];
      rewrite Hsplit; apply in_or_app; [now left | right; now left].
  - pose proof (More.definitions_once _ Hdistinct) as Hnd.
    rewrite Hsplit, map_app in Hnd. cbn [map] in Hnd.
    apply NoDup_remove_2 in Hnd. apply Hnd, in_or_app. now left.
Qed.

Lemma truthy_filled (s : string) : s <> "" -> JS.truthy (Some s) = true.
Proof. intros H. cbn. apply negb_true_iff. now apply String.eqb_neq. Qed.

Lemma press_word (done rest : list MatchingPair) (p : MatchingPair) :
  pairs = (done ++ p :: rest)%list ->
  step pairs (More.after done) (Press (wordId p) left)
  = {| next := {| selLeft := Some (wordId p); selRight := None;
                  matchedPairs := flat (map pairOf done) |};
       answered := None; armed := false |}.
Proof.
  intros Hsplit. cbn [step]. unfold handleMatch, More.after.
  cbn [matchedPairs selLeft selRight].
  now rewrite (fresh_id done rest p Hsplit).
Qed.

(** Pressing a word that is not matched yet and then its definition
    confirms the pair, and submits the answer when it was the last. *)
Lemma press_pair (done rest : list MatchingPair) (p : MatchingPair) :
  pairs = (done ++ p :: rest)%list ->
  let o1 := step pairs (More.after done) (Press (wordId p) left) in
  let o2 := step pairs (next o1) (Press (pairDefinition p) right) in
  answered o1 = None
  /\ next o2 = More.after (done ++ [p])
  /\ answered o2 = match rest with
                   | [] => Some "COMPLETE"
                   | _ :: _ => None
                   end.
Proof.
  intros Hsplit.
  assert (Hp : In p pairs)
    by (rewrite Hsplit; apply in_or_app; right; now left).
  cbv zeta. rewrite (press_word done rest p Hsplit). cbn [next answered].
  split; [reflexivity|].
  cbn [step]. unfold handleMatch. cbn [matchedPairs selLeft selRight].
  rewrite (fresh_definition done rest p Hsplit).
  rewrite (truthy_filled _ (More.ids_filled _ Hdistinct p Hp)).
  rewrite (truthy_filled _ (More.definitions_filled _ Hdistinct p Hp)).
  cbn [andb].
  destruct (findPair pairs (wordId p) (pairDefinition p)) as [q|] eqn:Hfind.
  - cbn [next answered]. split.
    + unfold More.after. f_equal. rewrite map_app, <- flat_snoc. reflexivity.
    + rewrite length_app, flat_length, length_map. rewrite Hsplit at 1.
      rewrite length_app. cbn [List.length].
      destruct rest as [|r rest];
        match goal with
        | |- context [Z.eqb ?a ?b] => destruct (Z.eqb_spec a b) as [He|He]
        end; cbn [List.length] in He; try reflexivity; lia.
  - exfalso. unfold findPair in Hfind.
    pose proof (find_none _ _ Hfind p Hp) as Hno. cbn beta in Hno.
    now rewrite !String.eqb_refl in Hno.
Qed.

Lemma pressAll_from (todo : list MatchingPair) :
  forall done,
    pairs = (done ++ todo)%list ->
    run pairs (More.after done) (More.pressAll todo) = More.after pairs
    /\ More.emitted pairs (More.after done) (More.pressAll todo)
       = match todo with
         | [] => []
         | _ :: _ => ["COMPLETE"]
         end.
Proof.
  induction todo as [|p rest IH]; intros done Hsplit.
  - rewrite app_nil_r in Hsplit. subst done. now split.
  - destruct (press_pair done rest p Hsplit) as (Ha1 & Hn2 & Ha2).
    cbv zeta in Ha1, Hn2, Ha2.
    assert (Hnext : pairs = ((done ++ [p]) ++ rest)%list)
      by (rewrite <- app_assoc; exact Hsplit).
    destruct (IH (done ++ [p])%list Hnext) as [Hrun Hem].
    cbn [More.pressAll flat_map app run fold_left More.emitted].
    fold (More.pressAll rest). rewrite Ha1, Ha2, Hn2. cbn [app].
    split; [exact Hrun|]. rewrite Hem. now destruct rest.
Qed.

End MatchingLive.

(** X17. When the declared pairs can be told apart (no word identifier
    and no definition twice, none empty, no identifier that is also a
    definition), pressing word and definition pair More.after pair from the
    empty state submits ["COMPLETE"] once, at the last press, and
    leaves every declared pair confirmed and nothing selected. *)
Theorem matching_can_be_completed
  (pairs : list MatchingPair)
  (Hdistinct : More.distinctPairs pairs)
  (Hsome : pairs <> []) :
  More.emitted pairs ExerciseRenderer.initial (More.pressAll pairs)
  = ["COMPLETE"]
  /\ ExerciseRenderer.run pairs ExerciseRenderer.initial (More.pressAll pairs)
     = {| ExerciseRenderer.selLeft := None;
          ExerciseRenderer.selRight := None;
          ExerciseRenderer.matchedPairs
          := ExerciseRenderer.flat (map ExerciseRenderer.pairOf pairs) |}
  /\ ExerciseRenderer.allConfirmed pairs
       (ExerciseRenderer.run pairs ExerciseRenderer.initial
          (More.pressAll pairs)) = true.
Proof.
  destruct (pressAll_from pairs Hdistinct pairs [] eq_refl) as [Hrun Hem].
  change ExerciseRenderer.initial with (More.after []).
  rewrite Hrun, Hem. split; [now destruct pairs|]. split; [reflexivity|].
  apply allConfirmed_true. unfold More.after.
  cbn [ExerciseRenderer.matchedPairs].
  rewrite confirmed_flat. intros p Hp. now apply in_map.
Qed.

Lemma twoPairs_distinct : More.distinctPairs Sample.twoPairs.
Proof.
  constructor.
  - repeat constructor; cbn; intuition discriminate.
  - repeat constructor; cbn; intuition discriminate.
  - intros p [<-|[<-|[]]]; discriminate.
  - intros p [<-|[<-|[]]]; discriminate.
  - intros p q [<-|[<-|[]]] [<-|[<-|[]]]; discriminate.
Defined.

Lemma matching_can_be_completed_witness :
  More.emitted Sample.twoPairs ExerciseRenderer.initial
    (More.pressAll Sample.twoPairs) = ["COMPLETE"].
Proof.
  exact (proj1 (matching_can_be_completed Sample.twoPairs twoPairs_distinct
                  ltac:(discriminate))).
Defined.

(** ** Word Rush: the countdown *)

(** X18. The countdown of a round, started at the budget [b] of any
    round index and decremented by 0.1 in binary64, runs out at tick
    [10 * b] for the budgets 3 and 4 and at tick [10 * b + 1] for the
    budgets 5 to 10; once run out it stays at 0, and every further tick
    reports a time-out again. *)
Theorem countdown_length (i : Z) (Hi : 0 <= i) :
  let b := WordRushGame.newMaxTime i in
  (exists n,
     WordRushRun.ticksToRunOut 200 (JS.ofInt b) = Some n
     /\ Z.of_nat n = (if b <=? 4 then 10 * b else 10 * b + 1))
  /\ WordRushRun.tick 0%float = (0%float, true)
  /\ forall t, snd (WordRushRun.tick t) = true ->
               WordRushRun.tick (fst (WordRushRun.tick t)) = (0%float, true).
Proof.
  cbv zeta. split; [|split].
  - assert (Hb : 3 <= WordRushGame.newMaxTime i <= 10).
    { unfold WordRushGame.newMaxTime.
      pose proof (Z.div_pos i 3 Hi ltac:(lia)). lia. }
    assert (Hcases : WordRushGame.newMaxTime i = 3
                     \/ WordRushGame.newMaxTime i = 4
                     \/ WordRushGame.newMaxTime i = 5
                     \/ WordRushGame.newMaxTime i = 6
                     \/ WordRushGame.newMaxTime i = 7
                     \/ WordRushGame.newMaxTime i = 8
                     \/ WordRushGame.newMaxTime i = 9
                     \/ WordRushGame.newMaxTime i = 10) by lia.
    destruct Hcases as [H|[H|[H|[H|[H|[H|[H|H]]]]]]]; rewrite H;
      eexists; (split; [vm_compute; reflexivity | reflexivity]).
  - reflexivity.
  - intros t Ht. unfold WordRushRun.tick in *.
    destruct (t <=? 0.1)%float; [reflexivity | discriminate Ht].
Qed.

Lemma countdown_length_witness :
  exists n,
    WordRushRun.ticksToRunOut 200 (JS.ofInt (WordRushGame.newMaxTime 7))
    = Some n
    /\ Z.of_nat n = 81.
Proof.
  exact (proj1 (countdown_length 7 ltac:(lia))).
Defined.

(** ** Word Rush: the rounds *)

Ltac arcade_close :=
  try discriminate; try lia; try reflexivity;
  try (intros; discriminate); try (intros; lia);
  try (intros; split; lia);
  try (intros; left; lia); try (intros; right; lia);
  try (intros; left; split; lia);
  try (intros; split; first [lia | reflexivity]);
  try (intros [?|?]; first [discriminate | lia]).

Section Rounds.

Context {Rng : Type}.
Variable sortItems : list VocabularyItem -> Rng -> list VocabularyItem * Rng.
Variable sortStrings : list string -> Rng -> list string * Rng.

(** What [prepareRound] leaves as it was, and what it decides. *)
Lemma prepareRound_fields (index : Z) (wordList : list VocabularyItem)
      (st : WordRushGame.State) (g : Rng) :
  0 <= index ->
  exists st' g',
    WordRushGame.prepareRound sortItems sortStrings index wordList st g
    = Some (st', g')
    /\ WordRushGame.words st' = WordRushGame.words st
    /\ WordRushGame.currentIndex st' = WordRushGame.currentIndex st
    /\ WordRushGame.score st' = WordRushGame.score st
    /\ WordRushGame.lives st' = WordRushGame.lives st
    /\ WordRushGame.streak st' = WordRushGame.streak st
    /\ WordRushGame.gameState st'
       = (if Z.of_nat (List.length wordList) <=? index
          then WordRushGame.GAME_OVER else WordRushGame.gameState st)
    /\ WordRushGame.feedback st' = WordRushGame.feedback st
    /\ WordRushGame.timeLeft st'
       = (if Z.of_nat (List.length wordList) <=? index
          then WordRushGame.timeLeft st
          else JS.ofInt (WordRushGame.newMaxTime index)).
Proof.
  intros Hi. unfold WordRushGame.prepareRound.
  destruct (Z.leb_spec (Z.of_nat (List.length wordList)) index) as [Hge|Hlt].
  - eexists _, _. repeat split.
  - unfold JS.index. destruct (Z.ltb_spec index 0) as [?|_]; [lia|].
    destruct (nth_error wordList (Z.to_nat index)) eqn:Hnth.
    + eexists _, _. repeat split.
    + apply nth_error_None in Hnth. lia.
Qed.

Lemma nextRound_fields (st : WordRushGame.State) (g : Rng) :
  0 <= WordRushGame.currentIndex st ->
  exists st' g',
    WordRushGame.nextRound sortItems sortStrings st g = Some (st', g')
    /\ WordRushGame.words st' = WordRushGame.words st
    /\ WordRushGame.currentIndex st' = WordRushGame.currentIndex st + 1
    /\ WordRushGame.score st' = WordRushGame.score st
    /\ WordRushGame.lives st' = WordRushGame.lives st
    /\ WordRushGame.streak st' = WordRushGame.streak st
    /\ WordRushGame.gameState st'
       = (if Z.of_nat (List.length (WordRushGame.words st))
             <=? WordRushGame.currentIndex st + 1
          then WordRushGame.GAME_OVER else WordRushGame.gameState st).
Proof.
  intros Hi. unfold WordRushGame.nextRound.
  match goal with
  | |- context [WordRushGame.prepareRound _ _ ?i ?wl ?s g] =>
      destruct (prepareRound_fields i wl s g ltac:(lia))
        as (st' & g' & Hprep & Hw & Hidx & Hsc & Hl & Hs & Hg & _)
  end.
  exists st', g'. cbn [WordRushGame.words WordRushGame.currentIndex
                        WordRushGame.score WordRushGame.lives
                        WordRushGame.streak WordRushGame.gameState] in *.
  repeat split; assumption.
Qed.

End Rounds.

(** X19. Under shuffles that rearrange, every round prepared for a
    word of the list offers the definition of that word among its
    options; there is one option more than there are words with another
    identifier, and four at most; every other option is the definition
    of a word of the list with another identifier. *)
Theorem round_offers_answer
  (Rng : Type)
  (sortItems : list VocabularyItem -> Rng -> list VocabularyItem * Rng)
  (sortStrings : list string -> Rng -> list string * Rng)
  (Hitems : More.permutesItems sortItems)
  (Hstrings : Gen.permutes sortStrings)
  (index : Z) (wordList : list VocabularyItem)
  (st : WordRushGame.State) (g : Rng)
  (Hindex : 0 <= index < Z.of_nat (List.length wordList)) :
  exists st' g' w,
    WordRushGame.prepareRound sortItems sortStrings index wordList st g
    = Some (st', g')
    /\ JS.index wordList index = Some w
    /\ In (vietnameseDefinition w) (WordRushGame.options st')
    /\ List.length (WordRushGame.options st')
       = (1 + Nat.min 3 (List.length
                           (filter (fun v => negb (String.eqb (id v) (id w)))
                                   wordList)))%nat
    /\ (List.length (WordRushGame.options st') <= 4)%nat
    /\ forall o, In o (WordRushGame.options st') ->
         o = vietnameseDefinition w
         \/ exists v, In v wordList /\ id v <> id w
                      /\ o = vietnameseDefinition v.
Proof.
  unfold WordRushGame.prepareRound.
  destruct (Z.leb_spec (Z.of_nat (List.length wordList)) index) as [?|_];
    [lia|].
  destruct (JS.index wordList index) as [w|] eqn:Hw;
    [|apply index_None in Hw; lia].
  set (others := filter (fun v => negb (String.eqb (id v) (id w))) wordList).
  pose proof (Hitems others g) as Hp1.
  set (s1 := sortItems others g) in *.
  pose proof (Hstrings (vietnameseDefinition w
                        :: map vietnameseDefinition (firstn 3 (fst s1)))
                       (snd s1)) as Hp2.
  eexists _, _, w. split; [reflexivity|]. split; [reflexivity|].
  cbn [WordRushGame.options].
  assert (Hlen : List.length
                   (fst (sortStrings
                           (vietnameseDefinition w
                            :: map vietnameseDefinition (firstn 3 (fst s1)))
                           (snd s1)))
                 = (1 + Nat.min 3 (List.length others))%nat).
  { rewrite <- (Permutation_length Hp2). cbn [List.length].
    rewrite length_map, length_firstn, <- (Permutation_length Hp1).
    reflexivity. }
  split; [apply (Permutation_in _ Hp2); now left|].
  split; [exact Hlen|]. split; [lia|].
  intros o Ho. apply (Permutation_in _ (Permutation_sym Hp2)) in Ho.
  destruct Ho as [<-|Ho]; [now left|]. right.
  apply in_map_iff in Ho. destruct Ho as (v & <- & Hv).
  apply In_firstn in Hv.
  apply (Permutation_in _ (Permutation_sym Hp1)) in Hv.
  apply filter_In in Hv. destruct Hv as [Hin Hne].
  exists v. split; [exact Hin|]. split; [|reflexivity].
  apply negb_true_iff, String.eqb_neq in Hne. exact Hne.
Qed.

Lemma keepOrder_permutesItems :
  More.permutesItems (@Sample.keepOrder VocabularyItem).
Proof. intros l g. apply Permutation_refl. Qed.

Lemma round_offers_answer_witness :
  exists st' g' w,
    WordRushGame.prepareRound Sample.keepOrder Sample.keepOrder 1
      Sample.animals Sample.arcade tt = Some (st', g')
    /\ JS.index Sample.animals 1 = Some w
    /\ In (vietnameseDefinition w) (WordRushGame.options st').
Proof.
  destruct (round_offers_answer unit Sample.keepOrder Sample.keepOrder
              keepOrder_permutesItems keepOrder_permutes 1 Sample.animals
              Sample.arcade tt ltac:(cbn; lia))
    as (st' & g' & w & Hprep & Hw & Hin & _).
  exists st', g', w. repeat split; assumption.
Defined.


(** ** Word Rush: the course of a game *)

Lemma index_defined {A} (l : list A) (i : Z) :
  0 <= i < Z.of_nat (List.length l) -> exists x, JS.index l i = Some x.
Proof.
  intros Hi. destruct (JS.index l i) as [x|] eqn:Hx; [now exists x|].
  apply index_None in Hx. contradiction.
Qed.

Lemma handleAnswerOf_same (st : WordRushGame.State) (sel : option string) :
  WordRushRun.handleAnswerOf st st sel = WordRushGame.handleAnswer st sel.
Proof. reflexivity. Qed.

Ltac arcade_fields :=
  cbn [WordRushRun.now WordRushRun.timer WordRushRun.pending
       WordRushRun.wrongPresses WordRushRun.timeOuts WordRushRun.answered
       WordRushRun.setTimeLeft WordRushRun.setGameState
       WordRushRun.callbackOf WordRushRun.stopsTimer WordRushRun.missed
       WordRushGame.next WordRushGame.scheduled WordRushGame.confetti
       WordRushGame.gameState WordRushGame.words WordRushGame.currentIndex
       WordRushGame.score WordRushGame.lives WordRushGame.timeLeft
       WordRushGame.maxTime WordRushGame.options WordRushGame.streak
       WordRushGame.feedback] in *.

Lemma noRunOut_add (a b : nat) :
  forall t,
    WordRushRun.noRunOut (a + b) t = true ->
    WordRushRun.noRunOut a t = true
    /\ WordRushRun.noRunOut b (WordRushRun.afterTicks a t) = true.
Proof.
  induction a as [|a IH]; intros t H; [now split|].
  cbn [Nat.add WordRushRun.noRunOut WordRushRun.afterTicks] in *.
  apply andb_true_iff in H. destruct H as [H1 H2].
  destruct (IH _ H2) as [Ha Hb]. rewrite H1, Ha. now split.
Qed.

Lemma noRunOut_le (n : nat) :
  forall k t,
    (k <= n)%nat -> WordRushRun.noRunOut n t = true ->
    WordRushRun.noRunOut k t = true.
Proof.
  intros k t Hk H. replace n with (k + (n - k))%nat in H by lia.
  exact (proj1 (noRunOut_add _ _ _ H)).
Qed.

(** From ten seconds, a hundred ticks do not run out. *)
Lemma noRunOut_ten (k : nat) :
  (k <= 100)%nat -> WordRushRun.noRunOut k (JS.ofInt 10) = true.
Proof.
  intros Hk. apply (noRunOut_le 100); [exact Hk|].
  vm_compute. reflexivity.
Qed.

Section Course.

Context {Rng : Type}.
Variable sortItems : list VocabularyItem -> Rng -> list VocabularyItem * Rng.
Variable sortStrings : list string -> Rng -> list string * Rng.

Lemma fire_next_fields (i : Z) (wordList : list VocabularyItem)
      (st : WordRushGame.State) (g : Rng) :
  0 <= i ->
  exists st' g',
    WordRushRun.fire sortItems sortStrings (WordRushRun.NextRound i wordList)
      st g = Some (st', g')
    /\ WordRushGame.words st' = WordRushGame.words st
    /\ WordRushGame.currentIndex st' = i
    /\ WordRushGame.score st' = WordRushGame.score st
    /\ WordRushGame.lives st' = WordRushGame.lives st
    /\ WordRushGame.streak st' = WordRushGame.streak st
    /\ WordRushGame.feedback st' = None
    /\ WordRushGame.gameState st'
       = (if Z.of_nat (List.length wordList) <=? i
          then WordRushGame.GAME_OVER else WordRushGame.gameState st)
    /\ (i < Z.of_nat (List.length wordList) ->
        WordRushGame.timeLeft st' = JS.ofInt (WordRushGame.newMaxTime i)).
Proof.
  intros Hi. unfold WordRushRun.fire.
  match goal with
  | |- context [WordRushGame.prepareRound _ _ _ _ ?s g] =>
      destruct (prepareRound_fields sortItems sortStrings i wordList s g Hi)
        as (st' & g' & Hprep & Hw & Hidx & Hsc & Hl & Hs & Hg & Hf & Ht)
  end.
  arcade_fields. exists st', g'.
  repeat (split; [assumption|]). intros Hlt.
  destruct (Z.leb_spec (Z.of_nat (List.length wordList)) i); [lia|].
  exact Ht.
Qed.

Lemma effect_sound (data : list VocabularyItem)
      (old new : WordRushGame.State) (t : option WordRushGame.State) :
  (forall cl, t = Some cl ->
     WordRushGame.words cl = data
     /\ 0 <= WordRushGame.currentIndex cl < Z.of_nat (List.length data)) ->
  WordRushGame.words new = data ->
  (WordRushGame.gameState new = WordRushGame.PLAYING ->
   0 <= WordRushGame.currentIndex new < Z.of_nat (List.length data)) ->
  forall cl, WordRushRun.effect old new t = Some cl ->
    WordRushGame.words cl = data
    /\ 0 <= WordRushGame.currentIndex cl < Z.of_nat (List.length data).
Proof.
  intros Ht Hw Hp cl. unfold WordRushRun.effect.
  destruct (_ && _); [apply Ht|].
  destruct (WordRushGame.gameState new) eqn:Hg; try discriminate.
  intros H. injection H as <-. split; [exact Hw | now apply Hp].
Qed.

(** Every event keeps what every game keeps, and raises nothing. *)
Lemma step_sound (data : list VocabularyItem) (r : WordRushRun.Run)
      (e : WordRushRun.Event) (g : Rng) :
  WordRushRun.Sound data r ->
  exists r' g',
    WordRushRun.step sortItems sortStrings r e g = Some (r', g')
    /\ WordRushRun.Sound data r'
    /\ (WordRushRun.timeOuts r <= WordRushRun.timeOuts r')%nat.
Proof.
  intros [Hw Hld Hidx Hpl Hstk Hlv Htm Hpd].
  destruct e as [|sel|k]; cbn [WordRushRun.step].
  - destruct (WordRushRun.timer r) as [cl|] eqn:Ht.
    2: { exists r, g. split; [reflexivity|]. split; [|lia].
         constructor; try assumption. rewrite Ht. discriminate. }
    destruct (Htm cl eq_refl) as [Hcw Hci].
    destruct (index_defined (WordRushGame.words cl)
                (WordRushGame.currentIndex cl)) as [w Hw'];
      [rewrite Hcw; exact Hci|].
    cbv zeta.
    destruct (snd (WordRushRun.tick (WordRushGame.timeLeft (WordRushRun.now r))))
      eqn:Hout.
    + unfold WordRushRun.handleAnswerOf. rewrite Hw'. cbv zeta.
      eexists _, _. split; [reflexivity|]. arcade_fields.
      split; [|lia]. constructor; arcade_fields; try assumption; try lia.
      * intros cl'. destruct (WordRushGame.lives cl <=? 1); arcade_fields;
          [discriminate|]. rewrite Ht. intros H. injection H as <-.
        split; assumption.
      * intros c Hc. apply in_app_or in Hc. destruct Hc as [Hc|[<-|[]]];
          [now apply Hpd|].
        destruct (WordRushGame.lives cl <=? 1); arcade_fields;
          [now left|]. right. eexists. split; [now rewrite Hcw|]. lia.
    + eexists _, _. split; [reflexivity|]. arcade_fields.
      split; [|lia]. constructor; arcade_fields; assumption.
  - destruct (WordRushRun.enabled (WordRushRun.now r)) eqn:Hen.
    2: { exists r, g. split; [reflexivity|]. split; [|lia].
         constructor; assumption. }
    assert (Hplay : WordRushGame.gameState (WordRushRun.now r)
                    = WordRushGame.PLAYING).
    { unfold WordRushRun.enabled in Hen.
      destruct (WordRushGame.gameState (WordRushRun.now r));
        [discriminate | reflexivity | discriminate]. }
    specialize (Hpl Hplay).
    destruct (index_defined (WordRushGame.words (WordRushRun.now r))
                (WordRushGame.currentIndex (WordRushRun.now r))) as [w Hw'];
      [rewrite Hw; lia|].
    unfold WordRushGame.handleAnswer. rewrite Hw'.
    destruct (String.eqb sel (vietnameseDefinition w)).
    + eexists _, _. split; [reflexivity|]. arcade_fields.
      split; [|lia]. constructor; arcade_fields; try assumption; try lia.
      intros c Hc. apply in_app_or in Hc. destruct Hc as [Hc|[<-|[]]];
        [now apply Hpd|].
      right. eexists. split; [now rewrite Hw|]. lia.
    + eexists _, _. split; [reflexivity|]. arcade_fields.
      split; [|lia]. constructor; arcade_fields; try assumption; try lia.
      * intros cl'.
        destruct (WordRushGame.lives (WordRushRun.now r) <=? 1);
          arcade_fields; [discriminate|apply Htm].
      * intros c Hc. apply in_app_or in Hc. destruct Hc as [Hc|[<-|[]]];
          [now apply Hpd|].
        destruct (WordRushGame.lives (WordRushRun.now r) <=? 1);
          arcade_fields; [now left|].
        right. eexists. split; [now rewrite Hw|]. lia.
  - destruct (nth_error (WordRushRun.pending r) k) as [c|] eqn:Hk.
    2: { exists r, g. split; [reflexivity|]. split; [|lia].
         constructor; assumption. }
    assert (Hrest : forall c',
               In c' (firstn k (WordRushRun.pending r)
                      ++ skipn (S k) (WordRushRun.pending r))%list ->
               In c' (WordRushRun.pending r)).
    { intros c' Hc'. apply in_app_or in Hc'.
      destruct Hc' as [Hc'|Hc']; [eapply In_firstn | eapply In_skipn];
        exact Hc'. }
    destruct (Hpd c (nth_error_In _ _ Hk)) as [->|(i & -> & Hi)].
    + cbn [WordRushRun.fire]. eexists _, _. split; [reflexivity|].
      arcade_fields. split; [|lia].
      constructor; arcade_fields; try assumption; try discriminate.
      * apply (effect_sound data); arcade_fields;
          [exact Htm | exact Hw | discriminate].
      * intros c' Hc'. apply Hpd, Hrest, Hc'.
    + destruct (fire_next_fields i data (WordRushRun.now r) g
                  ltac:(lia))
        as (st' & g' & Hfire & Hw1 & Hi1 & Hsc1 & Hlv1 & Hsk1 & Hfb1
            & Hgs1 & _).
      rewrite Hfire. eexists _, _. split; [reflexivity|]. arcade_fields.
      assert (Hp1 : WordRushGame.gameState st' = WordRushGame.PLAYING ->
                    i < Z.of_nat (List.length data)).
      { rewrite Hgs1.
        destruct (Z.leb_spec (Z.of_nat (List.length data)) i);
          [discriminate | intros _; assumption]. }
      split; [|lia]. constructor; arcade_fields.
      * congruence.
      * rewrite Hgs1.
        destruct (Z.of_nat (List.length data) <=? i);
          [discriminate | assumption].
      * lia.
      * intros Hp. specialize (Hp1 Hp). lia.
      * lia.
      * lia.
      * apply (effect_sound data); [exact Htm | congruence |].
        intros Hp. specialize (Hp1 Hp). lia.
      * intros c' Hc'. apply Hpd, Hrest, Hc'.
Qed.

(** An event at which no countdown is run out leads from a phase to a
    phase. *)
Lemma step_phase (data : list VocabularyItem) (r r' : WordRushRun.Run)
      (e : WordRushRun.Event) (g g' : Rng) :
  WordRushRun.Sound data r ->
  WordRushRun.Phase data r ->
  WordRushRun.step sortItems sortStrings r e g = Some (r', g') ->
  WordRushRun.timeOuts r' = WordRushRun.timeOuts r ->
  WordRushRun.Phase data r'.
Proof.
  intros [Hw Hld Hidx Hpl Hstk Hlv Htm Hpd] HP Hstep Hto.
  destruct e as [|sel|k]; cbn [WordRushRun.step] in Hstep.
  - destruct (WordRushRun.timer r) as [cl|] eqn:Ht;
      [|injection Hstep as <- _; exact HP].
    destruct (Htm cl eq_refl) as [Hcw Hci].
    destruct (index_defined (WordRushGame.words cl)
                (WordRushGame.currentIndex cl)) as [w Hw'];
      [rewrite Hcw; exact Hci|].
    cbv zeta in Hstep.
    destruct (snd (WordRushRun.tick (WordRushGame.timeLeft (WordRushRun.now r)))).
    + unfold WordRushRun.handleAnswerOf in Hstep. rewrite Hw' in Hstep.
      cbv zeta in Hstep. injection Hstep as <- _. arcade_fields. lia.
    + injection Hstep as <- _.
      destruct HP;
        [apply WordRushRun.RoundOpen | apply WordRushRun.RoundAnswered
         | apply WordRushRun.LastLifeLost | apply WordRushRun.Over];
        arcade_fields; first [assumption | congruence].
  - destruct (WordRushRun.enabled (WordRushRun.now r)) eqn:Hen;
      [|injection Hstep as <- _; exact HP].
    unfold WordRushRun.enabled in Hen.
    destruct HP as [Hgs Hfb Hpe Hl Hs|Hgs Hfb Hpe Hl Hs
                    |Hgs Hfb Hpe Htn Hl Hs|Hgs Hpe Htn Hend Hl Hs];
      rewrite Hgs in Hen; try discriminate Hen.
    2: { destruct (WordRushGame.feedback (WordRushRun.now r));
           [discriminate Hen | now elim Hfb]. }
    2: { rewrite Hfb in Hen. discriminate Hen. }
    specialize (Hpl Hgs).
    destruct (index_defined (WordRushGame.words (WordRushRun.now r))
                (WordRushGame.currentIndex (WordRushRun.now r))) as [w Hw'];
      [rewrite Hw; lia|].
    unfold WordRushGame.handleAnswer in Hstep. rewrite Hw' in Hstep.
    destruct (String.eqb sel (vietnameseDefinition w)).
    + injection Hstep as <- _. apply WordRushRun.RoundAnswered;
        arcade_fields; try assumption; try discriminate; try lia.
      rewrite Hpe, Hw. reflexivity.
    + destruct (Z.leb_spec (WordRushGame.lives (WordRushRun.now r)) 1)
        as [Hlast|Hmore]; injection Hstep as <- _.
      * apply WordRushRun.LastLifeLost; arcade_fields;
          try assumption; try reflexivity; try lia.
        rewrite Hpe. reflexivity.
      * apply WordRushRun.RoundAnswered; arcade_fields;
          try assumption; try discriminate; try lia.
        rewrite Hpe, Hw. reflexivity.
  - destruct (nth_error (WordRushRun.pending r) k) as [c|] eqn:Hk;
      [|injection Hstep as <- _; exact HP].
    destruct HP as [Hgs Hfb Hpe Hl Hs|Hgs Hfb Hpe Hl Hs
                    |Hgs Hfb Hpe Htn Hl Hs|Hgs Hpe Htn Hend Hl Hs];
      rewrite Hpe in Hk, Hstep.
    + destruct k; discriminate Hk.
    + destruct k as [|k]; [|destruct k; discriminate Hk].
      injection Hk as <-. specialize (Hpl Hgs).
      destruct (fire_next_fields
                  (WordRushGame.currentIndex (WordRushRun.now r) + 1) data
                  (WordRushRun.now r) g ltac:(lia))
        as (st' & g1 & Hfire & Hw1 & Hi1 & Hsc1 & Hlv1 & Hsk1 & Hfb1
            & Hgs1 & _).
      rewrite Hfire in Hstep. injection Hstep as <- _.
      destruct (Z.leb_spec (Z.of_nat (List.length data))
                  (WordRushGame.currentIndex (WordRushRun.now r) + 1))
        as [Hend|Hfar].
      * apply WordRushRun.Over; arcade_fields;
          try assumption; try reflexivity; try lia.
        unfold WordRushRun.effect. rewrite Hgs, Hgs1. reflexivity.
      * apply WordRushRun.RoundOpen; arcade_fields;
          try assumption; try reflexivity; try lia. congruence.
    + destruct k as [|k]; [|destruct k; discriminate Hk].
      injection Hk as <-. cbn [WordRushRun.fire] in Hstep.
      injection Hstep as <- _.
      apply WordRushRun.Over; arcade_fields;
        try assumption; try reflexivity; try lia.
      unfold WordRushRun.effect. arcade_fields. rewrite Hgs. reflexivity.
    + destruct k; discriminate Hk.
Qed.

Lemma run_app (e1 e2 : list WordRushRun.Event) :
  forall r g,
    WordRushRun.run sortItems sortStrings (e1 ++ e2)%list r g
    = match WordRushRun.run sortItems sortStrings e1 r g with
      | Some (r', g') => WordRushRun.run sortItems sortStrings e2 r' g'
      | None => None
      end.
Proof.
  induction e1 as [|e e1 IH]; intros r g; [reflexivity|].
  cbn [app WordRushRun.run].
  destruct (WordRushRun.step sortItems sortStrings r e g) as [[r' g']|];
    [apply IH | reflexivity].
Qed.

(** Ticks of which none runs out change the time left and nothing
    else. *)
Lemma run_quiet (k : nat) (rest : list WordRushRun.Event) :
  forall r g,
    WordRushRun.timer r <> None ->
    WordRushRun.noRunOut k (WordRushGame.timeLeft (WordRushRun.now r))
    = true ->
    WordRushRun.run sortItems sortStrings
      (repeat WordRushRun.Tick k ++ rest)%list r g
    = WordRushRun.run sortItems sortStrings rest (WordRushRun.quiet k r) g.
Proof.
  induction k as [|k IH]; intros r g Ht Hq.
  - destruct r as [[gs ws ci sc lv tl mt op sk fb] tm pd wp to].
    reflexivity.
  - cbn [repeat app WordRushRun.run WordRushRun.step].
    destruct (WordRushRun.timer r) as [cl|] eqn:Hcl; [|now elim Ht].
    cbn [WordRushRun.noRunOut] in Hq. apply andb_true_iff in Hq.
    destruct Hq as [Hone Hq]. apply negb_true_iff in Hone.
    cbv zeta. rewrite Hone. rewrite IH.
    + unfold WordRushRun.quiet. arcade_fields. rewrite Hcl. reflexivity.
    + arcade_fields. discriminate.
    + arcade_fields. exact Hq.
Qed.

(** Ticks do nothing when no interval runs. *)
Lemma run_stopped (k : nat) (rest : list WordRushRun.Event) :
  forall r g,
    WordRushRun.timer r = None ->
    WordRushRun.run sortItems sortStrings
      (repeat WordRushRun.Tick k ++ rest)%list r g
    = WordRushRun.run sortItems sortStrings rest r g.
Proof.
  induction k as [|k IH]; intros r g Ht; [reflexivity|].
  cbn [repeat app WordRushRun.run WordRushRun.step]. rewrite Ht.
  now apply IH.
Qed.

(** A round answered by a wrong press, with a life to spare and a word
    to come. *)
Lemma wrong_round (data : list VocabularyItem) (i l sc : Z) (wp : nat)
      (r : WordRushRun.Run) (w : VocabularyItem) (s : string) (a b : nat)
      (rest : list WordRushRun.Event) (g : Rng) :
  WordRushRun.AtRound data i l sc wp r ->
  JS.index data i = Some w ->
  s <> vietnameseDefinition w ->
  2 <= l ->
  i + 1 < Z.of_nat (List.length data) ->
  WordRushRun.noRunOut (a + b) (JS.ofInt (WordRushGame.newMaxTime i)) = true ->
  exists rf g',
    WordRushRun.run sortItems sortStrings
      (WordRushRun.pressRound a s b ++ rest)%list r g
    = WordRushRun.run sortItems sortStrings rest rf g'
    /\ WordRushRun.AtRound data (i + 1) (l - 1) sc (wp + 1) rf.
Proof.
  intros [Hgs Hfb Hpe Htm Hw Hi Hl Hsc Htl Hwp Hto] Hword Hs Hl2 Hnext Hq.
  destruct (noRunOut_add _ _ _ Hq) as [Ha Hb].
  destruct (index_Some _ _ _ Hword) as [Hrange _].
  unfold WordRushRun.pressRound. rewrite <- app_assoc. cbn [app].
  rewrite <- app_assoc. cbn [app].
  rewrite run_quiet; [|rewrite Htm; discriminate|rewrite Htl; exact Ha].
  cbn [WordRushRun.run WordRushRun.step].
  unfold WordRushRun.enabled, WordRushGame.handleAnswer, WordRushRun.quiet.
  arcade_fields. rewrite Hgs, Hfb, Hw, Hi, Hword, Hl.
  rewrite (proj2 (String.eqb_neq _ _) Hs).
  destruct (Z.leb_spec l 1) as [?|_]; [lia|].
  rewrite run_quiet; arcade_fields;
    [|rewrite Htm; discriminate|rewrite Htl; exact Hb].
  cbn [WordRushRun.run WordRushRun.step].
  unfold WordRushRun.quiet. arcade_fields. rewrite Hpe.
  cbn [app nth_error firstn skipn].
  match goal with
  | |- context [WordRushRun.fire _ _ (WordRushRun.NextRound ?j ?wl) ?st ?g0] =>
      destruct (fire_next_fields j wl st g0 ltac:(lia))
        as (st' & g' & Hfire & Hw1 & Hi1 & Hsc1 & Hlv1 & Hsk1 & Hfb1
            & Hgs1 & Htl1)
  end.
  rewrite Hfire. arcade_fields. eexists _, g'. split; [reflexivity|].
  assert (Hfar : (Z.of_nat (List.length data) <=? i + 1) = false)
    by (apply Z.leb_gt; lia).
  rewrite ?Hw, ?Hi in Hw1. rewrite ?Hw, ?Hi in Hi1.
  rewrite ?Hw, ?Hi in Hgs1. rewrite ?Hw, ?Hi in Htl1.
  rewrite Hfar in Hgs1.
  constructor; arcade_fields; try assumption; try reflexivity;
    try congruence; try lia.
  - unfold WordRushRun.effect. arcade_fields. rewrite Hgs1, Hi1.
    cbn [WordRushRun.gameState_eqb andb].
    destruct (Z.eqb_spec i (i + 1)) as [?|_]; [lia|]. reflexivity.
  - now apply Htl1.
Qed.

(** A round answered by a wrong press with the last life. *)
Lemma last_round (data : list VocabularyItem) (i sc : Z) (wp : nat)
      (r : WordRushRun.Run) (w : VocabularyItem) (s : string) (a b : nat)
      (g : Rng) :
  WordRushRun.AtRound data i 1 sc wp r ->
  JS.index data i = Some w ->
  s <> vietnameseDefinition w ->
  WordRushRun.noRunOut a (JS.ofInt (WordRushGame.newMaxTime i)) = true ->
  exists rf,
    WordRushRun.run sortItems sortStrings (WordRushRun.pressRound a s b) r g
    = Some (rf, g)
    /\ WordRushGame.gameState (WordRushRun.now rf) = WordRushGame.GAME_OVER
    /\ WordRushGame.lives (WordRushRun.now rf) = 0
    /\ WordRushGame.score (WordRushRun.now rf) = sc
    /\ WordRushGame.currentIndex (WordRushRun.now rf) = i
    /\ WordRushRun.pending rf = []
    /\ WordRushRun.timer rf = None
    /\ WordRushRun.wrongPresses rf = (wp + 1)%nat
    /\ WordRushRun.timeOuts rf = 0%nat.
Proof.
  intros [Hgs Hfb Hpe Htm Hw Hi Hl Hsc Htl Hwp Hto] Hword Hs Ha.
  unfold WordRushRun.pressRound.
  rewrite run_quiet; [|rewrite Htm; discriminate|rewrite Htl; exact Ha].
  cbn [WordRushRun.run WordRushRun.step].
  unfold WordRushRun.enabled, WordRushGame.handleAnswer, WordRushRun.quiet.
  arcade_fields. rewrite Hgs, Hfb, Hw, Hi, Hword, Hl.
  rewrite (proj2 (String.eqb_neq _ _) Hs).
  change (1 <=? 1) with true. cbv iota.
  rewrite run_stopped; [|reflexivity].
  cbn [WordRushRun.run WordRushRun.step]. arcade_fields. rewrite Hpe.
  cbn [app nth_error firstn skipn WordRushRun.fire].
  eexists. split; [reflexivity|]. arcade_fields.
  unfold WordRushRun.effect. arcade_fields.
  cbn [WordRushRun.gameState_eqb andb].
  repeat split; try assumption; try lia.
Qed.

Lemma run_sound (data : list VocabularyItem)
      (events : list WordRushRun.Event) :
  forall r g,
    WordRushRun.Sound data r ->
    exists rf g',
      WordRushRun.run sortItems sortStrings events r g = Some (rf, g')
      /\ WordRushRun.Sound data rf
      /\ (WordRushRun.timeOuts r <= WordRushRun.timeOuts rf)%nat
      /\ (WordRushRun.Phase data r ->
          WordRushRun.timeOuts rf = WordRushRun.timeOuts r ->
          WordRushRun.Phase data rf).
Proof.
  induction events as [|e events IH]; intros r g HS.
  - exists r, g. split; [reflexivity|]. split; [exact HS|].
    split; [lia|]. intros HP _. exact HP.
  - cbn [WordRushRun.run].
    destruct (step_sound data r e g HS) as (r1 & g1 & Hstep & HS1 & Hle1).
    rewrite Hstep.
    destruct (IH r1 g1 HS1) as (rf & g' & Hrun & HSf & Hle & HPf).
    exists rf, g'. split; [exact Hrun|]. split; [exact HSf|].
    split; [lia|]. intros HP Hto. apply HPf; [|lia].
    apply (step_phase data r r1 e g g1 HS HP Hstep). lia.
Qed.

Lemma start_sound (data : list VocabularyItem) (g : Rng) :
  exists r g1,
    WordRushRun.start sortItems sortStrings data g = Some (r, g1)
    /\ WordRushRun.Sound data r
    /\ WordRushRun.Phase data r
    /\ WordRushRun.timeOuts r = 0%nat
    /\ WordRushRun.wrongPresses r = 0%nat
    /\ WordRushGame.score (WordRushRun.now r) = 0
    /\ WordRushGame.currentIndex (WordRushRun.now r) = 0
    /\ WordRushRun.pending r = []
    /\ WordRushGame.feedback (WordRushRun.now r) = None
    /\ (data <> [] ->
        WordRushGame.gameState (WordRushRun.now r) = WordRushGame.PLAYING
        /\ WordRushRun.timer r = Some (WordRushRun.now r)
        /\ WordRushGame.timeLeft (WordRushRun.now r) = JS.ofInt 10).
Proof.
  unfold WordRushRun.start, WordRushRun.loadWords.
  match goal with
  | |- context [WordRushGame.prepareRound _ _ 0 data ?s g] =>
      destruct (prepareRound_fields sortItems sortStrings 0 data s g
                  ltac:(lia))
        as (st & g' & Hprep & Hwd & Hi & Hsc & Hlv & Hsk & Hgs & Hfb & Htl)
  end.
  rewrite Hprep.
  cbn [WordRushGame.words WordRushGame.currentIndex WordRushGame.score
       WordRushGame.lives WordRushGame.streak WordRushGame.gameState
       WordRushGame.feedback WordRushGame.timeLeft
       WordRushGame.initial] in Hwd, Hi, Hsc, Hlv, Hsk, Hgs, Hfb, Htl.
  eexists _, _. split; [reflexivity|]. arcade_fields.
  unfold WordRushRun.effect. rewrite Hgs, Hi.
  cbn [WordRushGame.gameState WordRushGame.currentIndex WordRushGame.initial].
  destruct (Z.leb_spec (Z.of_nat (List.length data)) 0) as [Hnone|Hsome];
    cbn [WordRushRun.gameState_eqb andb].
  - assert (Hlen : List.length data = 0%nat) by lia.
    split; [constructor; arcade_fields; rewrite ?Hgs, ?Hi, ?Hlv, ?Hsk;
            try discriminate; try lia; try assumption;
            intros c [] |].
    split; [apply WordRushRun.Over; arcade_fields;
            rewrite ?Hgs, ?Hi, ?Hlv, ?Hsk; try reflexivity; try lia|].
    do 6 (split; [first [reflexivity | assumption]|]).
    intros Hne. destruct data; [now elim Hne | discriminate Hlen].
  - split; [constructor; arcade_fields; rewrite ?Hgs, ?Hi, ?Hlv, ?Hsk;
            try discriminate; try lia; try assumption|].
    + intros cl H. injection H as <-. rewrite Hi. split; [assumption|lia].
    + intros c [].
    + split; [apply WordRushRun.RoundOpen; arcade_fields;
              rewrite ?Hgs, ?Hi, ?Hlv, ?Hsk; try reflexivity;
              try assumption; try lia|].
      do 6 (split; [first [reflexivity | assumption]|]).
      intros _. repeat split; first [reflexivity | assumption].
Qed.

Lemma start_round (data : list VocabularyItem) (g : Rng) :
  data <> [] ->
  exists r g1,
    WordRushRun.start sortItems sortStrings data g = Some (r, g1)
    /\ WordRushRun.AtRound data 0 3 0 0 r.
Proof.
  intros Hne.
  destruct (start_sound data g)
    as (r & g1 & Hstart & HS & _ & Hto & Hwp & Hsc & Hidx & Hpe & Hfb
        & Hplay).
  destruct (Hplay Hne) as (Hgs & Htm & Htl).
  exists r, g1. split; [exact Hstart|].
  pose proof (WordRushRun.sound_lives _ _ HS) as Hlv.
  pose proof (WordRushRun.sound_words _ _ HS) as Hw.
  constructor; try assumption; try lia.
Qed.

Lemma tick_out (t : float) :
  snd (WordRushRun.tick t) = true ->
  fst (WordRushRun.tick t) = 0%float
  /\ snd (WordRushRun.tick (fst (WordRushRun.tick t))) = true.
Proof.
  unfold WordRushRun.tick. destruct (t <=? 0.1)%float; [|discriminate].
  intros _. split; reflexivity.
Qed.

End Course.

(** X20. A game of Word Rush raises nothing, whatever the word list
    that arrived, the shuffles, and the ticks of the interval, the
    presses of options and the firings of callbacks that follow, in
    any order.  All along, the words are those that arrived, the index
    is within the list and on a word while the game is played, the
    streak is not negative, and the lives are 3 less the wrong presses
    and less the ticks at which the countdown was run out.  As long as
    no countdown has run out, the lives are between 0 and 3, the streak
    is at most the index plus one, at most one callback is waiting, a
    game that is over has no life left or has played every word, and a
    game without a life is over or waits, its interval cleared and its
    buttons disabled, for the callback that ends it. *)
Theorem arcade_game_keeps
  (Rng : Type)
  (sortItems : list VocabularyItem -> Rng -> list VocabularyItem * Rng)
  (sortStrings : list string -> Rng -> list string * Rng)
  (data : list VocabularyItem) (events : list WordRushRun.Event) (g : Rng) :
  exists r g1 rf g2,
    WordRushRun.start sortItems sortStrings data g = Some (r, g1)
    /\ WordRushRun.run sortItems sortStrings events r g1 = Some (rf, g2)
    /\ WordRushGame.words (WordRushRun.now rf) = data
    /\ WordRushGame.gameState (WordRushRun.now rf) <> WordRushGame.LOADING
    /\ 0 <= WordRushGame.currentIndex (WordRushRun.now rf)
       <= Z.of_nat (List.length data)
    /\ (WordRushGame.gameState (WordRushRun.now rf) = WordRushGame.PLAYING ->
        WordRushGame.currentIndex (WordRushRun.now rf)
        < Z.of_nat (List.length data))
    /\ 0 <= WordRushGame.streak (WordRushRun.now rf)
    /\ WordRushGame.lives (WordRushRun.now rf)
       = 3 - Z.of_nat (WordRushRun.wrongPresses rf)
         - Z.of_nat (WordRushRun.timeOuts rf)
    /\ (WordRushRun.timeOuts rf = 0%nat ->
        0 <= WordRushGame.lives (WordRushRun.now rf) <= 3
        /\ WordRushGame.streak (WordRushRun.now rf)
           <= WordRushGame.currentIndex (WordRushRun.now rf) + 1
        /\ (List.length (WordRushRun.pending rf) <= 1)%nat
        /\ (WordRushGame.gameState (WordRushRun.now rf)
            = WordRushGame.GAME_OVER ->
            WordRushGame.lives (WordRushRun.now rf) = 0
            \/ WordRushGame.currentIndex (WordRushRun.now rf)
               = Z.of_nat (List.length data))
        /\ (WordRushGame.lives (WordRushRun.now rf) = 0 ->
            WordRushGame.gameState (WordRushRun.now rf)
            = WordRushGame.GAME_OVER
            \/ WordRushRun.pending rf = [WordRushRun.GameOver]
               /\ WordRushRun.timer rf = None
               /\ WordRushRun.enabled (WordRushRun.now rf) = false)).
Proof.
  destruct (start_sound sortItems sortStrings data g)
    as (r & g1 & Hstart & HS & HP & Hto & _).
  destruct (run_sound sortItems sortStrings data events r g1 HS)
    as (rf & g2 & Hrun & [Hw Hld Hidx Hpl Hstk Hlv Htm Hpd] & _ & HPf).
  exists r, g1, rf, g2.
  split; [exact Hstart|]. split; [exact Hrun|]. split; [exact Hw|].
  split; [exact Hld|]. split; [exact Hidx|]. split; [exact Hpl|].
  split; [exact Hstk|]. split; [exact Hlv|].
  intros Hnone. specialize (HPf HP ltac:(lia)).
  destruct HPf as [Hgs Hfb Hpe Hl Hs|Hgs Hfb Hpe Hl Hs
                   |Hgs Hfb Hpe Htn Hl Hs|Hgs Hpe Htn Hend Hl Hs];
    rewrite Hpe, Hgs; cbn [List.length].
  - split; [lia|]. split; [lia|]. split; [lia|].
    split; [discriminate|]. intros H0. lia.
  - split; [lia|]. split; [lia|]. split; [lia|].
    split; [discriminate|]. intros H0. lia.
  - split; [lia|]. split; [lia|]. split; [lia|].
    split; [discriminate|]. intros _. right.
    split; [reflexivity|]. split; [exact Htn|].
    unfold WordRushRun.enabled. rewrite Hgs, Hfb. reflexivity.
  - split; [lia|]. split; [lia|]. split; [lia|].
    split; [intros _; exact Hend|]. intros _. now left.
Qed.

(** X21. Three presses of options, each a wrong one for the word of its
    round, end a fresh game on at least three words: with any number
    of ticks before each press and before the callback that follows
    it, as long as no countdown runs out (the first three rounds have
    ten seconds, which a hundred ticks do not use up), the game is
    over at the third word with no life and no score, after three wrong
    presses and no time-out; leaving the game then changes neither the
    leaderboard nor the user state. *)
Theorem three_misses_end_the_game
  (Rng : Type)
  (sortItems : list VocabularyItem -> Rng -> list VocabularyItem * Rng)
  (sortStrings : list string -> Rng -> list string * Rng)
  (w1 w2 w3 : VocabularyItem) (more : list VocabularyItem)
  (s1 s2 s3 : string) (a1 b1 a2 b2 a3 b3 : nat) (g : Rng)
  (now playerName : string) (shell : Shell.State)
  (Hs1 : s1 <> vietnameseDefinition w1)
  (Hs2 : s2 <> vietnameseDefinition w2)
  (Hs3 : s3 <> vietnameseDefinition w3)
  (Ht1 : (a1 + b1 <= 100)%nat)
  (Ht2 : (a2 + b2 <= 100)%nat)
  (Ht3 : (a3 <= 100)%nat) :
  exists r g1 rf g2,
    WordRushRun.start sortItems sortStrings (w1 :: w2 :: w3 :: more) g
    = Some (r, g1)
    /\ WordRushRun.run sortItems sortStrings
         (WordRushRun.pressRound a1 s1 b1 ++ WordRushRun.pressRound a2 s2 b2
          ++ WordRushRun.pressRound a3 s3 b3)%list r g1
       = Some (rf, g2)
    /\ WordRushGame.gameState (WordRushRun.now rf) = WordRushGame.GAME_OVER
    /\ WordRushGame.lives (WordRushRun.now rf) = 0
    /\ WordRushGame.score (WordRushRun.now rf) = 0
    /\ WordRushGame.currentIndex (WordRushRun.now rf) = 2
    /\ WordRushRun.wrongPresses rf = 3%nat
    /\ WordRushRun.timeOuts rf = 0%nat
    /\ Shell.leaderboardData
         (WordRushRun.exitGame now (WordRushRun.now rf) playerName shell)
       = Shell.leaderboardData shell
    /\ Shell.storedLeaderboard
         (WordRushRun.exitGame now (WordRushRun.now rf) playerName shell)
       = Shell.storedLeaderboard shell
    /\ Shell.userState
         (WordRushRun.exitGame now (WordRushRun.now rf) playerName shell)
       = Shell.userState shell.
Proof.
  set (data := w1 :: w2 :: w3 :: more).
  assert (Hlen : 3 <= Z.of_nat (List.length data))
    by (subst data; cbn [List.length]; lia).
  destruct (start_round sortItems sortStrings data g ltac:(discriminate))
    as (r & g1 & Hstart & H0).
  destruct (wrong_round sortItems sortStrings data 0 3 0 0 r w1 s1 a1 b1
              (WordRushRun.pressRound a2 s2 b2
               ++ WordRushRun.pressRound a3 s3 b3)%list g1 H0 eq_refl Hs1
              ltac:(lia) ltac:(lia) (noRunOut_ten _ Ht1))
    as (r1 & g2 & Hrun1 & H1).
  destruct (wrong_round sortItems sortStrings data (0 + 1) (3 - 1) 0 (0 + 1)
              r1 w2 s2 a2 b2 (WordRushRun.pressRound a3 s3 b3) g2 H1
              eq_refl Hs2 ltac:(lia) ltac:(lia) (noRunOut_ten _ Ht2))
    as (r2 & g3 & Hrun2 & H2).
  destruct (last_round sortItems sortStrings data (0 + 1 + 1) 0 (0 + 1 + 1)
              r2 w3 s3 a3 b3 g3 H2 eq_refl Hs3 (noRunOut_ten _ Ht3))
    as (rf & Hrun3 & Hgs & Hl & Hsc & Hi & _ & _ & Hwp & Hto).
  exists r, g1, rf, g3. split; [exact Hstart|].
  split; [rewrite Hrun1, Hrun2; exact Hrun3|].
  split; [exact Hgs|]. split; [exact Hl|]. split; [exact Hsc|].
  split; [exact Hi|]. split; [exact Hwp|]. split; [exact Hto|].
  unfold WordRushRun.exitGame, Shell.handleGameExit. rewrite Hsc.
  repeat split.
Qed.

Lemma three_misses_end_the_game_witness :
  exists r g1 rf g2,
    WordRushRun.start Sample.keepOrder Sample.keepOrder Sample.animals tt
    = Some (r, g1)
    /\ In "con cho" (WordRushGame.options (WordRushRun.now r))
    /\ WordRushRun.run Sample.keepOrder Sample.keepOrder
         (WordRushRun.pressRound 12 "con cho" 10
          ++ WordRushRun.pressRound 30 "con meo" 10
          ++ WordRushRun.pressRound 5 "con meo" 10)%list r g1
       = Some (rf, g2)
    /\ WordRushGame.gameState (WordRushRun.now rf) = WordRushGame.GAME_OVER
    /\ WordRushGame.lives (WordRushRun.now rf) = 0.
Proof.
  destruct (three_misses_end_the_game unit Sample.keepOrder Sample.keepOrder
              (Sample.item "1" "cat" "con meo")
              (Sample.item "2" "dog" "con cho")
              (Sample.item "3" "bird" "con chim")
              [Sample.item "4" "fish" "con ca";
               Sample.item "5" "horse" "con ngua"]
              "con cho" "con meo" "con meo" 12 10 30 10 5 10 tt
              "today" "" More.shell
              ltac:(discriminate) ltac:(discriminate) ltac:(discriminate)
              ltac:(lia) ltac:(lia) ltac:(lia))
    as (r & g1 & rf & g2 & Hstart & Hrun & Hover & Hl & _).
  exists r, g1, rf, g2. split; [exact Hstart|].
  split; [|split; [exact Hrun|split; [exact Hover|exact Hl]]].
  vm_compute in Hstart. injection Hstart as <- _. vm_compute. tauto.
Defined.

(** X22. A countdown that is run out is run out again at every tick
    until the interval is cleared, and the handler that the interval
    calls is the one of the render in which the interval was set: while
    that render has two lives or more, each of [n] ticks on a countdown
    that is run out takes a life and registers one more callback for
    the next round, the interval goes on and the game stays as it is
    otherwise.  So the lives fall below zero when ten such ticks come
    before the first callback fires. *)
Theorem time_out_repeats
  (Rng : Type)
  (sortItems : list VocabularyItem -> Rng -> list VocabularyItem * Rng)
  (sortStrings : list string -> Rng -> list string * Rng)
  (r : WordRushRun.Run) (cl : WordRushGame.State) (w : VocabularyItem)
  (n : nat) (g : Rng)
  (Htimer : WordRushRun.timer r = Some cl)
  (Hword : JS.index (WordRushGame.words cl) (WordRushGame.currentIndex cl)
           = Some w)
  (Hlives : 2 <= WordRushGame.lives cl)
  (Hout : snd (WordRushRun.tick (WordRushGame.timeLeft (WordRushRun.now r)))
          = true) :
  exists rf,
    WordRushRun.run sortItems sortStrings (repeat WordRushRun.Tick n) r g
    = Some (rf, g)
    /\ WordRushGame.lives (WordRushRun.now rf)
       = WordRushGame.lives (WordRushRun.now r) - Z.of_nat n
    /\ WordRushRun.timeOuts rf = (WordRushRun.timeOuts r + n)%nat
    /\ WordRushRun.wrongPresses rf = WordRushRun.wrongPresses r
    /\ WordRushRun.pending rf
       = (WordRushRun.pending r
          ++ repeat (WordRushRun.NextRound (WordRushGame.currentIndex cl + 1)
                                           (WordRushGame.words cl)) n)%list
    /\ WordRushRun.timer rf = Some cl
    /\ WordRushGame.gameState (WordRushRun.now rf)
       = WordRushGame.gameState (WordRushRun.now r)
    /\ WordRushGame.currentIndex (WordRushRun.now rf)
       = WordRushGame.currentIndex (WordRushRun.now r)
    /\ WordRushGame.score (WordRushRun.now rf)
       = WordRushGame.score (WordRushRun.now r)
    /\ ((1 <= n)%nat ->
        WordRushGame.streak (WordRushRun.now rf) = 0
        /\ WordRushGame.feedback (WordRushRun.now rf)
           = Some WordRushGame.MISS
        /\ WordRushGame.timeLeft (WordRushRun.now rf) = 0%float).
Proof.
  revert r g Htimer Hout.
  induction n as [|n IH]; intros r g Htm Hout.
  - exists r. split; [reflexivity|]. rewrite app_nil_r.
    repeat split; try assumption; try lia.
  - cbn [repeat WordRushRun.run WordRushRun.step]. rewrite Htm. cbv zeta.
    rewrite Hout. unfold WordRushRun.handleAnswerOf. rewrite Hword.
    cbv zeta.
    destruct (Z.leb_spec (WordRushGame.lives cl) 1) as [?|_]; [lia|].
    destruct (tick_out _ Hout) as [Hzero Hagain].
    match goal with
    | |- context [WordRushRun.run _ _ _ ?r1 g] =>
        destruct (IH r1 g) as (rf & Hrun & Hl & Hto & Hwp & Hpe & Ht & Hgs
                               & Hi & Hsc & Hlast);
          [arcade_fields; exact Htm
          |arcade_fields; rewrite Hzero; reflexivity|]
    end.
    exists rf. split; [exact Hrun|]. arcade_fields.
    rewrite Hl, Hto, Hwp, Hpe, Ht, Hgs, Hi, Hsc.
    rewrite <- app_assoc. cbn [app].
    repeat (split; [first [reflexivity | lia]|]).
    intros _. destruct n as [|n]; [|apply Hlast; lia].
    cbn [repeat WordRushRun.run] in Hrun. injection Hrun as <-.
    arcade_fields. repeat split. exact Hzero.
Qed.

Lemma time_out_repeats_witness :
  WordRushGame.lives (WordRushRun.now More.aboutToRunOut) = 3
  /\ WordRushRun.timeOuts More.aboutToRunOut = 0%nat
  /\ exists rf,
       WordRushRun.run Sample.keepOrder Sample.keepOrder
         (repeat WordRushRun.Tick 10) More.aboutToRunOut tt = Some (rf, tt)
       /\ WordRushGame.lives (WordRushRun.now rf) = -7
       /\ WordRushRun.timeOuts rf = 10%nat
       /\ List.length (WordRushRun.pending rf) = 10%nat
       /\ WordRushGame.gameState (WordRushRun.now rf) = WordRushGame.PLAYING.
Proof.
  split; [vm_compute; reflexivity|]. split; [vm_compute; reflexivity|].
  assert (Htimer : WordRushRun.timer More.aboutToRunOut
                   = Some (WordRushRun.now More.freshGame))
    by (vm_compute; reflexivity).
  assert (Hword : JS.index
                    (WordRushGame.words (WordRushRun.now More.freshGame))
                    (WordRushGame.currentIndex
                       (WordRushRun.now More.freshGame))
                  = Some (Sample.item "1" "cat" "con meo"))
    by (vm_compute; reflexivity).
  assert (Hlives : 2 <= WordRushGame.lives (WordRushRun.now More.freshGame))
    by (vm_compute; discriminate).
  assert (Hout : snd (WordRushRun.tick
                        (WordRushGame.timeLeft
                           (WordRushRun.now More.aboutToRunOut))) = true)
    by (vm_compute; reflexivity).
  destruct (time_out_repeats unit Sample.keepOrder Sample.keepOrder
              More.aboutToRunOut (WordRushRun.now More.freshGame)
              (Sample.item "1" "cat" "con meo") 10 tt
              Htimer Hword Hlives Hout)
    as (rf & Hrun & Hl & Hto & _ & Hpe & _ & Hgs & _).
  exists rf. split; [exact Hrun|].
  split; [rewrite Hl; vm_compute; reflexivity|].
  split; [rewrite Hto; vm_compute; reflexivity|].
  split; [rewrite Hpe; vm_compute; reflexivity|].
  rewrite Hgs. vm_compute. reflexivity.
Defined.

(** ** Lower-casing and trimming, as the words say *)

















(** ** The points of a hit, in exact arithmetic *)

(** [Math_ceil] is the ceiling of the number that the binary64 value
    is. *)
Lemma Math_ceil_exact (x : float) (v : QArith_base.Q) :
  Spec.exactValue x = Some v -> JS.Math_ceil x = Qround.Qceiling v.
Proof.
  unfold Spec.exactValue, JS.Math_ceil.
  destruct (Prim2SF x) as [s| | |s m e]; try discriminate.
  - intros H. injection H as <-. reflexivity.
  - cbv zeta. intros H. injection H as <-. unfold JS.ceilFinite. cbv zeta.
    destruct (Z.leb_spec 0 e) as [Hpos|Hneg].
    + rewrite Qround.Qceiling_Z. destruct s; [|reflexivity].
      rewrite <- Pos2Z.opp_pos. lia.
    + assert (HD : 0 < 2 ^ (- e)) by (apply Z.pow_pos_nonneg; lia).
      unfold Qround.Qceiling, Qround.Qfloor, QArith_base.Qopp.
      cbn [QArith_base.Qnum QArith_base.Qden].
      rewrite (Z2Pos.id _ HD). destruct s.
      * rewrite <- Pos2Z.opp_pos, Z.opp_involutive. reflexivity.
      * assert (HD0 : 2 ^ (- e) <> 0) by lia.
        destruct (Z.eqb_spec (Z.pos m mod 2 ^ (- e)) 0) as [Hz|Hnz].
        -- rewrite (Z.div_opp_l_z _ _ HD0 Hz). lia.
        -- rewrite (Z.div_opp_l_nz _ _ HD0 Hnz). lia.
Qed.

Example points_after_one_tick :
  WordRushGame.points (WordRushGame.timeLeft More.afterOneTick) 0 = 199
  /\ Spec.exactPoints (WordRushGame.timeLeft More.afterOneTick) 0 = Some 200.
Proof. split; vm_compute; reflexivity. Qed.

(** C9, as stated, fails: one tick into the first round the time left
    is the binary64 value of [10 - 0.1], a little above 9.9; ten times
    it is a little above 99, with ceiling 100, but the binary64 product
    is 99, so a hit adds 199 points where the exact formula gives
    200. *)
Lemma arcade_points_rounded : ~ Spec.hitIsExact More.afterOneTick.
Proof.
  intros H.
  assert (Hhit : exists o,
             WordRushGame.handleAnswer More.afterOneTick (Some "con meo")
             = Some o
             /\ WordRushGame.feedback (WordRushGame.next o)
                = Some WordRushGame.HIT)
    by (eexists; split; reflexivity).
  destruct Hhit as (o & Ho & Hfb).
  pose proof (H "con meo" o Ho Hfb) as Hexact.
  vm_compute in Ho. injection Ho as <-.
  vm_compute in Hexact. discriminate Hexact.
Qed.

Lemma exactPoints_shift (t : float) (s p : Z) :
  Spec.exactPoints t s = Some p ->
  exists p0, Spec.exactPoints t 0 = Some p0 /\ p = p0 + 5 * s.
Proof.
  unfold Spec.exactPoints. destruct (Spec.exactValue t) as [v|];
    [|discriminate].
  set (c := Qround.Qceiling _). clearbody c.
  intros H. exists (100 + c + 5 * 0). split; [reflexivity|].
  assert (Hinj : forall a b : Z, Some a = Some b -> a = b)
    by (intros a b E; congruence).
  apply Hinj in H. lia.
Qed.

Lemma points_shift (t : float) (s : Z) :
  WordRushGame.points t s = WordRushGame.points t 0 + 5 * s.
Proof.
  unfold WordRushGame.points. set (c := JS.Math_ceil _). clearbody c. lia.
Qed.

(** On every value that the countdown of a round takes, the code adds
    the points of the exact formula or one point less. *)
Lemma points_gap_on_countdown (i : Z) (t : float) (s p : Z) :
  0 <= i ->
  In t (More.countdownFrom 200 (JS.ofInt (WordRushGame.newMaxTime i))) ->
  Spec.exactPoints t s = Some p ->
  WordRushGame.points t s <= p <= WordRushGame.points t s + 1.
Proof.
  intros Hi Hin Hp.
  assert (Hall : forallb Spec.gapAtMostOne
                   (More.countdownFrom 200
                      (JS.ofInt (WordRushGame.newMaxTime i))) = true).
  { assert (Hb : 3 <= WordRushGame.newMaxTime i <= 10).
    { unfold WordRushGame.newMaxTime.
      assert (H3 : 0 < 3) by lia.
      pose proof (Z.div_pos i 3 Hi H3). lia. }
    assert (Hcases : WordRushGame.newMaxTime i = 3
                     \/ WordRushGame.newMaxTime i = 4
                     \/ WordRushGame.newMaxTime i = 5
                     \/ WordRushGame.newMaxTime i = 6
                     \/ WordRushGame.newMaxTime i = 7
                     \/ WordRushGame.newMaxTime i = 8
                     \/ WordRushGame.newMaxTime i = 9
                     \/ WordRushGame.newMaxTime i = 10) by lia.
    destruct Hcases as [H|[H|[H|[H|[H|[H|[H|H]]]]]]]; rewrite H;
      vm_compute; reflexivity. }
  pose proof (proj1 (forallb_forall _ _) Hall t Hin) as Hgap.
  destruct (exactPoints_shift t s p Hp) as (p0 & Hp0 & ->).
  rewrite (points_shift t s).
  unfold Spec.gapAtMostOne in Hgap. rewrite Hp0 in Hgap.
  set (c := WordRushGame.points t 0) in *. clearbody c.
  destruct (Z.leb_spec c p0); [|discriminate Hgap].
  destruct (Z.leb_spec p0 (c + 1)); [|discriminate Hgap]. lia.
Qed.

(** C9, as the code has it. When the selected definition is the one of
    the current word, [handleAnswer] raises the streak by one and adds
    [100 + ceil(p) + 5 * streak] to the score, where [p] is the
    binary64 product of the time left and 10, that is, the product
    rounded to the nearest binary64 value, and [ceil(p)] is the least
    integer not below the number that [p] is. *)
Theorem arcade_hit_points
  (st : WordRushGame.State) (currentWord : VocabularyItem)
  (selected : string)
  (Hword : JS.index (WordRushGame.words st) (WordRushGame.currentIndex st)
           = Some currentWord)
  (Hhit : selected = vietnameseDefinition currentWord) :
  exists o,
    WordRushGame.handleAnswer st (Some selected) = Some o
    /\ WordRushGame.streak (WordRushGame.next o)
       = WordRushGame.streak st + 1
    /\ forall p,
         Spec.exactValue (WordRushGame.timeLeft st * 10)%float = Some p ->
         WordRushGame.score (WordRushGame.next o)
         = WordRushGame.score st
           + (100 + Qround.Qceiling p + 5 * WordRushGame.streak st)
         /\ QArith_base.Qlt
              (QArith_base.Qminus
                 (QArith_base.inject_Z
                    (WordRushGame.score (WordRushGame.next o)
                     - WordRushGame.score st
                     - 100 - 5 * WordRushGame.streak st))
                 (QArith_base.inject_Z 1)) p
         /\ QArith_base.Qle p
              (QArith_base.inject_Z
                 (WordRushGame.score (WordRushGame.next o)
                  - WordRushGame.score st
                  - 100 - 5 * WordRushGame.streak st)).
Proof.
  unfold WordRushGame.handleAnswer. rewrite Hword. subst selected.
  rewrite String.eqb_refl. eexists. split; [reflexivity|].
  cbn [WordRushGame.next WordRushGame.score WordRushGame.streak].
  split; [reflexivity|]. intros p Hp.
  unfold WordRushGame.points. rewrite (Math_ceil_exact _ p Hp).
  replace (WordRushGame.score st
           + (100 + Qround.Qceiling p + WordRushGame.streak st * 5)
           - WordRushGame.score st - 100 - 5 * WordRushGame.streak st)
    with (Qround.Qceiling p) by lia.
  split; [lia|]. split.
  - pose proof (Qround.Qceiling_lt p) as Hlt.
    unfold QArith_base.Qminus.
    rewrite <- (QArith_base.inject_Z_opp 1), <- QArith_base.inject_Z_plus.
    exact Hlt.
  - apply Qround.Qle_ceiling.
Qed.

Lemma arcade_hit_points_witness :
  exists o,
    WordRushGame.handleAnswer Sample.arcade (Some "con cho") = Some o
    /\ WordRushGame.score (WordRushGame.next o) = 250 + (100 + 73 + 5 * 2)
    /\ WordRushGame.streak (WordRushGame.next o) = 3.
Proof.
  assert (Hp : exists p,
             Spec.exactValue
               (WordRushGame.timeLeft Sample.arcade * 10)%float = Some p
             /\ Qround.Qceiling p = 73)
    by (eexists; split; vm_compute; reflexivity).
  destruct Hp as (p & Hp & Hceil).
  destruct (arcade_hit_points Sample.arcade (Sample.item "2" "dog" "con cho")
              "con cho" eq_refl eq_refl) as (o & Ho & Hs & Hsc).
  destruct (Hsc p Hp) as [Hscore _]. rewrite Hceil in Hscore.
  exists o. split; [exact Ho|]. split; [exact Hscore | exact Hs].
Defined.
